(** * A shallow embedding of the limit order book of [OrderBook/main.cpp]

    The C++ class [OrderBook] keeps resting orders in two [std::map]s (one per
    side, ordered by price), an [unordered_map] from order identity to the
    place of the order, and a bump-pointer pool that owns the [Order] records.

    Modelling choices, all taken from the source:
    - [uint64_t] fields are integers of [Z]; every arithmetic operation of the
      source on them is followed by [wrap64], the reduction modulo [2^64];
    - [double] prices are only ever compared ([==], [<], [>]) by the book,
      never added or scaled, and [std::map] requires its keys to be strictly
      weakly ordered (no NaN), so a price is an integer number of ticks
      ordered by the usual order of [Z];
    - [std::map<double, PriceLevelData, Compare>] is the list of its entries in
      iteration order, that is, sorted by the comparator;
    - [unordered_map<uint64_t, OrderLocation>] is a [gmap];
    - the memory pool is the list of the records it has handed out; [Order*] is
      an index into it, and records are never moved or reclaimed;
    - an [OrderList::iterator] designates one list node; every node is created
      by one [add_order] for a freshly allocated record, so a node is named by
      the pool index of the record it holds;
    - the two [vector<PriceLevel>&] parameters of [get_snapshot] are addresses
      into a heap of vectors, so both may designate one vector; a vector has
      elements and a capacity, [reserve] and [emplace_back] throw as the
      standard library's do, and the heap decides each allocation request;
    - erasing through an iterator that designates no node of the list, or
      reading through a pointer the pool never returned, is undefined in C++;
      the model then leaves the list as it is and reads [null_order].  The
      invariant [book_inv], proved for every reachable state, excludes both. *)

From stdpp Require Import functions gmap list fin_maps sorting.
From Stdlib Require Import ZArith Lia.

Local Open Scope Z_scope.

(** ** Machine integers *)

Definition wrap64 (z : Z) : Z := z mod 2 ^ 64.

Definition is_u64 (z : Z) : Prop := 0 ≤ z < 2 ^ 64.

(** ** Data model *)

(** [struct Order] *)
Record Order := mkOrder {
  order_id : Z;
  is_buy : bool;
  price : Z;
  quantity : Z;
  timestamp_ns : Z
}.

(** [struct PriceLevel], the element type of a snapshot *)
Record PriceLevel := mkPriceLevel {
  pl_price : Z;
  pl_total_quantity : Z
}.

(** [Order*]: the index of the record in the pool *)
Abbreviation ptr := nat (only parsing).

(** [MemoryPool<Order, 8192>], seen as the sequence of allocated records *)
Abbreviation MemoryPool := (list Order) (only parsing).

Definition null_order : Order := mkOrder 0 false 0 0 0.

(** [*p] for [p : Order*] *)
Definition deref (pool : MemoryPool) (p : ptr) : Order :=
  default null_order (pool !! p).

(** [MemoryPool::allocate]: the record is constructed at the bump pointer,
    whose value is returned. *)
Definition allocate (pool : MemoryPool) (o : Order) : ptr * MemoryPool :=
  (length pool, pool ++ [o]).

(** [order->quantity = q] *)
Definition set_quantity (pool : MemoryPool) (p : ptr) (q : Z) : MemoryPool :=
  let o := deref pool p in
  <[p := mkOrder (order_id o) (is_buy o) (price o) q (timestamp_ns o)]> pool.

(** [OrderBook::PriceLevelData] *)
Record PriceLevelData := mkLevel {
  orders : list ptr;
  total_quantity : Z
}.

(** A default-constructed [PriceLevelData] *)
Definition empty_level : PriceLevelData := mkLevel [] 0.

(** [PriceLevelData::add_order] *)
Definition level_add_order (pool : MemoryPool) (order : ptr)
    (lvl : PriceLevelData) : PriceLevelData :=
  mkLevel (orders lvl ++ [order])
          (wrap64 (total_quantity lvl + quantity (deref pool order))).

(** [orders.erase(it)]: unlink the node [it]; the other nodes keep their
    relative order. *)
Fixpoint list_erase (it : ptr) (l : list ptr) : list ptr :=
  match l with
  | [] => []
  | x :: r => if Nat.eqb x it then r else x :: list_erase it r
  end.

(** [PriceLevelData::remove_order] *)
Definition level_remove_order (pool : MemoryPool) (it : ptr)
    (lvl : PriceLevelData) : PriceLevelData :=
  mkLevel (list_erase it (orders lvl))
          (wrap64 (total_quantity lvl - quantity (deref pool it))).

(** [PriceLevelData::update_quantity] *)
Definition level_update_quantity (pool : MemoryPool) (order : ptr) (old_qty : Z)
    (lvl : PriceLevelData) : PriceLevelData :=
  mkLevel (orders lvl)
          (wrap64 (wrap64 (total_quantity lvl - old_qty)
                   + quantity (deref pool order))).

(** ** The side index: [std::map] with a comparator *)

Module SideMap.
Section Ops.
Variable comp : Z → Z → bool.

(** Two keys are equivalent when neither goes before the other. *)
Definition equiv_key (a b : Z) : bool := negb (comp a b) && negb (comp b a).

(** [m.find(k)] *)
Fixpoint find (k : Z) (m : list (Z * PriceLevelData)) : option PriceLevelData :=
  match m with
  | [] => None
  | (k', v) :: r => if equiv_key k k' then Some v else find k r
  end.

(** [auto& v = m[k]; f(v)]: the entry is created (default-constructed, at
    its place in the order) when the key is absent. *)
Fixpoint at_key (f : PriceLevelData → PriceLevelData) (k : Z)
    (m : list (Z * PriceLevelData)) : list (Z * PriceLevelData) :=
  match m with
  | [] => [(k, f empty_level)]
  | (k', v) :: r =>
      if comp k k' then (k, f empty_level) :: m
      else if comp k' k then (k', v) :: at_key f k r
      else (k', f v) :: r
  end.

(** [auto it = m.find(k); f(it->second)], for a key that is present *)
Fixpoint modify (f : PriceLevelData → PriceLevelData) (k : Z)
    (m : list (Z * PriceLevelData)) : list (Z * PriceLevelData) :=
  match m with
  | [] => []
  | (k', v) :: r =>
      if equiv_key k k' then (k', f v) :: r else (k', v) :: modify f k r
  end.

(** [m.erase(m.find(k))] *)
Fixpoint erase (k : Z) (m : list (Z * PriceLevelData)) : list (Z * PriceLevelData) :=
  match m with
  | [] => []
  | (k', v) :: r => if equiv_key k k' then r else (k', v) :: erase k r
  end.

(** The keys in iteration order go strictly forward for the comparator. *)
Fixpoint sorted (m : list (Z * PriceLevelData)) : Prop :=
  match m with
  | [] => True
  | (k, _) :: r => Forall (λ e, comp k (fst e) = true) r ∧ sorted r
  end.
End Ops.
End SideMap.

(** [greater<double>] and [less<double>] *)
Definition greater (a b : Z) : bool := Z.gtb a b.
Definition less (a b : Z) : bool := Z.ltb a b.

(** ** The book *)

(** [OrderBook::OrderLocation] *)
Record OrderLocation := mkLoc {
  loc_price : Z;
  loc_it : ptr;
  loc_is_buy : bool
}.

Record OrderBook := mkBook {
  bids : list (Z * PriceLevelData);
  asks : list (Z * PriceLevelData);
  order_lookup : gmap Z OrderLocation;
  order_pool : list Order
}.

(** A default-constructed book. *)
Definition empty_book : OrderBook := mkBook [] [] ∅ [].

(** [OrderBook::add_order] *)
Definition add_order (order : Order) (b : OrderBook) : OrderBook :=
  let '(new_order, pool) :=
    allocate (order_pool b)
      (mkOrder (order_id order) (is_buy order) (price order)
               (quantity order) (timestamp_ns order)) in
  if is_buy order then
    mkBook (SideMap.at_key greater (level_add_order pool new_order) (price order) (bids b))
           (asks b)
           (<[order_id order := mkLoc (price order) new_order (is_buy order)]> (order_lookup b))
           pool
  else
    mkBook (bids b)
           (SideMap.at_key less (level_add_order pool new_order) (price order) (asks b))
           (<[order_id order := mkLoc (price order) new_order (is_buy order)]> (order_lookup b))
           pool.

(** The tail of [cancel_order] once the level has been found: remove the node,
    drop the level when it became empty. *)
Definition remove_from_side (comp : Z → Z → bool) (pool : MemoryPool)
    (loc : OrderLocation) (price_level : PriceLevelData)
    (side : list (Z * PriceLevelData)) : list (Z * PriceLevelData) :=
  let price_level' := level_remove_order pool (loc_it loc) price_level in
  match orders price_level' with
  | [] => SideMap.erase comp (loc_price loc) side
  | _ :: _ => SideMap.modify comp (level_remove_order pool (loc_it loc)) (loc_price loc) side
  end.

(** [OrderBook::cancel_order] *)
Definition cancel_order (id : Z) (b : OrderBook) : bool * OrderBook :=
  match order_lookup b !! id with
  | None => (false, b)
  | Some loc =>
      if loc_is_buy loc then
        match SideMap.find greater (loc_price loc) (bids b) with
        | None => (false, b)
        | Some price_level =>
            (true,
             mkBook (remove_from_side greater (order_pool b) loc price_level (bids b))
                    (asks b)
                    (delete id (order_lookup b))
                    (order_pool b))
        end
      else
        match SideMap.find less (loc_price loc) (asks b) with
        | None => (false, b)
        | Some price_level =>
            (true,
             mkBook (bids b)
                    (remove_from_side less (order_pool b) loc price_level (asks b))
                    (delete id (order_lookup b))
                    (order_pool b))
        end
  end.

(** [OrderBook::amend_order] *)
Definition amend_order (id : Z) (new_price new_quantity : Z) (b : OrderBook)
    : bool * OrderBook :=
  match order_lookup b !! id with
  | None => (false, b)
  | Some loc =>
      let order := loc_it loc in
      let o := deref (order_pool b) order in
      if negb (Z.eqb (price o) new_price) then
        let is_buy := is_buy o in
        let timestamp := timestamp_ns o in
        let b1 := snd (cancel_order id b) in
        (true, add_order (mkOrder id is_buy new_price new_quantity timestamp) b1)
      else
        let old_qty := quantity o in
        let pool := set_quantity (order_pool b) order new_quantity in
        let b1 :=
          if loc_is_buy loc then
            mkBook (SideMap.at_key greater (level_update_quantity pool order old_qty)
                      (loc_price loc) (bids b))
                   (asks b) (order_lookup b) pool
          else
            mkBook (bids b)
                   (SideMap.at_key less (level_update_quantity pool order old_qty)
                      (loc_price loc) (asks b))
                   (order_lookup b) pool in
        if Z.eqb new_quantity 0 then cancel_order id b1 else (true, b1)
  end.

(** The quantity-only branch of [amend_order], before the test for zero:
    the order is written in place and the aggregate of its level adjusted. *)
Definition update_in_place (loc : OrderLocation) (new_quantity : Z)
    (b : OrderBook) : OrderBook :=
  let order := loc_it loc in
  let old_qty := quantity (deref (order_pool b) order) in
  let pool := set_quantity (order_pool b) order new_quantity in
  if loc_is_buy loc then
    mkBook (SideMap.at_key greater (level_update_quantity pool order old_qty)
              (loc_price loc) (bids b))
           (asks b) (order_lookup b) pool
  else
    mkBook (bids b)
           (SideMap.at_key less (level_update_quantity pool order old_qty)
              (loc_price loc) (asks b))
           (order_lookup b) pool.

(** *** [std::vector<PriceLevel>] and the heap, as [get_snapshot] uses them

    [get_snapshot] writes through two references to vectors owned by the
    caller, which may designate the same vector, and three of the calls it
    makes on them can throw.  A vector is its elements and its capacity; a
    reference is the address of a vector in the heap.  Whether [operator new]
    obtains storage is not decided by the program: the heap carries the
    answers it will give, [grants h k n] for its request number [k] when that
    request asks for [n] entries, and the number of requests served so far.
    A statement maps a heap to an outcome and the heap it leaves; an
    exception ends the statements that follow and keeps the heap as it was at
    the [throw]. *)
Inductive exception := length_error | bad_alloc.

Inductive outcome := Returned | Thrown (e : exception).

Record vector := mkVector {
  v_elems : list PriceLevel;
  v_capacity : Z
}.

Definition v_size (v : vector) : Z := Z.of_nat (length (v_elems v)).

Record Heap := mkHeap {
  vectors : nat → vector;
  served : nat;
  grants : nat → Z → bool
}.

Definition stmt : Type := Heap → outcome * Heap.

Definition skip : stmt := λ h, (Returned, h).

Definition throw (e : exception) : stmt := λ h, (Thrown e, h).

Definition and_then (s1 s2 : stmt) : stmt := λ h,
  match s1 h with
  | (Returned, h1) => s2 h1
  | (Thrown e, h1) => (Thrown e, h1)
  end.

Notation "s1 >>> s2" := (and_then s1 s2) (at level 61, left associativity).

(** [sizeof(PriceLevel)]: a [double] and a [uint64_t]. *)
Definition sizeof_PriceLevel : Z := 16.

Definition PTRDIFF_MAX : Z := 2 ^ 63 - 1.

(** [vector<PriceLevel>::max_size()] *)
Definition vector_max_size : Z := PTRDIFF_MAX / sizeof_PriceLevel.

(** The allocator is asked for an array of [n] entries; it throws
    [std::bad_alloc] when the heap does not grant it. *)
Definition new_array (n : Z) : stmt := λ h,
  let h' := mkHeap (vectors h) (S (served h)) (grants h) in
  if grants h (served h) n then (Returned, h') else (Thrown bad_alloc, h').

Definition set_vector (r : nat) (v : vector) : stmt := λ h,
  (Returned, mkHeap (<[r := v]> (vectors h)) (served h) (grants h)).

(** [clear()]: the elements go, the storage stays. *)
Definition vector_clear (r : nat) : stmt := λ h,
  set_vector r (mkVector [] (v_capacity (vectors h r))) h.

(** [reserve(n)]: [std::length_error] when [n > max_size()]; nothing when the
    capacity suffices; otherwise new storage of [n] entries, to which the
    elements move. *)
Definition vector_reserve (r : nat) (n : Z) : stmt := λ h,
  let v := vectors h r in
  if vector_max_size <? n then throw length_error h
  else if v_capacity v <? n then
    (new_array n >>> set_vector r (mkVector (v_elems v) n)) h
  else skip h.

(** The capacity a full vector of [size] elements grows to: [size +
    max(size, 1)], or [max_size()] when that overflows or exceeds it. *)
Definition vector_grow (size : Z) : Z :=
  let len := wrap64 (size + Z.max size 1) in
  if (len <? size) || (vector_max_size <? len) then vector_max_size else len.

(** [emplace_back(price, quantity)]: constructs in place while the storage
    has room; a full vector first grows, which throws [std::length_error] at
    [max_size()] elements and [std::bad_alloc] when the heap refuses. *)
Definition vector_emplace_back (r : nat) (x : PriceLevel) : stmt := λ h,
  let v := vectors h r in
  if negb (v_size v =? v_capacity v) then
    set_vector r (mkVector (v_elems v ++ [x]) (v_capacity v)) h
  else if vector_max_size - v_size v <? 1 then throw length_error h
  else
    (new_array (vector_grow (v_size v))
     >>> set_vector r (mkVector (v_elems v ++ [x]) (vector_grow (v_size v)))) h.

(** The loop of [get_snapshot] over one side: [count] levels have been
    emitted so far into the vector behind [out]. *)
Fixpoint snapshot_loop (depth count : Z) (side : list (Z * PriceLevelData))
    (out : nat) : stmt :=
  match side with
  | [] => skip
  | (price, level) :: rest =>
      if depth <=? count then skip
      else vector_emplace_back out (mkPriceLevel price (total_quantity level))
           >>> snapshot_loop depth (wrap64 (count + 1)) rest out
  end.

(** [OrderBook::get_snapshot]: a [const] member, so the book is read only;
    [depth] is a [size_t]; [bids_out] and [asks_out] are the two references. *)
Definition get_snapshot (depth : Z) (b : OrderBook) (bids_out asks_out : nat)
    : stmt :=
  vector_clear bids_out >>> vector_clear asks_out
  >>> vector_reserve bids_out depth >>> vector_reserve asks_out depth
  >>> snapshot_loop depth 0 (bids b) bids_out
  >>> snapshot_loop depth 0 (asks b) asks_out.

(** [get_total_orders], [get_bid_levels], [get_ask_levels] *)
Definition get_total_orders (b : OrderBook) : nat := size (order_lookup b).
Definition get_bid_levels (b : OrderBook) : nat := length (bids b).
Definition get_ask_levels (b : OrderBook) : nat := length (asks b).

(** ** Sequences of calls *)

Inductive Op :=
| Add (o : Order)
| Cancel (id : Z)
| Amend (id : Z) (new_price new_quantity : Z).

Definition step (op : Op) (b : OrderBook) : OrderBook :=
  match op with
  | Add o => add_order o b
  | Cancel id => snd (cancel_order id b)
  | Amend id p q => snd (amend_order id p q b)
  end.

Definition run (ops : list Op) (b : OrderBook) : OrderBook :=
  foldl (λ b op, step op b) b ops.

(** The arguments of a call fit their C++ types. *)
Definition op_ok (op : Op) : Prop :=
  match op with
  | Add o => is_u64 (order_id o) ∧ is_u64 (quantity o) ∧ is_u64 (timestamp_ns o)
  | Cancel id => is_u64 id
  | Amend id _ q => is_u64 id ∧ is_u64 q
  end.

Definition reachable (b : OrderBook) : Prop :=
  ∃ ops, Forall op_ok ops ∧ b = run ops empty_book.

(** ** The two sides, uniformly *)

Definition comp_of (buy : bool) : Z → Z → bool := if buy then greater else less.

Definition side_of (buy : bool) (b : OrderBook) : list (Z * PriceLevelData) :=
  if buy then bids b else asks b.

(** ** Invariants *)

(** The sum, in [Z], of the quantities of the orders of a sequence. *)
Definition sum_quantities (pool : MemoryPool) (l : list ptr) : Z :=
  foldr (λ p acc, quantity (deref pool p) + acc) 0 l.

(** A level of side [buy] stored under the key [k]. *)
Record level_ok (pool : MemoryPool) (buy : bool) (k : Z) (lvl : PriceLevelData)
    : Prop := mk_level_ok {
  lvl_nonempty : orders lvl ≠ [];
  lvl_nodup : NoDup (orders lvl);
  lvl_total : total_quantity lvl = wrap64 (sum_quantities pool (orders lvl));
  lvl_nodes : ∀ p, p ∈ orders lvl →
    ∃ o, pool !! p = Some o ∧ is_buy o = buy ∧ price o = k
}.

(** The location stored for [id] designates a node of the level it names, and
    that node holds an order of identity [id]. *)
Definition loc_ok (b : OrderBook) (id : Z) (loc : OrderLocation) : Prop :=
  ∃ lvl,
    SideMap.find (comp_of (loc_is_buy loc)) (loc_price loc)
      (side_of (loc_is_buy loc) b) = Some lvl
    ∧ loc_it loc ∈ orders lvl
    ∧ order_id (deref (order_pool b) (loc_it loc)) = id.

(** The two maps are well-formed [std::map]s. *)
Definition sides_sorted (b : OrderBook) : Prop :=
  SideMap.sorted greater (bids b) ∧ SideMap.sorted less (asks b).

Record book_inv (b : OrderBook) : Prop := mk_book_inv {
  inv_sorted : sides_sorted b;
  inv_levels : ∀ buy k lvl,
    SideMap.find (comp_of buy) k (side_of buy b) = Some lvl →
    level_ok (order_pool b) buy k lvl;
  inv_lookup : ∀ id loc, order_lookup b !! id = Some loc → loc_ok b id loc
}.

(** Every quantity held in the pool fits [uint64_t]. *)
Definition pool_u64 (b : OrderBook) : Prop :=
  Forall (λ o, is_u64 (quantity o)) (order_pool b).

(** ** Vocabulary of the properties *)

(** The level [lvl] is stored under the price [k] in one of the side indexes. *)
Definition level_in_book (k : Z) (lvl : PriceLevelData) (b : OrderBook) : Prop :=
  (k, lvl) ∈ bids b ∨ (k, lvl) ∈ asks b.

(** The order sequence recorded at a price; empty when the price is not a key. *)
Definition level_orders (buy : bool) (k : Z) (b : OrderBook) : list ptr :=
  match SideMap.find (comp_of buy) k (side_of buy b) with
  | Some lvl => orders lvl
  | None => []
  end.

(** [get_bid_levels] or [get_ask_levels], by side. *)
Definition level_count (buy : bool) (b : OrderBook) : nat :=
  if buy then get_bid_levels b else get_ask_levels b.

(** One snapshot entry for one entry of a side index. *)
Definition level_view (e : Z * PriceLevelData) : PriceLevel :=
  mkPriceLevel e.1 (total_quantity e.2).

(** A node is live when a level of a side index holds it. *)
Definition live (b : OrderBook) (p : ptr) : Prop :=
  ∃ buy k lvl,
    SideMap.find (comp_of buy) k (side_of buy b) = Some lvl ∧ p ∈ orders lvl.

(** Two books with the same side indexes, the same lookup, the same next
    address in the pool and the same record behind every live node.  They may
    differ only in records of the pool that no level refers to any more (the
    pool never reclaims the record of a removed order). *)
Definition same_book (b1 b2 : OrderBook) : Prop :=
  bids b1 = bids b2
  ∧ asks b1 = asks b2
  ∧ order_lookup b1 = order_lookup b2
  ∧ length (order_pool b1) = length (order_pool b2)
  ∧ ∀ p, live b1 p → order_pool b1 !! p = order_pool b2 !! p.

(** The order records that occupy the levels of both side indexes. *)
Definition resting_records (b : OrderBook) : list ptr :=
  mjoin ((λ e, orders e.2) <$> bids b) ++ mjoin ((λ e, orders e.2) <$> asks b).

(** An orphan: a node held by the level at price [k] of side [buy], whose
    record is [o], and which no lookup entry designates. *)
Definition orphan (p : ptr) (buy : bool) (k : Z) (o : Order) (b : OrderBook) : Prop :=
  p ∈ level_orders buy k b
  ∧ order_pool b !! p = Some o
  ∧ ∀ id loc, order_lookup b !! id = Some loc → loc_it loc ≠ p.

(** A price-changing amendment in the words of the specification: cancel the
    identity, then add a new order with the same identity, the side [buy] and
    the timestamp [timestamp] of the original order, the new price and the new
    quantity. *)
Definition cancel_then_add (id : Z) (buy : bool) (timestamp : Z)
    (new_price new_quantity : Z) (b : OrderBook) : OrderBook :=
  let cancelled := snd (cancel_order id b) in
  add_order (mkOrder id buy new_price new_quantity timestamp) cancelled.

(** ** Counting calls *)

(** Counters over a sequence of calls. *)
Record Tally := mkTally {
  adds : nat;
  successful_cancels : nat;
  zero_quantity_amends : nat;
  overwritten_duplicates : nat
}.

(** The price held by the record that the lookup designates for [id]. *)
Definition current_price (id : Z) (b : OrderBook) : option Z :=
  (λ loc, price (deref (order_pool b) (loc_it loc))) <$> order_lookup b !! id.

(** An amendment that succeeds and asks for quantity zero, whatever the price. *)
Definition zero_amend_any_price (id new_price new_quantity : Z) (b : OrderBook) : bool :=
  fst (amend_order id new_price new_quantity b) && Z.eqb new_quantity 0.

(** An amendment that succeeds, asks for quantity zero and keeps the price. *)
Definition zero_amend_same_price (id new_price new_quantity : Z) (b : OrderBook) : bool :=
  fst (amend_order id new_price new_quantity b) && Z.eqb new_quantity 0
  && bool_decide (current_price id b = Some new_price).

Definition tally_step (zero_amend : Z → Z → Z → OrderBook → bool)
    (op : Op) (b : OrderBook) (t : Tally) : Tally :=
  match op with
  | Add o =>
      mkTally (S (adds t)) (successful_cancels t) (zero_quantity_amends t)
        (if bool_decide (is_Some (order_lookup b !! order_id o))
         then S (overwritten_duplicates t) else overwritten_duplicates t)
  | Cancel id =>
      mkTally (adds t)
        (if fst (cancel_order id b) then S (successful_cancels t)
         else successful_cancels t)
        (zero_quantity_amends t) (overwritten_duplicates t)
  | Amend id p q =>
      mkTally (adds t) (successful_cancels t)
        (if zero_amend id p q b then S (zero_quantity_amends t)
         else zero_quantity_amends t)
        (overwritten_duplicates t)
  end.

(** The counters after the calls [ops] issued from the book [b]. *)
Fixpoint tally (zero_amend : Z → Z → Z → OrderBook → bool)
    (ops : list Op) (b : OrderBook) (t : Tally) : Tally :=
  match ops with
  | [] => t
  | op :: ops => tally zero_amend ops (step op b) (tally_step zero_amend op b t)
  end.

(** Adds minus successful cancels minus zero-quantity amends minus
    overwritten duplicates. *)
Definition tally_balance (t : Tally) : Z :=
  Z.of_nat (adds t) - Z.of_nat (successful_cancels t)
  - Z.of_nat (zero_quantity_amends t) - Z.of_nat (overwritten_duplicates t).

(** ** Sample books *)

(** One buy order, identity 1. *)
Definition book_one_bid : OrderBook :=
  run [Add (mkOrder 1 true 100 10 1000)] empty_book.

(** Three buy orders at one price (the first scenario of the tests). *)
Definition book_three_bids : OrderBook :=
  run [Add (mkOrder 1 true 100 10 1000); Add (mkOrder 2 true 100 20 2000);
       Add (mkOrder 3 true 100 30 3000)] empty_book.

(** One order a level, three levels a side ([test_snapshot_ordering]). *)
Definition book_two_sided : OrderBook :=
  run [Add (mkOrder 1 true 100 10 1000); Add (mkOrder 2 true 102 20 2000);
       Add (mkOrder 3 true 101 30 3000); Add (mkOrder 4 false 103 40 4000);
       Add (mkOrder 5 false 105 50 5000); Add (mkOrder 6 false 104 60 6000)]
      empty_book.

(** The book after two buy orders of quantity [2^63] at the same price. *)
Definition overflow_book : OrderBook :=
  run [Add (mkOrder 1 true 100 (2 ^ 63) 0); Add (mkOrder 2 true 100 (2 ^ 63) 0)]
      empty_book.

(** An add followed by an amendment to another price with quantity zero. *)
Definition zero_reprice_calls : list Op :=
  [Add (mkOrder 1 true 100 10 1000); Amend 1 101 0].

(** Two empty vectors, at the addresses 0 and 1, as the tests declare them
    ([vector<PriceLevel> bids, asks;]), on a heap that grants every request. *)
Definition two_empty_vectors : Heap :=
  mkHeap (λ _, mkVector [] 0) 0 (λ _ _, true).

(** The outcome of [get_snapshot(depth, bids, asks)] on these two vectors and
    what they hold afterwards. *)
Definition snapshot_of (depth : Z) (b : OrderBook)
    : outcome * (list PriceLevel * list PriceLevel) :=
  let r := get_snapshot depth b 0%nat 1%nat two_empty_vectors in
  (fst r, (v_elems (vectors (snd r) 0%nat), v_elems (vectors (snd r) 1%nat))).

(** ** The memory pool, block by block

    [template<typename T, size_t BlockSize> class MemoryPool].  A block is the
    objects constructed in its buffer, keyed by the byte offset at which each
    starts, and its [next] pointer; a [Block*] is the index of the block in
    [all_blocks]; an object pointer is a block together with an offset.
    [sizeof(T)] is a parameter, and [size_t] is taken to be 64 bits wide. *)

Module BlockPool.
Section Defs.
Context {T : Type}.
Variable BlockSize : Z.
Variable sizeof_T : Z.

Record Block := mkBlock {
  data : gmap Z T;
  next : option nat
}.

Record Pool := mkPool {
  current_block : option nat;
  offset : Z;
  all_blocks : list Block
}.

(** [MemoryPool::allocate_block] *)
Definition allocate_block (p : Pool) : Pool :=
  let new_block := length (all_blocks p) in
  let blocks := all_blocks p ++ [mkBlock ∅ None] in
  mkPool (Some new_block) 0
    (match current_block p with
     | Some c => alter (λ b, mkBlock (data b) (Some new_block)) c blocks
     | None => blocks
     end).

(** The constructor [MemoryPool()] *)
Definition create : Pool := allocate_block (mkPool None 0 []).

(** [new (ptr) T(args...)] at offset [off] of block [c] *)
Definition construct_at (c : nat) (off : Z) (v : T) (blocks : list Block)
    : list Block :=
  alter (λ b, mkBlock (<[off := v]> (data b)) (next b)) c blocks.

(** [MemoryPool::allocate]; [None] stands for the dereference of a null
    [current_block]. *)
Definition allocate (v : T) (p : Pool) : option ((nat * Z) * Pool) :=
  let p1 :=
    if Z.ltb BlockSize (wrap64 (offset p + sizeof_T)) then allocate_block p
    else p in
  match current_block p1 with
  | None => None
  | Some c =>
      Some ((c, offset p1),
            mkPool (Some c) (wrap64 (offset p1 + sizeof_T))
              (construct_at c (offset p1) v (all_blocks p1)))
  end.

(** [MemoryPool::reset] *)
Definition reset (p : Pool) : Pool :=
  mkPool (match all_blocks p with [] => None | _ :: _ => Some 0%nat end)
         0 (all_blocks p).

(** The object that starts at an address, if one was constructed there. *)
Definition read (p : Pool) (a : nat * Z) : option T :=
  match all_blocks p !! a.1 with
  | Some b => data b !! a.2
  | None => None
  end.

(** Successive calls of [allocate], with the addresses they return. *)
Fixpoint allocate_all (vs : list T) (p : Pool)
    : option (list (nat * Z) * Pool) :=
  match vs with
  | [] => Some ([], p)
  | v :: vs =>
      match allocate v p with
      | None => None
      | Some (a, p1) =>
          match allocate_all vs p1 with
          | None => None
          | Some (addrs, p2) => Some (a :: addrs, p2)
          end
      end
  end.

(** A pool as the constructor and the member functions leave it: the current
    block exists and the bump offset is within the block. *)
Definition wf (p : Pool) : Prop :=
  ∃ c, current_block p = Some c
       ∧ (c < length (all_blocks p))%nat
       ∧ 0 ≤ offset p ≤ BlockSize.

(** The number of objects that fit a block. *)
Definition per_block : nat := Z.to_nat (BlockSize / sizeof_T).

(** Where the allocation number [i] (from 0) lands, counted from a [reset] of
    a pool that owned [L] blocks; a new pool is the case of one block. *)
Definition address_of (L : nat) (i : nat) : nat * Z :=
  if Nat.ltb i per_block then (0%nat, Z.of_nat i * sizeof_T)
  else ((L + i / per_block - 1)%nat, Z.of_nat (i mod per_block) * sizeof_T).

(** The pool has served [n] allocations since a reset of [L] blocks. *)
Definition at_count (L n : nat) (p : Pool) : Prop :=
  ∃ c k,
    current_block p = Some c
    ∧ offset p = Z.of_nat k * sizeof_T
    ∧ (k ≤ per_block)%nat
    ∧ ((c = 0%nat ∧ length (all_blocks p) = L ∧ n = k)
       ∨ ((L ≤ c)%nat ∧ length (all_blocks p) = S c ∧ (1 ≤ k)%nat
          ∧ n = (per_block + (c - L) * per_block + k)%nat)).

(** Two objects of [sizeof_T] bytes at these addresses share no byte. *)
Definition disjoint (a1 a2 : nat * Z) : Prop :=
  a1.1 ≠ a2.1 ∨ a1.2 + sizeof_T ≤ a2.2 ∨ a2.2 + sizeof_T ≤ a1.2.
End Defs.
End BlockPool.

(** ** Vocabulary of the further properties *)

(** The size of the objects of the book's pool, [sizeof(Order)], on the usual
    64-bit ABIs (five 8-byte slots), and the block size [MemoryPool<Order,
    8192>] is instantiated with. *)
Definition sizeof_Order : Z := 40.
Definition order_block_size : Z := 8192.

(** The number of records a call takes from the pool: one for an add and for
    an amendment that changes the price of a resting order, none otherwise. *)
Definition allocations (op : Op) (b : OrderBook) : nat :=
  match op with
  | Add _ => 1
  | Cancel _ => 0
  | Amend id new_price _ =>
      match current_price id b with
      | Some p => if Z.eqb p new_price then 0 else 1
      | None => 0
      end
  end.

(** The side a call addresses: the side of the order for an add, the side
    recorded in the lookup for a cancel or an amend of a resting identity. *)
Definition op_side (op : Op) (b : OrderBook) : option bool :=
  match op with
  | Add o => Some (is_buy o)
  | Cancel id | Amend id _ _ => loc_is_buy <$> order_lookup b !! id
  end.

(** The same order record but for the quantity. *)
Definition same_but_quantity (o o' : Order) : Prop :=
  order_id o' = order_id o ∧ is_buy o' = is_buy o
  ∧ price o' = price o ∧ timestamp_ns o' = timestamp_ns o.

(** Timestamps blanked: in a record, in a call, in the pool of a book. *)
Definition forget_timestamp (o : Order) : Order :=
  mkOrder (order_id o) (is_buy o) (price o) (quantity o) 0.

Definition forget_op_timestamp (op : Op) : Op :=
  match op with
  | Add o => Add (forget_timestamp o)
  | Cancel id => Cancel id
  | Amend id p q => Amend id p q
  end.

Definition forget_timestamps (b : OrderBook) : OrderBook :=
  mkBook (bids b) (asks b) (order_lookup b) (forget_timestamp <$> order_pool b).

(** 205 orders: one more than a block of the book's pool holds. *)
Definition order_burst : list Order :=
  (λ i, mkOrder (Z.of_nat i) true 100 10 0) <$> seq 0 205.

(** ** The side index as a finite map *)

Module SideMapFacts.
Import SideMap.

Class StrictTotal (comp : Z → Z → bool) : Prop := {
comp_irrefl a : comp a a = false;
comp_trans a b c : comp a b = true → comp b c = true → comp a c = true;
comp_total a b : comp a b = false → comp b a = false → a = b
}.

#[export] Instance greater_strict : StrictTotal greater.
Proof. split; unfold greater; intros; lia. Qed.

#[export] Instance less_strict : StrictTotal less.
Proof. split; unfold less; intros; lia. Qed.

Section Facts.
Context (comp : Z → Z → bool) `{!StrictTotal comp}.
Implicit Types (k : Z) (v : PriceLevelData) (m : list (Z * PriceLevelData)).

Lemma comp_asym a b : comp a b = true → comp b a = false.
Proof.
  intros Hab. destruct (comp b a) eqn:Hba; [|done].
  pose proof (comp_trans _ _ _ Hab Hba) as H. by rewrite comp_irrefl in H.
Qed.

Lemma equiv_key_eq a b : equiv_key comp a b = true ↔ a = b.
Proof.
  unfold equiv_key. split.
  - intros [H1 H2]%andb_true_iff. apply negb_true_iff in H1, H2.
    by apply comp_total.
  - intros ->. by rewrite comp_irrefl.
Qed.

Lemma equiv_key_refl a : equiv_key comp a a = true.
Proof. by apply equiv_key_eq. Qed.

Lemma equiv_key_ne a b : a ≠ b → equiv_key comp a b = false.
Proof.
  intros Hne. destruct (equiv_key comp a b) eqn:E; [|done].
  by apply equiv_key_eq in E.
Qed.

Lemma comp_equiv_false a b : comp a b = true → equiv_key comp a b = false.
Proof. intros H. unfold equiv_key. by rewrite H. Qed.

Lemma comp_equiv_false' a b : comp b a = true → equiv_key comp a b = false.
Proof. intros H. unfold equiv_key. rewrite H. by rewrite andb_false_r. Qed.

(** *** [find] and membership *)

Lemma find_Some_elem k v m : find comp k m = Some v → (k, v) ∈ m.
Proof.
  induction m as [|[k' v'] r IH]; simpl; [done|].
  destruct (equiv_key comp k k') eqn:E.
  - apply equiv_key_eq in E as ->. intros [= ->]. apply list_elem_of_here.
  - intros H. apply list_elem_of_further. auto.
Qed.

Lemma find_None_keys k m : find comp k m = None → k ∉ m.*1.
Proof.
  induction m as [|[k' v'] r IH]; simpl; [intros _; apply not_elem_of_nil|].
  destruct (equiv_key comp k k') eqn:E; [done|].
  intros H [->|Hin]%elem_of_cons.
  - by rewrite equiv_key_refl in E.
  - by apply IH.
Qed.

Lemma sorted_head_notin k v m : sorted comp ((k, v) :: m) → k ∉ m.*1.
Proof.
  intros [Hall _] Hin. apply list_elem_of_fmap in Hin as [[k' v'] [-> Hin]].
  rewrite Forall_forall in Hall. specialize (Hall _ Hin). simpl in Hall.
  by rewrite comp_irrefl in Hall.
Qed.

Lemma elem_find k v m : sorted comp m → (k, v) ∈ m → find comp k m = Some v.
Proof.
  induction m as [|[k' v'] r IH]; simpl.
  - intros _ Hin. by apply elem_of_nil in Hin.
  - intros Hs [[= -> ->]|Hin]%elem_of_cons.
    + by rewrite equiv_key_refl.
    + rewrite equiv_key_ne; [apply IH; [apply Hs|done]|].
      intros ->. apply (sorted_head_notin k' v' r Hs).
      apply list_elem_of_fmap. by exists (k', v).
Qed.

Lemma find_is_Some_keys k m : is_Some (find comp k m) ↔ k ∈ m.*1.
Proof.
  split.
  - intros [v Hv]. apply find_Some_elem in Hv.
    apply list_elem_of_fmap. by exists (k, v).
  - intros Hin. destruct (find comp k m) eqn:E; [by eexists|].
    by apply find_None_keys in E.
Qed.

Lemma find_before_head k k0 v0 m :
  sorted comp ((k0, v0) :: m) → comp k k0 = true →
  find comp k ((k0, v0) :: m) = None.
Proof.
  intros Hs Hk. destruct (find comp k ((k0, v0) :: m)) eqn:E; [|done].
  apply find_Some_elem in E. exfalso.
  apply elem_of_cons in E as [[= -> _]|Hin].
  - by rewrite comp_irrefl in Hk.
  - destruct Hs as [Hall _]. rewrite Forall_forall in Hall.
    specialize (Hall _ Hin). simpl in Hall.
    pose proof (comp_asym _ _ Hk) as Hk'.
    pose proof (comp_trans _ _ _ Hk Hall) as H. by rewrite comp_irrefl in H.
Qed.

(** *** Keys are preserved or added, never reordered *)

Lemma Forall_keys_modify (Q : Z → Prop) f k m :
  Forall (λ e, Q e.1) m → Forall (λ e, Q e.1) (modify comp f k m).
Proof.
  induction 1 as [|[k' v'] r Hq Hr IH]; simpl; [done|].
  destruct (equiv_key comp k k'); constructor; done.
Qed.

Lemma Forall_keys_erase (Q : Z → Prop) k m :
  Forall (λ e, Q e.1) m → Forall (λ e, Q e.1) (erase comp k m).
Proof.
  induction 1 as [|[k' v'] r Hq Hr IH]; simpl; [done|].
  destruct (equiv_key comp k k'); [done|by constructor].
Qed.

Lemma Forall_keys_at_key (Q : Z → Prop) f k m :
  Q k → Forall (λ e, Q e.1) m → Forall (λ e, Q e.1) (at_key comp f k m).
Proof.
  intros Hk. induction 1 as [|[k' v'] r Hq Hr IH]; simpl.
  - by repeat constructor.
  - destruct (comp k k'); [by repeat constructor|].
    destruct (comp k' k); by constructor.
Qed.

Lemma sorted_modify f k m : sorted comp m → sorted comp (modify comp f k m).
Proof.
  induction m as [|[k' v'] r IH]; simpl; [done|]. intros [Hall Hs].
  destruct (equiv_key comp k k'); simpl; [done|].
  split; [|by apply IH].
  by apply (Forall_keys_modify (λ x, comp k' x = true)).
Qed.

Lemma sorted_erase k m : sorted comp m → sorted comp (erase comp k m).
Proof.
  induction m as [|[k' v'] r IH]; simpl; [done|]. intros [Hall Hs].
  destruct (equiv_key comp k k'); simpl; [done|].
  split; [|by apply IH].
  by apply (Forall_keys_erase (λ x, comp k' x = true)).
Qed.

Lemma sorted_at_key f k m : sorted comp m → sorted comp (at_key comp f k m).
Proof.
  induction m as [|[k' v'] r IH]; simpl; [done|]. intros [Hall Hs].
  destruct (comp k k') eqn:E1; simpl.
  - repeat split; [|done..]. constructor; [done|].
    eapply Forall_impl; [exact Hall|]. simpl. intros e He.
    by eapply comp_trans.
  - destruct (comp k' k) eqn:E2; simpl; [|done].
    split; [|by apply IH].
    by apply (Forall_keys_at_key (λ x, comp k' x = true)).
Qed.

(** *** [find] after an update *)

Lemma find_modify f k k' m :
  find comp k' (modify comp f k m)
  = if decide (k = k') then f <$> find comp k m else find comp k' m.
Proof.
  induction m as [|[k0 v0] r IH]; simpl; [by case_decide|].
  destruct (equiv_key comp k k0) eqn:E; simpl.
  - apply equiv_key_eq in E as <-. case_decide as Hk.
    + subst k'. by rewrite equiv_key_refl.
    + rewrite (equiv_key_ne k' k); [done|congruence].
  - rewrite IH. case_decide as Hk; [|done].
    subst k'. by rewrite E.
Qed.

Lemma find_at_key f k k' m :
  sorted comp m →
  find comp k' (at_key comp f k m)
  = if decide (k = k') then Some (f (default empty_level (find comp k m)))
    else find comp k' m.
Proof.
  induction m as [|[k0 v0] r IH]; intros Hs.
  - simpl. case_decide as Hk.
    + subst. by rewrite equiv_key_refl.
    + rewrite equiv_key_ne; [done|congruence].
  - cbn [at_key]. destruct (comp k k0) eqn:E1.
    + rewrite (find_before_head _ _ _ _ Hs E1).
      cbn [find]. case_decide as Hk.
      * subst. by rewrite equiv_key_refl.
      * rewrite (equiv_key_ne k' k); [done|congruence].
    + destruct (comp k0 k) eqn:E2.
      * cbn [find]. rewrite IH; [|apply Hs].
        rewrite (comp_equiv_false' k k0 E2).
        case_decide as Hk; [|done].
        subst. by rewrite (comp_equiv_false' k' k0 E2).
      * pose proof (comp_total _ _ E1 E2) as <-.
        cbn [find]. rewrite equiv_key_refl. simpl.
        case_decide as Hk.
        -- subst. by rewrite equiv_key_refl.
        -- rewrite (equiv_key_ne k' k); [done|congruence].
Qed.

Lemma find_erase k k' m :
  sorted comp m →
  find comp k' (erase comp k m)
  = if decide (k = k') then None else find comp k' m.
Proof.
  induction m as [|[k0 v0] r IH]; intros Hs; simpl; [by case_decide|].
  destruct (equiv_key comp k k0) eqn:E.
  - apply equiv_key_eq in E as <-. case_decide as Hk.
    + subst. destruct (find comp k' r) eqn:F; [|done].
      exfalso. apply (sorted_head_notin k' v0 r Hs).
      apply find_is_Some_keys. by eexists.
    + rewrite (equiv_key_ne k' k); [done|congruence].
  - simpl. rewrite IH; [|apply Hs]. case_decide as Hk; [|done].
    subst. by rewrite E.
Qed.

Lemma at_key_found f k v m :
  sorted comp m → find comp k m = Some v →
  at_key comp f k m = modify comp f k m.
Proof.
  induction m as [|[k0 v0] r IH]; intros Hs; simpl; [done|].
  destruct (comp k k0) eqn:E1.
  - intros Hf. pose proof (find_before_head _ _ _ _ Hs E1) as Hn.
    simpl in Hn. congruence.
  - destruct (comp k0 k) eqn:E2.
    + rewrite (comp_equiv_false' k k0 E2). intros Hf.
      f_equal. apply IH; [apply Hs|done].
    + unfold equiv_key. by rewrite E1, E2.
Qed.

(** *** The number of levels *)

Lemma length_modify f k m : length (modify comp f k m) = length m.
Proof.
  induction m as [|[k0 v0] r IH]; simpl; [done|].
  destruct (equiv_key comp k k0); simpl; congruence.
Qed.

Lemma length_erase k v m :
  find comp k m = Some v → S (length (erase comp k m)) = length m.
Proof.
  induction m as [|[k0 v0] r IH]; simpl; [done|].
  destruct (equiv_key comp k k0); simpl; [done|].
  intros H. f_equal. by apply IH.
Qed.

Lemma length_erase_None k m :
  find comp k m = None → erase comp k m = m.
Proof.
  induction m as [|[k0 v0] r IH]; simpl; [done|].
  destruct (equiv_key comp k k0); simpl; [done|].
  intros H. f_equal. by apply IH.
Qed.

Lemma length_at_key_fresh f k m :
  sorted comp m → find comp k m = None →
  length (at_key comp f k m) = S (length m).
Proof.
  induction m as [|[k0 v0] r IH]; intros Hs; simpl; [done|].
  destruct (comp k k0) eqn:E1; [done|].
  destruct (comp k0 k) eqn:E2.
  - rewrite (comp_equiv_false' k k0 E2). intros Hf. simpl.
    f_equal. apply IH; [apply Hs|done].
  - unfold equiv_key. by rewrite E1, E2.
Qed.
End Facts.
End SideMapFacts.

(** ** Arithmetic modulo [2^64] *)

Lemma wrap64_add_l a b : wrap64 (wrap64 a + b) = wrap64 (a + b).
Proof. unfold wrap64. apply Zplus_mod_idemp_l. Qed.

Lemma wrap64_add_r a b : wrap64 (a + wrap64 b) = wrap64 (a + b).
Proof. unfold wrap64. apply Zplus_mod_idemp_r. Qed.

Lemma wrap64_sub_l a b : wrap64 (wrap64 a - b) = wrap64 (a - b).
Proof. unfold wrap64. apply Zminus_mod_idemp_l. Qed.

Lemma wrap64_small a : is_u64 a → wrap64 a = a.
Proof. unfold wrap64, is_u64. intros H. by apply Z.mod_small. Qed.

Lemma wrap64_is_u64 a : is_u64 (wrap64 a).
Proof. unfold wrap64, is_u64. apply Z.mod_pos_bound. lia. Qed.

(** ** The pool and the order sequences *)

Lemma deref_lookup pool p o : pool !! p = Some o → deref pool p = o.
Proof. unfold deref. by intros ->. Qed.

Lemma deref_app_old pool o p : (p < length pool)%nat → deref (pool ++ [o]) p = deref pool p.
Proof. intros H. unfold deref. by rewrite lookup_app_l. Qed.

Lemma deref_app_new pool o : deref (pool ++ [o]) (length pool) = o.
Proof. unfold deref. by rewrite list_lookup_middle. Qed.

Lemma set_quantity_length pool p q : length (set_quantity pool p q) = length pool.
Proof. unfold set_quantity. apply length_insert. Qed.

Lemma set_quantity_lookup_ne pool p q p' :
  p ≠ p' → set_quantity pool p q !! p' = pool !! p'.
Proof. intros H. unfold set_quantity. by apply list_lookup_insert_ne. Qed.

Lemma set_quantity_lookup_eq pool p q o :
  pool !! p = Some o →
  set_quantity pool p q !! p
  = Some (mkOrder (order_id o) (is_buy o) (price o) q (timestamp_ns o)).
Proof.
  intros H. unfold set_quantity. rewrite (deref_lookup _ _ _ H).
  apply list_lookup_insert_eq. by eapply lookup_lt_Some.
Qed.

Lemma set_quantity_deref_ne pool p q p' :
  p ≠ p' → deref (set_quantity pool p q) p' = deref pool p'.
Proof.
  intros H. unfold deref. rewrite (set_quantity_lookup_ne _ _ _ _ H). done.
Qed.

Lemma sum_quantities_app pool l1 l2 :
  sum_quantities pool (l1 ++ l2) = sum_quantities pool l1 + sum_quantities pool l2.
Proof.
  unfold sum_quantities. induction l1 as [|x l1 IH]; simpl; [done|].
  rewrite IH. lia.
Qed.

Lemma sum_quantities_ext pool pool' l :
  (∀ p, p ∈ l → deref pool' p = deref pool p) →
  sum_quantities pool' l = sum_quantities pool l.
Proof.
  unfold sum_quantities. induction l as [|x l IH]; simpl; [done|]. intros H.
  rewrite IH, H; [done|apply list_elem_of_here|].
  intros p Hp. apply H. by apply list_elem_of_further.
Qed.

Lemma sum_quantities_nonneg pool l :
  Forall (λ o, is_u64 (quantity o)) pool →
  (∀ p, p ∈ l → is_Some (pool !! p)) →
  0 ≤ sum_quantities pool l.
Proof.
  intros Hpool. unfold sum_quantities.
  induction l as [|x l IH]; simpl; [done|]. intros H.
  destruct (H x) as [o Ho]; [apply list_elem_of_here|].
  rewrite (deref_lookup _ _ _ Ho).
  rewrite Forall_forall in Hpool.
  pose proof (Hpool o (list_elem_of_lookup_2 _ _ _ Ho)) as [? ?].
  assert (0 ≤ foldr (λ p acc, quantity (deref pool p) + acc) 0 l).
  { apply IH. intros p Hp. apply H. by apply list_elem_of_further. }
  lia.
Qed.

Lemma list_erase_split it l :
  it ∈ l → ∃ l1 l2, l = l1 ++ it :: l2 ∧ (it ∉ l1) ∧ list_erase it l = l1 ++ l2.
Proof.
  induction l as [|x l IH]; [by intros ?%elem_of_nil|].
  simpl. destruct (Nat.eqb x it) eqn:E.
  - apply Nat.eqb_eq in E as ->. intros _. exists [], l.
    split_and!; [done|apply not_elem_of_nil|done].
  - apply Nat.eqb_neq in E. intros [->|Hin]%elem_of_cons; [done|].
    destruct (IH Hin) as (l1 & l2 & -> & Hnot & ->).
    exists (x :: l1), l2. split_and!; [done| |done].
    intros [->|?]%elem_of_cons; done.
Qed.

Lemma list_erase_absent it l : it ∉ l → list_erase it l = l.
Proof.
  induction l as [|x l IH]; simpl; [done|]. intros Hnot.
  apply not_elem_of_cons in Hnot as [Hne Hnot].
  destruct (Nat.eqb x it) eqn:E.
  - apply Nat.eqb_eq in E. congruence.
  - f_equal. by apply IH.
Qed.

Lemma list_erase_elem it l p : p ∈ list_erase it l → p ∈ l.
Proof.
  induction l as [|x l IH]; simpl; [done|].
  destruct (Nat.eqb x it).
  - apply list_elem_of_further.
  - intros [->|?]%elem_of_cons; [apply list_elem_of_here|].
    apply list_elem_of_further. auto.
Qed.

Lemma list_erase_keeps it l p : p ∈ l → p ≠ it → p ∈ list_erase it l.
Proof.
  induction l as [|x l IH]; simpl; [done|].
  intros [<-|Hin]%elem_of_cons Hne.
  - destruct (Nat.eqb_spec p it); [done|]. apply list_elem_of_here.
  - destruct (Nat.eqb x it); [done|]. apply list_elem_of_further. auto.
Qed.

Lemma list_erase_NoDup it l : NoDup l → NoDup (list_erase it l).
Proof.
  induction 1 as [|x l Hx Hl IH]; simpl; [constructor|].
  destruct (Nat.eqb x it); [done|]. constructor; [|done].
  intros ?%list_erase_elem. done.
Qed.

Lemma list_erase_gone it l : NoDup l → it ∉ list_erase it l.
Proof.
  induction 1 as [|x l Hx Hl IH]; simpl; [apply not_elem_of_nil|].
  destruct (Nat.eqb_spec x it) as [->|Hne]; [done|].
  intros [->|?]%elem_of_cons; done.
Qed.

Lemma sum_quantities_erase pool it l :
  it ∈ l →
  sum_quantities pool (list_erase it l)
  = sum_quantities pool l - quantity (deref pool it).
Proof.
  intros (l1 & l2 & -> & _ & ->)%list_erase_split.
  rewrite !sum_quantities_app. simpl. lia.
Qed.

(** ** Levels under the operations of [PriceLevelData] *)

Lemma level_ok_lt pool buy k lvl p :
  level_ok pool buy k lvl → p ∈ orders lvl → (p < length pool)%nat.
Proof.
  intros Hok Hp. destruct (lvl_nodes _ _ _ _ Hok p Hp) as (o & Ho & _).
  by eapply lookup_lt_Some.
Qed.

Lemma level_ok_ext pool pool' buy k lvl :
  level_ok pool buy k lvl →
  (∀ p, p ∈ orders lvl → pool' !! p = pool !! p) →
  level_ok pool' buy k lvl.
Proof.
  intros [Hne Hnd Htot Hnodes] Hext. split; [done..| |].
  - rewrite Htot. f_equal. symmetry. apply sum_quantities_ext.
    intros p Hp. unfold deref. by rewrite Hext.
  - intros p Hp. rewrite (Hext p Hp). by apply Hnodes.
Qed.

Lemma level_ok_alloc pool o buy k lvl :
  level_ok pool buy k lvl → level_ok (pool ++ [o]) buy k lvl.
Proof.
  intros Hok. apply (level_ok_ext pool); [done|].
  intros p Hp. apply lookup_app_l. by eapply level_ok_lt.
Qed.

Lemma level_ok_add pool o lvl :
  lvl = empty_level ∨ level_ok pool (is_buy o) (price o) lvl →
  level_ok (pool ++ [o]) (is_buy o) (price o)
    (level_add_order (pool ++ [o]) (length pool) lvl).
Proof.
  intros Hlvl. unfold level_add_order. rewrite deref_app_new.
  assert (Hold : ∀ p, p ∈ orders lvl → (p < length pool)%nat).
  { destruct Hlvl as [->|Hok]; [by intros p ?%elem_of_nil|].
    intros p Hp. by eapply level_ok_lt. }
  assert (Hsum : sum_quantities (pool ++ [o]) (orders lvl)
                 = sum_quantities pool (orders lvl)).
  { apply sum_quantities_ext. intros p Hp. apply deref_app_old. auto. }
  split; simpl.
  - by destruct (orders lvl).
  - apply NoDup_app. split_and!.
    + destruct Hlvl as [->|Hok]; [constructor|apply Hok].
    + intros p Hp Hp'. apply list_elem_of_singleton in Hp' as ->.
      specialize (Hold _ Hp). lia.
    + apply NoDup_singleton.
  - rewrite sum_quantities_app, Hsum. simpl. rewrite deref_app_new.
    destruct Hlvl as [->|Hok]; simpl.
    + f_equal. lia.
    + rewrite (lvl_total _ _ _ _ Hok), wrap64_add_l. f_equal. lia.
  - intros p [Hp|Hp]%elem_of_app; [|apply list_elem_of_singleton in Hp as ->].
    + destruct Hlvl as [->|Hok]; [by apply elem_of_nil in Hp|].
      destruct (lvl_nodes _ _ _ _ Hok p Hp) as (o' & Ho' & ?).
      exists o'. split; [|done]. rewrite lookup_app_l; [done|]. auto.
    + exists o. split; [|done]. apply list_lookup_middle. done.
Qed.

Lemma level_ok_remove pool buy k lvl it :
  level_ok pool buy k lvl → it ∈ orders lvl →
  list_erase it (orders lvl) ≠ [] →
  level_ok pool buy k (level_remove_order pool it lvl).
Proof.
  intros [Hne Hnd Htot Hnodes] Hit Hrest. split; simpl.
  - done.
  - by apply list_erase_NoDup.
  - rewrite sum_quantities_erase by done. rewrite Htot. apply wrap64_sub_l.
  - intros p Hp%list_erase_elem. by apply Hnodes.
Qed.

Lemma sum_quantities_set pool it q l :
  NoDup l → it ∈ l → is_Some (pool !! it) →
  sum_quantities (set_quantity pool it q) l
  = sum_quantities pool l - quantity (deref pool it) + q.
Proof.
  intros Hnd Hit [o Ho].
  destruct (list_erase_split it l Hit) as (l1 & l2 & -> & Hnot1 & _).
  apply NoDup_app in Hnd as (_ & Hdisj & Hnd2).
  apply NoDup_cons in Hnd2 as [Hnot2 _].
  rewrite !sum_quantities_app. simpl.
  rewrite (sum_quantities_ext pool _ l1), (sum_quantities_ext pool _ l2).
  - unfold deref at 1. rewrite (set_quantity_lookup_eq _ _ _ _ Ho). simpl. lia.
  - intros p Hp. apply set_quantity_deref_ne. by intros <-.
  - intros p Hp. apply set_quantity_deref_ne. by intros <-.
Qed.

Lemma level_ok_update pool buy k lvl it q :
  level_ok pool buy k lvl → it ∈ orders lvl →
  level_ok (set_quantity pool it q) buy k
    (level_update_quantity (set_quantity pool it q) it
       (quantity (deref pool it)) lvl).
Proof.
  intros [Hne Hnd Htot Hnodes] Hit.
  destruct (Hnodes it Hit) as (o & Ho & Hb & Hp).
  split; simpl; [done..| |].
  - rewrite sum_quantities_set by eauto.
    unfold deref at 2. rewrite (set_quantity_lookup_eq _ _ _ _ Ho). simpl.
    rewrite Htot, wrap64_sub_l, wrap64_add_l. done.
  - intros p Hin. destruct (decide (it = p)) as [<-|Hne'].
    + rewrite (set_quantity_lookup_eq _ _ _ _ Ho). eexists. split; [done|]. done.
    + rewrite set_quantity_lookup_ne by done. by apply Hnodes.
Qed.

Lemma level_ok_set_other pool buy k lvl it q :
  level_ok pool buy k lvl → it ∉ orders lvl →
  level_ok (set_quantity pool it q) buy k lvl.
Proof.
  intros Hok Hnot. apply (level_ok_ext pool); [done|].
  intros p Hp. apply set_quantity_lookup_ne. by intros ->.
Qed.

(** ** The operations, side by side *)

Import SideMapFacts.

#[export] Instance comp_of_strict buy : StrictTotal (comp_of buy).
Proof. destruct buy; apply _. Qed.

Lemma side_sorted b buy :
  sides_sorted b → SideMap.sorted (comp_of buy) (side_of buy b).
Proof. intros [? ?]. by destruct buy. Qed.

Lemma sides_sorted_intro b :
  (∀ buy, SideMap.sorted (comp_of buy) (side_of buy b)) → sides_sorted b.
Proof. intros H. split; [apply (H true)|apply (H false)]. Qed.

Lemma add_order_pool o b : order_pool (add_order o b) = order_pool b ++ [o].
Proof. by destruct o as [? [] ? ? ?]. Qed.

Lemma add_order_lookup o b :
  order_lookup (add_order o b)
  = <[order_id o := mkLoc (price o) (length (order_pool b)) (is_buy o)]>
      (order_lookup b).
Proof. by destruct o as [? [] ? ? ?]. Qed.

Lemma add_order_side o b :
  side_of (is_buy o) (add_order o b)
  = SideMap.at_key (comp_of (is_buy o))
      (level_add_order (order_pool b ++ [o]) (length (order_pool b)))
      (price o) (side_of (is_buy o) b).
Proof. by destruct o as [? [] ? ? ?]. Qed.

Lemma add_order_other_side o b buy :
  buy ≠ is_buy o → side_of buy (add_order o b) = side_of buy b.
Proof. by destruct o as [? [] ? ? ?], buy. Qed.

(** The level found under a key after [add_order]. *)
Lemma add_order_find o b buy k :
  sides_sorted b →
  SideMap.find (comp_of buy) k (side_of buy (add_order o b))
  = if decide (buy = is_buy o ∧ k = price o)
    then Some (level_add_order (order_pool b ++ [o]) (length (order_pool b))
                 (default empty_level
                    (SideMap.find (comp_of buy) k (side_of buy b))))
    else SideMap.find (comp_of buy) k (side_of buy b).
Proof.
  intros Hs. destruct (decide (buy = is_buy o)) as [->|Hb].
  - rewrite add_order_side, find_at_key by (apply _ || by apply side_sorted).
    destruct (decide (price o = k)) as [<-|Hk].
    + by rewrite decide_True.
    + rewrite decide_False; [done|]. intros [_ ?]. congruence.
  - rewrite add_order_other_side by done.
    rewrite decide_False; [done|]. by intros [? _].
Qed.

Theorem add_order_inv o b : book_inv b → book_inv (add_order o b).
Proof.
  intros [Hs Hl Hk]. split.
  - apply sides_sorted_intro. intros buy.
    destruct (decide (buy = is_buy o)) as [->|Hb].
    + rewrite add_order_side. apply sorted_at_key; [apply _|by apply side_sorted].
    + rewrite add_order_other_side by done. by apply side_sorted.
  - intros buy k lvl. rewrite add_order_find, add_order_pool by done.
    case_decide as Hc.
    + destruct Hc as [-> ->]. intros [= <-]. apply level_ok_add.
      destruct (SideMap.find _ _ _) eqn:E; simpl; [right; by apply Hl|by left].
    + intros Hf. apply level_ok_alloc. by apply Hl.
  - intros id loc. rewrite add_order_lookup. unfold loc_ok.
    rewrite add_order_pool.
    destruct (decide (order_id o = id)) as [<-|Hid].
    + rewrite lookup_insert_eq. intros [= <-]. simpl.
      rewrite add_order_find, decide_True by done.
      eexists. split; [done|]. simpl. split.
      * apply elem_of_app. right. apply list_elem_of_here.
      * by rewrite deref_app_new.
    + rewrite lookup_insert_ne by done. intros Hloc.
      destruct (Hk _ _ Hloc) as (lvl & Hf & Hit & Hoid).
      pose proof (level_ok_lt _ _ _ _ _ (Hl _ _ _ Hf) Hit) as Hlt.
      rewrite add_order_find, Hf by done. simpl.
      rewrite deref_app_old by done.
      case_decide; eexists; (split; [done|]); simpl; (split; [|done]).
      * apply elem_of_app. by left.
      * done.
Qed.

Lemma cancel_order_absent id b :
  order_lookup b !! id = None → cancel_order id b = (false, b).
Proof. intros H. unfold cancel_order. by rewrite H. Qed.

Lemma cancel_order_found id b loc lvl :
  order_lookup b !! id = Some loc →
  SideMap.find (comp_of (loc_is_buy loc)) (loc_price loc)
    (side_of (loc_is_buy loc) b) = Some lvl →
  ∃ b', cancel_order id b = (true, b')
    ∧ order_pool b' = order_pool b
    ∧ order_lookup b' = delete id (order_lookup b)
    ∧ side_of (loc_is_buy loc) b'
      = remove_from_side (comp_of (loc_is_buy loc)) (order_pool b) loc lvl
          (side_of (loc_is_buy loc) b)
    ∧ side_of (negb (loc_is_buy loc)) b' = side_of (negb (loc_is_buy loc)) b.
Proof.
  intros Hloc Hf. unfold cancel_order. rewrite Hloc.
  destruct (loc_is_buy loc); simpl in *; rewrite Hf; eexists; done.
Qed.

Lemma find_remove_from_side comp `{!StrictTotal comp} pool loc lvl side k :
  SideMap.sorted comp side →
  SideMap.find comp (loc_price loc) side = Some lvl →
  SideMap.find comp k (remove_from_side comp pool loc lvl side)
  = if decide (loc_price loc = k)
    then match list_erase (loc_it loc) (orders lvl) with
         | [] => None
         | _ :: _ => Some (level_remove_order pool (loc_it loc) lvl)
         end
    else SideMap.find comp k side.
Proof.
  intros Hs Hf. unfold remove_from_side. simpl.
  destruct (list_erase (loc_it loc) (orders lvl)) eqn:E.
  - rewrite (find_erase comp) by done. done.
  - rewrite (find_modify comp). case_decide; [|done]. by rewrite Hf.
Qed.

Lemma sorted_remove_from_side comp `{!StrictTotal comp} pool loc lvl side :
  SideMap.sorted comp side →
  SideMap.sorted comp (remove_from_side comp pool loc lvl side).
Proof.
  intros Hs. unfold remove_from_side.
  destruct (orders _); [by apply sorted_erase|by apply sorted_modify].
Qed.

(** Two locations of different identities designate different nodes. *)
Lemma loc_ok_it_ne b id id' loc loc' :
  loc_ok b id loc → loc_ok b id' loc' → id ≠ id' → loc_it loc ≠ loc_it loc'.
Proof.
  intros (_ & _ & _ & H1) (_ & _ & _ & H2) Hne Heq. rewrite Heq in H1. congruence.
Qed.

Theorem cancel_order_inv id b : book_inv b → book_inv (snd (cancel_order id b)).
Proof.
  intros Hinv. destruct (order_lookup b !! id) as [loc|] eqn:Hloc;
    [|by rewrite cancel_order_absent].
  destruct Hinv as [Hs Hl Hk].
  destruct (Hk _ _ Hloc) as (lvl & Hf & Hit & Hoid).
  destruct (cancel_order_found _ _ _ _ Hloc Hf)
    as (b' & -> & Hpool & Hlook & Hside & Hother). simpl.
  assert (Hfind : ∀ buy k,
    SideMap.find (comp_of buy) k (side_of buy b')
    = if decide (buy = loc_is_buy loc ∧ loc_price loc = k)
      then match list_erase (loc_it loc) (orders lvl) with
           | [] => None
           | _ :: _ => Some (level_remove_order (order_pool b) (loc_it loc) lvl)
           end
      else SideMap.find (comp_of buy) k (side_of buy b)).
  { intros buy k. destruct (decide (buy = loc_is_buy loc)) as [->|Hb].
    - rewrite Hside, find_remove_from_side
        by (apply _ || by apply side_sorted || done).
      destruct (decide (loc_price loc = k)).
      + by rewrite decide_True.
      + rewrite decide_False; [done|]. by intros [_ ?].
    - rewrite decide_False by (by intros [? _]).
      replace buy with (negb (loc_is_buy loc))
        by (by destruct buy, (loc_is_buy loc)).
      by rewrite Hother. }
  split.
  - apply sides_sorted_intro. intros buy.
    destruct (decide (buy = loc_is_buy loc)) as [->|Hb].
    + rewrite Hside. apply sorted_remove_from_side; [apply _|by apply side_sorted].
    + replace buy with (negb (loc_is_buy loc))
        by (by destruct buy, (loc_is_buy loc)).
      rewrite Hother. by apply side_sorted.
  - intros buy k lvl'. rewrite Hfind, Hpool. case_decide as Hc.
    + destruct Hc as [-> <-].
      destruct (list_erase _ _) eqn:E; [done|]. intros [= <-].
      apply level_ok_remove; [by apply Hl|done|]. by rewrite E.
    + apply Hl.
  - intros id' loc'. rewrite Hlook. intros Hloc'.
    apply lookup_delete_Some in Hloc' as [Hne Hloc'].
    pose proof (loc_ok_it_ne _ _ _ _ _ (Hk _ _ Hloc) (Hk _ _ Hloc') Hne) as Hitne.
    destruct (Hk _ _ Hloc') as (lvl' & Hf' & Hit' & Hoid').
    unfold loc_ok. rewrite Hfind, Hpool. case_decide as Hc.
    + destruct Hc as [Hb Hp]. rewrite Hb, <- Hp, Hf in Hf'.
      injection Hf' as <-.
      pose proof (list_erase_keeps (loc_it loc) _ _ Hit' (not_eq_sym Hitne)) as Hin.
      destruct (list_erase _ _) eqn:E; [by apply elem_of_nil in Hin|].
      eexists. split; [done|]. simpl. rewrite E. done.
    + by exists lvl'.
Qed.

Lemma amend_order_unfold id new_price new_quantity b :
  amend_order id new_price new_quantity b
  = match order_lookup b !! id with
    | None => (false, b)
    | Some loc =>
        let o := deref (order_pool b) (loc_it loc) in
        if negb (Z.eqb (price o) new_price) then
          (true, add_order (mkOrder id (is_buy o) new_price new_quantity
                              (timestamp_ns o))
                   (snd (cancel_order id b)))
        else if Z.eqb new_quantity 0
             then cancel_order id (update_in_place loc new_quantity b)
             else (true, update_in_place loc new_quantity b)
    end.
Proof. reflexivity. Qed.

Lemma update_in_place_pool loc q b :
  order_pool (update_in_place loc q b) = set_quantity (order_pool b) (loc_it loc) q.
Proof. unfold update_in_place. by destruct (loc_is_buy loc). Qed.

Lemma update_in_place_lookup loc q b :
  order_lookup (update_in_place loc q b) = order_lookup b.
Proof. unfold update_in_place. by destruct (loc_is_buy loc). Qed.

Lemma update_in_place_other_side loc q b :
  side_of (negb (loc_is_buy loc)) (update_in_place loc q b)
  = side_of (negb (loc_is_buy loc)) b.
Proof. unfold update_in_place. by destruct (loc_is_buy loc). Qed.

Lemma update_in_place_side loc q b :
  side_of (loc_is_buy loc) (update_in_place loc q b)
  = SideMap.at_key (comp_of (loc_is_buy loc))
      (level_update_quantity (set_quantity (order_pool b) (loc_it loc) q)
         (loc_it loc) (quantity (deref (order_pool b) (loc_it loc))))
      (loc_price loc) (side_of (loc_is_buy loc) b).
Proof. unfold update_in_place. by destruct (loc_is_buy loc). Qed.

Lemma update_in_place_find loc q b lvl buy k :
  sides_sorted b →
  SideMap.find (comp_of (loc_is_buy loc)) (loc_price loc)
    (side_of (loc_is_buy loc) b) = Some lvl →
  SideMap.find (comp_of buy) k (side_of buy (update_in_place loc q b))
  = if decide (buy = loc_is_buy loc ∧ loc_price loc = k)
    then Some (level_update_quantity
                 (set_quantity (order_pool b) (loc_it loc) q) (loc_it loc)
                 (quantity (deref (order_pool b) (loc_it loc))) lvl)
    else SideMap.find (comp_of buy) k (side_of buy b).
Proof.
  intros Hs Hf. destruct (decide (buy = loc_is_buy loc)) as [->|Hb].
  - rewrite update_in_place_side, (find_at_key (comp_of (loc_is_buy loc)))
      by (by apply side_sorted).
    destruct (decide (loc_price loc = k)) as [<-|Hk].
    + by rewrite decide_True, Hf.
    + rewrite decide_False; [done|]. by intros [_ ?].
  - rewrite decide_False by (by intros [? _]).
    replace buy with (negb (loc_is_buy loc))
      by (by destruct buy, (loc_is_buy loc)).
    by rewrite update_in_place_other_side.
Qed.

(** A node lies in one level only: its record tells the side and the price. *)
Lemma node_level_unique pool buy k lvl buy' k' lvl' p :
  level_ok pool buy k lvl → level_ok pool buy' k' lvl' →
  p ∈ orders lvl → p ∈ orders lvl' → buy = buy' ∧ k = k'.
Proof.
  intros H1 H2 Hp1 Hp2.
  destruct (lvl_nodes _ _ _ _ H1 p Hp1) as (o & Ho & <- & <-).
  destruct (lvl_nodes _ _ _ _ H2 p Hp2) as (o' & Ho' & <- & <-).
  by simplify_eq.
Qed.

Theorem update_in_place_inv id loc q b :
  book_inv b → order_lookup b !! id = Some loc →
  book_inv (update_in_place loc q b).
Proof.
  intros [Hs Hl Hk] Hloc.
  destruct (Hk _ _ Hloc) as (lvl & Hf & Hit & Hoid).
  pose proof (Hl _ _ _ Hf) as Hok.
  destruct (lvl_nodes _ _ _ _ Hok _ Hit) as (o & Ho & Hob & Hop).
  split.
  - apply sides_sorted_intro. intros buy.
    destruct (decide (buy = loc_is_buy loc)) as [->|Hb].
    + rewrite update_in_place_side.
      apply sorted_at_key; [apply _|by apply side_sorted].
    + replace buy with (negb (loc_is_buy loc))
        by (by destruct buy, (loc_is_buy loc)).
      rewrite update_in_place_other_side. by apply side_sorted.
  - intros buy k lvl'.
    rewrite (update_in_place_find _ _ _ lvl), update_in_place_pool by done.
    case_decide as Hc.
    + destruct Hc as [-> <-]. intros [= <-]. by apply level_ok_update.
    + intros Hf'. apply level_ok_set_other; [by apply Hl|].
      intros Hin. apply Hc.
      destruct (node_level_unique _ _ _ _ _ _ _ _ (Hl _ _ _ Hf') Hok Hin Hit).
      done.
  - intros id' loc'. rewrite update_in_place_lookup. intros Hloc'.
    destruct (Hk _ _ Hloc') as (lvl' & Hf' & Hit' & Hoid').
    unfold loc_ok.
    rewrite (update_in_place_find _ _ _ lvl), update_in_place_pool by done.
    assert (Hid : order_id (deref (set_quantity (order_pool b) (loc_it loc) q)
                              (loc_it loc')) = id').
    { destruct (decide (loc_it loc = loc_it loc')) as [Heq|Hne].
      - rewrite <- Heq in *. unfold deref.
        rewrite (set_quantity_lookup_eq _ _ _ _ Ho). simpl.
        by rewrite <- Hoid', (deref_lookup _ _ _ Ho).
      - by rewrite set_quantity_deref_ne. }
    case_decide as Hc.
    + destruct Hc as [Hb Hp]. rewrite Hb, <- Hp, Hf in Hf'. injection Hf' as <-.
      eexists. split; [done|]. done.
    + by exists lvl'.
Qed.

Theorem amend_order_inv id p q b :
  book_inv b → book_inv (snd (amend_order id p q b)).
Proof.
  intros Hinv. rewrite amend_order_unfold.
  destruct (order_lookup b !! id) as [loc|] eqn:Hloc; [|done]. simpl.
  destruct (negb _); simpl.
  - apply add_order_inv. by apply cancel_order_inv.
  - destruct (Z.eqb q 0).
    + apply cancel_order_inv. by eapply update_in_place_inv.
    + simpl. by eapply update_in_place_inv.
Qed.

Lemma empty_book_inv : book_inv empty_book.
Proof.
  split.
  - by split.
  - by intros [] k lvl.
  - intros id loc. simpl. by rewrite lookup_empty.
Qed.

Theorem step_inv op b : book_inv b → book_inv (step op b).
Proof.
  destruct op; simpl;
    [apply add_order_inv|apply cancel_order_inv|apply amend_order_inv].
Qed.

Lemma run_snoc ops op b : run (ops ++ [op]) b = step op (run ops b).
Proof. unfold run. by rewrite foldl_app. Qed.

Theorem run_inv ops b : book_inv b → book_inv (run ops b).
Proof.
  revert b. induction ops as [|op ops IH]; intros b Hb; [done|].
  simpl. apply IH. by apply step_inv.
Qed.

Theorem reachable_inv b : reachable b → book_inv b.
Proof. intros (ops & _ & ->). apply run_inv, empty_book_inv. Qed.

(** ** Quantities stay within [uint64_t] *)

Lemma cancel_order_pool id b : order_pool (snd (cancel_order id b)) = order_pool b.
Proof.
  unfold cancel_order. destruct (order_lookup b !! id) as [loc|]; [|done].
  destruct (loc_is_buy loc); by destruct (SideMap.find _ _ _).
Qed.

Lemma set_quantity_u64 pool p q :
  is_u64 q → Forall (λ o, is_u64 (quantity o)) pool →
  Forall (λ o, is_u64 (quantity o)) (set_quantity pool p q).
Proof. intros Hq Hpool. unfold set_quantity. by apply Forall_insert. Qed.

Lemma step_pool_u64 op b : op_ok op → pool_u64 b → pool_u64 (step op b).
Proof.
  unfold pool_u64. destruct op as [o|id|id p q]; simpl.
  - intros (_ & Hq & _) Hb. rewrite add_order_pool.
    apply Forall_app. split; [done|by constructor].
  - intros _ Hb. by rewrite cancel_order_pool.
  - intros [_ Hq] Hb. rewrite amend_order_unfold.
    destruct (order_lookup b !! id) as [loc|]; [|done]. simpl.
    destruct (negb _); simpl.
    + rewrite add_order_pool, cancel_order_pool.
      apply Forall_app. split; [done|by constructor].
    + destruct (Z.eqb q 0); simpl;
        rewrite ?cancel_order_pool, update_in_place_pool;
        by apply set_quantity_u64.
Qed.

Lemma run_pool_u64 ops b : Forall op_ok ops → pool_u64 b → pool_u64 (run ops b).
Proof.
  intros Hops. revert b. induction Hops as [|op ops Hop Hops IH]; intros b Hb; [done|].
  simpl. apply IH. by apply step_pool_u64.
Qed.

Lemma reachable_pool_u64 b : reachable b → pool_u64 b.
Proof. intros (ops & Hops & ->). apply run_pool_u64; [done|constructor]. Qed.

Lemma reachable_step op b : op_ok op → reachable b → reachable (step op b).
Proof.
  intros Hop (ops & Hops & ->). exists (ops ++ [op]). split.
  - apply Forall_app. split; [done|by constructor].
  - by rewrite run_snoc.
Qed.

Lemma level_in_book_find k lvl b :
  sides_sorted b → level_in_book k lvl b →
  ∃ buy, SideMap.find (comp_of buy) k (side_of buy b) = Some lvl.
Proof.
  intros [Hb Ha] [Hin|Hin].
  - exists true. by apply (elem_find greater).
  - exists false. by apply (elem_find less).
Qed.

Lemma find_level_in_book buy k lvl b :
  SideMap.find (comp_of buy) k (side_of buy b) = Some lvl → level_in_book k lvl b.
Proof.
  intros Hf. apply (find_Some_elem (comp_of buy)) in Hf.
  destruct buy; [by left|by right].
Qed.

(** * The properties of the specification *)

(** ** C1: the aggregate quantity of a level *)

(** C1, as amended.  In every state reached from the empty book by add,
    cancel and amend calls, the aggregate [total_quantity] of every price level
    present in either side index equals the sum of the quantities of the orders
    in the level's sequence reduced modulo [2^64]; it is that sum itself
    whenever the sum is below [2^64]. *)
Theorem C1_aggregate_is_sum_mod_2_64 (b : OrderBook) (k : Z) (lvl : PriceLevelData) :
  reachable b → level_in_book k lvl b →
  total_quantity lvl = wrap64 (sum_quantities (order_pool b) (orders lvl))
  ∧ (sum_quantities (order_pool b) (orders lvl) < 2 ^ 64 →
     total_quantity lvl = sum_quantities (order_pool b) (orders lvl)).
Proof.
  intros Hr Hin. pose proof (reachable_inv _ Hr) as [Hs Hl Hk].
  destruct (level_in_book_find _ _ _ Hs Hin) as [buy Hf].
  pose proof (Hl _ _ _ Hf) as Hok.
  split; [apply Hok|]. intros Hlt.
  rewrite (lvl_total _ _ _ _ Hok). apply wrap64_small. split; [|done].
  apply sum_quantities_nonneg; [by apply reachable_pool_u64|].
  intros p Hp. destruct (lvl_nodes _ _ _ _ Hok p Hp) as (o & -> & _). by eexists.
Qed.

Lemma overflow_book_reachable : reachable overflow_book.
Proof.
  eexists. split; [|reflexivity].
  repeat constructor; unfold is_u64; simpl; lia.
Qed.

Lemma C1_witness :
  reachable overflow_book
  ∧ level_in_book 100 (mkLevel [0%nat; 1%nat] 0) overflow_book
  ∧ 0 = wrap64 (sum_quantities (order_pool overflow_book) [0%nat; 1%nat])
  ∧ (sum_quantities (order_pool overflow_book) [0%nat; 1%nat] < 2 ^ 64 →
     0 = sum_quantities (order_pool overflow_book) [0%nat; 1%nat]).
Proof.
  assert (Hin : level_in_book 100 (mkLevel [0%nat; 1%nat] 0) overflow_book).
  { left. vm_compute. apply list_elem_of_here. }
  split; [exact overflow_book_reachable|]. split; [exact Hin|].
  exact (C1_aggregate_is_sum_mod_2_64 overflow_book 100 (mkLevel [0%nat; 1%nat] 0)
           overflow_book_reachable Hin).
Defined.

(** C1 as stated fails: after two buy orders of quantity [2^63] at the price
    100 the level holds both orders, whose quantities add up to [2^64], and its
    aggregate is 0. *)
Lemma C1_counterexample :
  reachable overflow_book
  ∧ level_in_book 100 (mkLevel [0%nat; 1%nat] 0) overflow_book
  ∧ total_quantity (mkLevel [0%nat; 1%nat] 0) = 0
  ∧ sum_quantities (order_pool overflow_book) (orders (mkLevel [0%nat; 1%nat] 0))
    = 2 ^ 64
  ∧ ¬ (∀ b k lvl, reachable b → level_in_book k lvl b →
         total_quantity lvl = sum_quantities (order_pool b) (orders lvl)).
Proof.
  assert (Hin : level_in_book 100 (mkLevel [0%nat; 1%nat] 0) overflow_book).
  { left. vm_compute. apply list_elem_of_here. }
  split_and!; [exact overflow_book_reachable|exact Hin|done|done|].
  intros H. specialize (H _ _ _ overflow_book_reachable Hin). vm_compute in H.
  discriminate H.
Qed.

(** ** C2: cancellation *)

Lemma level_count_length buy b : level_count buy b = length (side_of buy b).
Proof. by destruct buy. Qed.

(** What [cancel_order] does to a resting order, level by level. *)
Lemma cancel_order_effect b id loc :
  book_inv b → order_lookup b !! id = Some loc →
  ∃ lvl l1 l2 b',
    SideMap.find (comp_of (loc_is_buy loc)) (loc_price loc)
      (side_of (loc_is_buy loc) b) = Some lvl
    ∧ orders lvl = l1 ++ loc_it loc :: l2
    ∧ cancel_order id b = (true, b')
    ∧ order_lookup b' = delete id (order_lookup b)
    ∧ order_pool b' = order_pool b
    ∧ side_of (negb (loc_is_buy loc)) b' = side_of (negb (loc_is_buy loc)) b
    ∧ (∀ k, k ≠ loc_price loc →
         SideMap.find (comp_of (loc_is_buy loc)) k (side_of (loc_is_buy loc) b')
         = SideMap.find (comp_of (loc_is_buy loc)) k (side_of (loc_is_buy loc) b))
    ∧ (if decide (l1 ++ l2 = [])
       then SideMap.find (comp_of (loc_is_buy loc)) (loc_price loc)
              (side_of (loc_is_buy loc) b') = None
            ∧ S (level_count (loc_is_buy loc) b') = level_count (loc_is_buy loc) b
       else SideMap.find (comp_of (loc_is_buy loc)) (loc_price loc)
              (side_of (loc_is_buy loc) b')
            = Some (mkLevel (l1 ++ l2)
                      (wrap64 (total_quantity lvl
                               - quantity (deref (order_pool b) (loc_it loc)))))
            ∧ level_count (loc_is_buy loc) b' = level_count (loc_is_buy loc) b).
Proof.
  intros [Hs Hl Hk] Hloc.
  destruct (Hk _ _ Hloc) as (lvl & Hf & Hit & Hoid).
  destruct (list_erase_split _ _ Hit) as (l1 & l2 & Hsplit & Hnot & Herase).
  destruct (cancel_order_found _ _ _ _ Hloc Hf)
    as (b' & Hc & Hpool & Hlook & Hside & Hother).
  pose proof (side_sorted b (loc_is_buy loc) Hs) as Hsorted.
  exists lvl, l1, l2, b'. split_and!; [done..| |].
  - intros k Hne. rewrite Hside, find_remove_from_side by (apply _ || done).
    rewrite decide_False; [done|congruence].
  - rewrite !level_count_length, Hside.
    rewrite (find_remove_from_side _ _ _ _ _ _ Hsorted Hf).
    rewrite (decide_True (P := loc_price loc = loc_price loc)) by done.
    unfold remove_from_side. simpl.
    rewrite Herase. case_decide as He.
    + rewrite He. split; [done|]. by eapply (length_erase (comp_of (loc_is_buy loc))).
    + destruct (l1 ++ l2) eqn:E; [done|]. split.
      * unfold level_remove_order. by rewrite Herase.
      * apply (length_modify (comp_of (loc_is_buy loc))).
Qed.

(** C2.  In any state, [cancel_order] on an identity absent from the lookup
    returns [false] and leaves the whole book as it is.  In a state satisfying
    the invariants, [cancel_order] on a resting identity returns [true],
    unlinks exactly the node of that order from the sequence of its level (the
    other nodes keep their order), subtracts its quantity from the aggregate,
    erases the level from its side index when the sequence became empty (the
    level count of the side then drops by one), erases the lookup entry and
    touches nothing else. *)
Theorem C2_cancel_order (b : OrderBook) (id : Z) :
  (order_lookup b !! id = None → cancel_order id b = (false, b))
  ∧ (∀ loc, book_inv b → order_lookup b !! id = Some loc →
     ∃ lvl l1 l2 b',
       SideMap.find (comp_of (loc_is_buy loc)) (loc_price loc)
         (side_of (loc_is_buy loc) b) = Some lvl
       ∧ orders lvl = l1 ++ loc_it loc :: l2
       ∧ cancel_order id b = (true, b')
       ∧ order_lookup b' = delete id (order_lookup b)
       ∧ order_pool b' = order_pool b
       ∧ side_of (negb (loc_is_buy loc)) b' = side_of (negb (loc_is_buy loc)) b
       ∧ (∀ k, k ≠ loc_price loc →
            SideMap.find (comp_of (loc_is_buy loc)) k (side_of (loc_is_buy loc) b')
            = SideMap.find (comp_of (loc_is_buy loc)) k (side_of (loc_is_buy loc) b))
       ∧ (if decide (l1 ++ l2 = [])
          then SideMap.find (comp_of (loc_is_buy loc)) (loc_price loc)
                 (side_of (loc_is_buy loc) b') = None
               ∧ S (level_count (loc_is_buy loc) b')
                 = level_count (loc_is_buy loc) b
          else SideMap.find (comp_of (loc_is_buy loc)) (loc_price loc)
                 (side_of (loc_is_buy loc) b')
               = Some (mkLevel (l1 ++ l2)
                         (wrap64 (total_quantity lvl
                                  - quantity (deref (order_pool b) (loc_it loc)))))
               ∧ level_count (loc_is_buy loc) b'
                 = level_count (loc_is_buy loc) b)).
Proof.
  split; [apply cancel_order_absent|].
  intros loc Hinv Hloc. by apply cancel_order_effect.
Qed.

Lemma book_three_bids_reachable : reachable book_three_bids.
Proof.
  eexists. split; [|reflexivity].
  repeat constructor; unfold is_u64; simpl; lia.
Qed.

Lemma book_two_sided_reachable : reachable book_two_sided.
Proof.
  eexists. split; [|reflexivity].
  repeat constructor; unfold is_u64; simpl; lia.
Qed.

Lemma C2_witness :
  book_inv book_three_bids
  ∧ order_lookup book_three_bids !! 2 = Some (mkLoc 100 1%nat true)
  ∧ cancel_order 999 book_three_bids = (false, book_three_bids)
  ∧ ∃ b', cancel_order 2 book_three_bids = (true, b')
      ∧ order_lookup b' = delete 2 (order_lookup book_three_bids)
      ∧ SideMap.find greater 100 (bids b') = Some (mkLevel [0%nat; 2%nat] 40).
Proof.
  assert (Hinv : book_inv book_three_bids)
    by exact (reachable_inv _ book_three_bids_reachable).
  assert (Hloc : order_lookup book_three_bids !! 2 = Some (mkLoc 100 1%nat true))
    by (vm_compute; reflexivity).
  split; [exact Hinv|]. split; [exact Hloc|]. split.
  - apply (proj1 (C2_cancel_order book_three_bids 999)). vm_compute. reflexivity.
  - destruct (proj2 (C2_cancel_order book_three_bids 2) _ Hinv Hloc)
      as (lvl & l1 & l2 & b' & _ & _ & Hc & Hl & _).
    exists b'. split; [exact Hc|]. split; [exact Hl|].
    vm_compute in Hc. injection Hc as <-. vm_compute. reflexivity.
Defined.

(** ** C5: a level exists exactly while it holds orders *)

Lemma level_orders_nonempty_iff b buy k :
  book_inv b → k ∈ (side_of buy b).*1 ↔ level_orders buy k b ≠ [].
Proof.
  intros [Hs Hl Hk]. unfold level_orders.
  rewrite <- (find_is_Some_keys (comp_of buy)). split.
  - intros [lvl Hf]. rewrite Hf. apply (Hl _ _ _ Hf).
  - destruct (SideMap.find _ _ _); [by eexists|done].
Qed.

(** C5.  In every reachable state a price is a key of a side index if and only
    if the order sequence recorded at that price is not empty.  No operation
    leaves an empty level behind: right after any add, cancel or amend, a price
    whose sequence is empty is not a key.  In particular, cancelling the only
    order of a level removes the price from the side index and the level count
    of that side drops by one. *)
Theorem C5_level_present_iff_nonempty (b : OrderBook) :
  reachable b →
  (∀ buy k, k ∈ (side_of buy b).*1 ↔ level_orders buy k b ≠ [])
  ∧ (∀ op buy k,
       level_orders buy k (step op b) = [] → k ∉ (side_of buy (step op b)).*1)
  ∧ (∀ id loc,
       order_lookup b !! id = Some loc →
       level_orders (loc_is_buy loc) (loc_price loc) b = [loc_it loc] →
       (loc_price loc ∉ (side_of (loc_is_buy loc) (snd (cancel_order id b))).*1)
       ∧ S (level_count (loc_is_buy loc) (snd (cancel_order id b)))
         = level_count (loc_is_buy loc) b).
Proof.
  intros Hr. pose proof (reachable_inv _ Hr) as Hinv. split_and!.
  - intros buy k. by apply level_orders_nonempty_iff.
  - intros op buy k He Hin.
    apply (level_orders_nonempty_iff _ _ _ (step_inv op _ Hinv)) in Hin. done.
  - intros id loc Hloc Hone.
    destruct (cancel_order_effect _ _ _ Hinv Hloc)
      as (lvl & l1 & l2 & b' & Hf & Hsplit & Hc & _ & _ & _ & _ & Hlast).
    rewrite Hc. simpl. unfold level_orders in Hone. rewrite Hf, Hsplit in Hone.
    assert (l1 = [] ∧ l2 = []) as [-> ->].
    { destruct l1 as [|x l1]; simpl in Hone.
      - by injection Hone as ->.
      - injection Hone as _ Hone. by destruct l1. }
    simpl in Hlast. destruct Hlast as [Hnone Hcount]. split; [|done].
    intros Hin. apply (find_is_Some_keys (comp_of (loc_is_buy loc))) in Hin.
    rewrite Hnone in Hin. by destruct Hin.
Qed.

Lemma C5_witness :
  reachable book_two_sided
  ∧ (102 ∈ (bids book_two_sided).*1 ↔ level_orders true 102 book_two_sided ≠ [])
  ∧ ((102 ∉ (bids (snd (cancel_order 2 book_two_sided))).*1)
     ∧ S (get_bid_levels (snd (cancel_order 2 book_two_sided)))
       = get_bid_levels book_two_sided).
Proof.
  pose proof (C5_level_present_iff_nonempty book_two_sided book_two_sided_reachable)
    as (H1 & _ & H3).
  split; [exact book_two_sided_reachable|]. split; [exact (H1 true 102)|].
  apply (H3 2 (mkLoc 102 1%nat true)); vm_compute; reflexivity.
Defined.

(** ** C6: depth snapshots *)

Lemma and_then_unfold (s1 s2 : stmt) h :
  (s1 >>> s2) h
  = match s1 h with
    | (Returned, h1) => s2 h1
    | (Thrown e, h1) => (Thrown e, h1)
    end.
Proof. done. Qed.

Lemma vector_max_size_value : vector_max_size = 2 ^ 59 - 1.
Proof. reflexivity. Qed.

(** [emplace_back] on a vector with spare capacity constructs in place. *)
Lemma emplace_back_room r x h :
  v_size (vectors h r) < v_capacity (vectors h r) →
  vector_emplace_back r x h
  = (Returned,
     mkHeap (<[r := mkVector (v_elems (vectors h r) ++ [x])
                      (v_capacity (vectors h r))]> (vectors h))
            (served h) (grants h)).
Proof.
  intros Hroom. unfold vector_emplace_back.
  destruct (Z.eqb_spec (v_size (vectors h r)) (v_capacity (vectors h r)));
    [lia|done].
Qed.

(** Whenever [emplace_back] returns, the element is last in the vector and
    no other vector has changed. *)
Lemma emplace_back_returned r x h h' :
  vector_emplace_back r x h = (Returned, h') →
  v_elems (vectors h' r) = v_elems (vectors h r) ++ [x]
  ∧ (∀ r', r' ≠ r → vectors h' r' = vectors h r')
  ∧ grants h' = grants h.
Proof.
  unfold vector_emplace_back, and_then, new_array, set_vector, throw.
  destruct (negb _); [|destruct (_ <? 1); [done|destruct (grants h _ _); [|done]]];
    intros [= <-]; simpl; rewrite fn_lookup_insert;
    (split; [done|split; [|done]]); intros r' Hr'; by rewrite fn_lookup_insert_ne.
Qed.

(** The loop on a vector with room for what remains to be emitted: nothing
    is reallocated, and the views of the next [depth - count] levels are
    appended. *)
Lemma snapshot_loop_room side depth count out h :
  0 ≤ count → depth < 2 ^ 64 →
  v_size (vectors h out) + (depth - count) ≤ v_capacity (vectors h out) →
  ∃ h',
    snapshot_loop depth count side out h = (Returned, h')
    ∧ vectors h' out
      = mkVector (v_elems (vectors h out)
                  ++ (level_view <$> take (Z.to_nat (depth - count)) side))
                 (v_capacity (vectors h out))
    ∧ (∀ r, r ≠ out → vectors h' r = vectors h r)
    ∧ served h' = served h ∧ grants h' = grants h.
Proof.
  revert count h. induction side as [|[k lvl] side IH]; intros count h Hc Hd Hroom.
  - exists h. simpl. rewrite take_nil. simpl. rewrite app_nil_r.
    split_and!; try done. by destruct (vectors h out).
  - simpl. destruct (Z.leb_spec depth count) as [Hle|Hlt].
    + exists h. replace (Z.to_nat (depth - count)) with 0%nat by lia.
      simpl. rewrite app_nil_r. split_and!; try done. by destruct (vectors h out).
    + rewrite and_then_unfold, emplace_back_room by lia.
      assert (Hw : wrap64 (count + 1) = count + 1).
      { unfold wrap64. apply Z.mod_small. lia. }
      rewrite Hw.
      set (h1 := mkHeap _ _ _).
      destruct (IH (count + 1) h1) as (h' & Hrun & Hout & Hframe & Hs & Hg).
      * lia.
      * done.
      * subst h1. simpl. rewrite fn_lookup_insert. unfold v_size in *. simpl.
        rewrite length_app. simpl. lia.
      * exists h'. split; [done|]. subst h1. simpl in *.
        rewrite fn_lookup_insert in Hout. simpl in Hout.
        split_and!; try done.
        -- rewrite Hout.
           replace (Z.to_nat (depth - count))
             with (S (Z.to_nat (depth - (count + 1)))) by lia.
           simpl. by rewrite <- app_assoc.
        -- intros r Hr. rewrite (Hframe r Hr). by rewrite fn_lookup_insert_ne.
Qed.

(** Whenever the loop returns, with or without reallocation, the views of
    the next [depth - count] levels have been appended and no other vector has
    changed. *)
Lemma snapshot_loop_returned side depth count out h h' :
  0 ≤ count → depth < 2 ^ 64 →
  snapshot_loop depth count side out h = (Returned, h') →
  v_elems (vectors h' out)
  = v_elems (vectors h out)
    ++ (level_view <$> take (Z.to_nat (depth - count)) side)
  ∧ (∀ r, r ≠ out → vectors h' r = vectors h r)
  ∧ grants h' = grants h.
Proof.
  revert count h. induction side as [|[k lvl] side IH]; intros count h Hc Hd.
  - simpl. intros [= <-]. rewrite take_nil. simpl. by rewrite app_nil_r.
  - simpl. destruct (Z.leb_spec depth count) as [Hle|Hlt].
    + intros [= <-]. replace (Z.to_nat (depth - count)) with 0%nat by lia.
      simpl. by rewrite app_nil_r.
    + rewrite and_then_unfold.
      destruct (vector_emplace_back out _ h) as [[|e] h1] eqn:Hpush; [|done].
      apply emplace_back_returned in Hpush as (Hel & Hfr & Hg).
      assert (Hw : wrap64 (count + 1) = count + 1).
      { unfold wrap64. apply Z.mod_small. lia. }
      rewrite Hw. intros Hrun.
      apply IH in Hrun as (Hel' & Hfr' & Hg'); [|lia|done].
      split_and!.
      * rewrite Hel', Hel.
        replace (Z.to_nat (depth - count))
          with (S (Z.to_nat (depth - (count + 1)))) by lia.
        simpl. by rewrite <- app_assoc.
      * intros r Hr. by rewrite Hfr', Hfr.
      * congruence.
Qed.

(** [reserve]: what it leaves in either outcome, and when it returns. *)
Lemma reserve_cases r n h :
  ∃ o h',
    vector_reserve r n h = (o, h')
    ∧ v_elems (vectors h' r) = v_elems (vectors h r)
    ∧ (∀ r', r' ≠ r → vectors h' r' = vectors h r')
    ∧ grants h' = grants h
    ∧ match o with
      | Returned => n ≤ vector_max_size ∧ n ≤ v_capacity (vectors h' r)
      | Thrown e => e = length_error ↔ vector_max_size < n
      end
    ∧ (n ≤ vector_max_size → (∀ k, grants h k n = true) → o = Returned).
Proof.
  unfold vector_reserve, and_then, new_array, set_vector, throw, skip.
  destruct (Z.ltb_spec vector_max_size n) as [Hbig|Hfit].
  { exists (Thrown length_error), h. split_and!; try done. lia. }
  destruct (Z.ltb_spec (v_capacity (vectors h r)) n) as [Hgrow|Hroom].
  - destruct (grants h (served h) n) eqn:Hg.
    + eexists Returned, _. split; [done|]. simpl. rewrite fn_lookup_insert.
      split_and!; try done. intros r' Hr'. by rewrite fn_lookup_insert_ne.
    + eexists (Thrown bad_alloc), _. split; [done|]. simpl.
      split_and!; try done.
      * split; [done|lia].
      * intros _ Hall. by rewrite Hall in Hg.
  - exists Returned, h. by split_and!.
Qed.

(** A depth beyond [max_size()] is refused by the first [reserve], after
    both vectors were cleared, whatever the book holds. *)
Lemma get_snapshot_too_deep depth b bids_out asks_out h :
  vector_max_size < depth →
  ∃ h',
    get_snapshot depth b bids_out asks_out h = (Thrown length_error, h')
    ∧ v_elems (vectors h' bids_out) = []
    ∧ v_elems (vectors h' asks_out) = []
    ∧ (∀ r, r ≠ bids_out → r ≠ asks_out → vectors h' r = vectors h r).
Proof.
  intros Hbig. unfold get_snapshot. rewrite !and_then_unfold.
  unfold vector_clear, set_vector, vector_reserve, throw. simpl.
  destruct (Z.ltb_spec vector_max_size depth) as [_|?]; [|lia].
  eexists. split; [done|]. simpl. rewrite fn_lookup_insert.
  split_and!; [|done|].
  - destruct (decide (bids_out = asks_out)) as [->|Hne].
    + by rewrite fn_lookup_insert.
    + rewrite fn_lookup_insert_ne, fn_lookup_insert by done. done.
  - intros r H1 H2. by rewrite !fn_lookup_insert_ne.
Qed.

(** [get_snapshot] into two different vectors: after the two [reserve]s the
    loops never reallocate, so the call returns exactly when both [reserve]s
    do, and then each vector holds the views of the first [depth] levels of
    its side. *)
Lemma get_snapshot_distinct depth b bids_out asks_out h :
  0 ≤ depth < 2 ^ 64 → bids_out ≠ asks_out →
  ∃ o h',
    get_snapshot depth b bids_out asks_out h = (o, h')
    ∧ match o with
      | Returned =>
          depth ≤ vector_max_size
          ∧ v_elems (vectors h' bids_out)
            = level_view <$> take (Z.to_nat depth) (bids b)
          ∧ v_elems (vectors h' asks_out)
            = level_view <$> take (Z.to_nat depth) (asks b)
      | Thrown e =>
          v_elems (vectors h' bids_out) = []
          ∧ v_elems (vectors h' asks_out) = []
          ∧ (e = length_error ↔ vector_max_size < depth)
      end
    ∧ (∀ r, r ≠ bids_out → r ≠ asks_out → vectors h' r = vectors h r)
    ∧ (depth ≤ vector_max_size → (∀ k, grants h k depth = true) →
       o = Returned).
Proof.
  intros Hd Hne. unfold get_snapshot. rewrite !and_then_unfold.
  unfold vector_clear, set_vector. simpl.
  set (h0 := mkHeap _ _ _).
  assert (H0b : v_elems (vectors h0 bids_out) = []).
  { subst h0. simpl. by rewrite fn_lookup_insert_ne, fn_lookup_insert. }
  assert (H0a : v_elems (vectors h0 asks_out) = []).
  { subst h0. simpl. by rewrite fn_lookup_insert. }
  assert (H0f : ∀ r, r ≠ bids_out → r ≠ asks_out → vectors h0 r = vectors h r).
  { intros r H1 H2. subst h0. simpl. by rewrite !fn_lookup_insert_ne. }
  assert (H0g : grants h0 = grants h) by done.
  clearbody h0.
  destruct (reserve_cases bids_out depth h0)
    as (o1 & h1 & -> & H1e & H1f & H1g & H1o & H1r).
  destruct o1 as [|e1].
  2:{ exists (Thrown e1), h1. split; [done|]. split_and!.
      - congruence.
      - rewrite H1f by done. done.
      - done.
      - intros r ? ?. rewrite H1f by done. by apply H0f.
      - intros Hfit Hall. apply H1r; [done|]. by rewrite H0g. }
  destruct H1o as [Hfit H1c].
  destruct (reserve_cases asks_out depth h1)
    as (o2 & h2 & -> & H2e & H2f & H2g & H2o & H2r).
  destruct o2 as [|e2].
  2:{ exists (Thrown e2), h2. split; [done|]. split_and!.
      - rewrite H2f by done. congruence.
      - rewrite H2e, (H1f asks_out) by done. done.
      - done.
      - intros r ? ?. rewrite H2f, H1f by done. by apply H0f.
      - intros _ Hall. apply H2r; [done|]. by rewrite H1g, H0g. }
  destruct H2o as [_ H2c].
  assert (H2b : vectors h2 bids_out = vectors h1 bids_out) by by apply H2f.
  destruct (snapshot_loop_room (bids b) depth 0 bids_out h2)
    as (h3 & -> & H3o & H3f & _ & H3g); [lia|lia| |].
  { rewrite H2b. unfold v_size. rewrite H1e, H0b. simpl. lia. }
  assert (H3a : vectors h3 asks_out = vectors h2 asks_out) by by apply H3f.
  destruct (snapshot_loop_room (asks b) depth 0 asks_out h3)
    as (h4 & -> & H4o & H4f & _ & H4g); [lia|lia| |].
  { rewrite H3a. unfold v_size. rewrite H2e, (H1f asks_out), H0a by done.
    simpl. lia. }
  exists Returned, h4. split; [done|]. split_and!; try done.
  - rewrite H4f, H3o by done. simpl. rewrite H2b, H1e, H0b.
    by rewrite Z.sub_0_r.
  - rewrite H4o. simpl. rewrite H3a, H2e, (H1f asks_out), H0a by done.
    by rewrite Z.sub_0_r.
  - intros r ? ?. rewrite H4f, H3f, H2f, H1f by done. by apply H0f.
Qed.








(** ** C7: the result of an amendment *)

Lemma amend_order_absent id p q b :
  order_lookup b !! id = None → amend_order id p q b = (false, b).
Proof. intros H. rewrite amend_order_unfold. by rewrite H. Qed.

Lemma amend_order_present id p q b loc :
  book_inv b → order_lookup b !! id = Some loc →
  fst (amend_order id p q b) = true.
Proof.
  intros Hinv Hloc. rewrite amend_order_unfold, Hloc. simpl.
  destruct (negb _); [done|]. destruct (Z.eqb q 0); [|done].
  pose proof (update_in_place_inv id loc q b Hinv Hloc) as Hinv'.
  assert (Hloc' : order_lookup (update_in_place loc q b) !! id = Some loc)
    by (by rewrite update_in_place_lookup).
  destruct (cancel_order_effect _ _ _ Hinv' Hloc')
    as (lvl & l1 & l2 & b' & _ & _ & -> & _).
  done.
Qed.

(** C7.  In a state satisfying the invariants, [amend_order] returns [true]
    exactly when the identity is in the lookup at the time of the call; when it
    returns [false] the identity was not found and the book is unchanged. *)
Theorem C7_amend_order_result (b : OrderBook) (id new_price new_quantity : Z) :
  book_inv b →
  (fst (amend_order id new_price new_quantity b) = true
   ↔ is_Some (order_lookup b !! id))
  ∧ (fst (amend_order id new_price new_quantity b) = false →
     order_lookup b !! id = None
     ∧ snd (amend_order id new_price new_quantity b) = b).
Proof.
  intros Hinv. destruct (order_lookup b !! id) as [loc|] eqn:Hloc.
  - rewrite (amend_order_present _ _ _ _ _ Hinv Hloc). split; [|done].
    split; [by eexists|done].
  - rewrite (amend_order_absent _ _ _ _ Hloc). simpl. split; [|done].
    split; [done|]. by intros [? ?].
Qed.

Lemma C7_witness :
  book_inv book_three_bids
  ∧ (fst (amend_order 2 101 5 book_three_bids) = true
     ↔ is_Some (order_lookup book_three_bids !! 2))
  ∧ (fst (amend_order 999 100 10 book_three_bids) = false →
     order_lookup book_three_bids !! 999 = None
     ∧ snd (amend_order 999 100 10 book_three_bids) = book_three_bids).
Proof.
  assert (Hinv : book_inv book_three_bids)
    by exact (reachable_inv _ book_three_bids_reachable).
  split; [exact Hinv|]. split.
  - exact (proj1 (C7_amend_order_result book_three_bids 2 101 5 Hinv)).
  - exact (proj2 (C7_amend_order_result book_three_bids 999 100 10 Hinv)).
Defined.

(** ** C3 and C10: an amendment that changes the price *)

(** Where [add_order] puts the new order. *)
Lemma add_order_effect o b :
  sides_sorted b →
  order_lookup (add_order o b) !! order_id o
  = Some (mkLoc (price o) (length (order_pool b)) (is_buy o))
  ∧ order_pool (add_order o b) !! length (order_pool b) = Some o
  ∧ ∃ lvl,
      SideMap.find (comp_of (is_buy o)) (price o) (side_of (is_buy o) (add_order o b))
      = Some lvl
      ∧ orders lvl = level_orders (is_buy o) (price o) b ++ [length (order_pool b)]
      ∧ last (orders lvl) = Some (length (order_pool b)).
Proof.
  intros Hs. split_and!.
  - rewrite add_order_lookup. apply lookup_insert_eq.
  - rewrite add_order_pool. by apply list_lookup_middle.
  - rewrite add_order_find, decide_True by done. eexists. split; [done|].
    simpl. unfold level_orders.
    destruct (SideMap.find _ _ _); simpl; (split; [done|]);
      [apply last_snoc|done].
Qed.

(** The record designated by a location is the order of that identity, on the
    side and at the price that the location states. *)
Lemma loc_ok_record b id loc :
  book_inv b → order_lookup b !! id = Some loc →
  ∃ o, order_pool b !! loc_it loc = Some o
       ∧ order_id o = id ∧ is_buy o = loc_is_buy loc ∧ price o = loc_price loc.
Proof.
  intros [Hs Hl Hk] Hloc. destruct (Hk _ _ Hloc) as (lvl & Hf & Hit & Hoid).
  destruct (lvl_nodes _ _ _ _ (Hl _ _ _ Hf) _ Hit) as (o & Ho & Hb & Hp).
  exists o. rewrite (deref_lookup _ _ _ Ho) in Hoid. done.
Qed.

(** C3.  In a state satisfying the invariants, amending a resting order to a
    price different from its current one returns [true] and yields exactly the
    state obtained by [cancel_order] (which succeeds) followed by [add_order]
    of a new order with the same identity, the same side, the timestamp of the
    original order, the new price and the new quantity.  The new order is the
    last node of the sequence of the level at the new price, and the lookup
    entry of the identity designates it. *)
Theorem C3_amend_price_is_cancel_then_add
    (b : OrderBook) (id new_price new_quantity : Z) (loc : OrderLocation) :
  book_inv b → order_lookup b !! id = Some loc →
  price (deref (order_pool b) (loc_it loc)) ≠ new_price →
  let o := deref (order_pool b) (loc_it loc) in
  let new_order :=
    mkOrder id (loc_is_buy loc) new_price new_quantity (timestamp_ns o) in
  let b' := snd (amend_order id new_price new_quantity b) in
  order_id o = id ∧ is_buy o = loc_is_buy loc ∧ price o = loc_price loc
  ∧ fst (cancel_order id b) = true
  ∧ amend_order id new_price new_quantity b
    = (true, cancel_then_add id (loc_is_buy loc) (timestamp_ns o)
               new_price new_quantity b)
  ∧ ∃ lvl,
      SideMap.find (comp_of (loc_is_buy loc)) new_price (side_of (loc_is_buy loc) b')
      = Some lvl
      ∧ orders lvl
        = level_orders (loc_is_buy loc) new_price (snd (cancel_order id b))
          ++ [length (order_pool b)]
      ∧ last (orders lvl) = Some (length (order_pool b))
      ∧ order_pool b' !! length (order_pool b) = Some new_order
      ∧ order_lookup b' !! id
        = Some (mkLoc new_price (length (order_pool b)) (loc_is_buy loc)).
Proof.
  intros Hinv Hloc Hne o new_order b'.
  destruct (loc_ok_record _ _ _ Hinv Hloc) as (o' & Ho' & Hid & Hb & Hp).
  assert (o = o') as Ho by (by apply deref_lookup).
  destruct (cancel_order_effect _ _ _ Hinv Hloc)
    as (lvl0 & l1 & l2 & b1 & _ & _ & Hc & _ & Hpool & _).
  assert (Ha : amend_order id new_price new_quantity b
               = (true, add_order new_order (snd (cancel_order id b)))).
  { rewrite amend_order_unfold, Hloc. simpl. fold o.
    destruct (Z.eqb_spec (price o) new_price) as [?|_]; [done|]. simpl.
    subst new_order. by rewrite Ho, Hb. }
  split_and!; [by rewrite Ho..|by rewrite Hc|done|].
  subst b'. rewrite Ha, Hc. simpl.
  pose proof (cancel_order_inv id b Hinv) as Hinv1. rewrite Hc in Hinv1. simpl in Hinv1.
  destruct (add_order_effect new_order b1 (inv_sorted _ Hinv1))
    as (Hl & Hn & lvl & Hf & Hord & Hlast).
  rewrite Hpool in *. exists lvl. done.
Qed.

Lemma C3_witness :
  book_inv book_three_bids
  ∧ order_lookup book_three_bids !! 1 = Some (mkLoc 100 0%nat true)
  ∧ price (deref (order_pool book_three_bids) 0%nat) ≠ 101
  ∧ amend_order 1 101 7 book_three_bids
    = (true, cancel_then_add 1 true 1000 101 7 book_three_bids).
Proof.
  assert (Hinv : book_inv book_three_bids)
    by exact (reachable_inv _ book_three_bids_reachable).
  assert (Hloc : order_lookup book_three_bids !! 1 = Some (mkLoc 100 0%nat true))
    by (vm_compute; reflexivity).
  assert (Hne : price (deref (order_pool book_three_bids) 0%nat) ≠ 101)
    by (vm_compute; discriminate).
  split; [exact Hinv|]. split; [exact Hloc|]. split; [exact Hne|].
  exact (proj1 (proj2 (proj2 (proj2 (proj2
    (C3_amend_price_is_cancel_then_add book_three_bids 1 101 7 _ Hinv Hloc Hne)))))).
Defined.

(** C10.  In a state satisfying the invariants, after an amendment that changes
    the price of a resting order, the identity is located on the side it was on
    before: the new lookup entry states that side, the record it designates
    carries it, the node rests in the level at the new price of the index of
    that side, and in no level of the opposite side. *)
Theorem C10_amend_price_keeps_side
    (b : OrderBook) (id new_price new_quantity : Z) (loc : OrderLocation) :
  book_inv b → order_lookup b !! id = Some loc →
  price (deref (order_pool b) (loc_it loc)) ≠ new_price →
  let b' := snd (amend_order id new_price new_quantity b) in
  ∃ loc' lvl,
    order_lookup b' !! id = Some loc'
    ∧ loc_is_buy loc' = loc_is_buy loc
    ∧ loc_price loc' = new_price
    ∧ is_buy (deref (order_pool b') (loc_it loc')) = loc_is_buy loc
    ∧ SideMap.find (comp_of (loc_is_buy loc)) new_price
        (side_of (loc_is_buy loc) b') = Some lvl
    ∧ loc_it loc' ∈ orders lvl
    ∧ (∀ k lvl',
         SideMap.find (comp_of (negb (loc_is_buy loc))) k
           (side_of (negb (loc_is_buy loc)) b') = Some lvl' →
         loc_it loc' ∉ orders lvl').
Proof.
  intros Hinv Hloc Hne b'.
  pose proof (amend_order_inv id new_price new_quantity b Hinv) as Hinv'.
  fold b' in Hinv'. subst b'.
  destruct (loc_ok_record _ _ _ Hinv Hloc) as (o & Ho & Hid & Hb & Hp).
  rewrite (deref_lookup _ _ _ Ho) in Hne.
  rewrite amend_order_unfold, Hloc in Hinv' |- *. simpl in Hinv' |- *.
  rewrite (deref_lookup _ _ _ Ho) in Hinv' |- *.
  destruct (Z.eqb_spec (price o) new_price) as [?|_]; [done|].
  simpl in Hinv' |- *. rewrite Hb in Hinv' |- *.
  set (new_order := mkOrder id (loc_is_buy loc) new_price new_quantity (timestamp_ns o))
    in *.
  pose proof (cancel_order_inv id b Hinv) as Hinv1.
  destruct (add_order_effect new_order _ (inv_sorted _ Hinv1))
    as (Hl & Hn & lvl & Hf & Hord & Hlast).
  simpl in Hl, Hn, Hf, Hord.
  eexists _, lvl. split; [exact Hl|]. simpl.
  rewrite (deref_lookup _ _ _ Hn). simpl.
  assert (Hin : length (order_pool (snd (cancel_order id b))) ∈ orders lvl).
  { rewrite Hord. apply elem_of_app. right. apply list_elem_of_here. }
  split_and!; [done..|].
  intros k lvl' Hf' Hin'.
  destruct (node_level_unique _ _ _ _ _ _ _ _
              (inv_levels _ Hinv' _ _ _ Hf) (inv_levels _ Hinv' _ _ _ Hf') Hin Hin')
    as [Hside _].
  by destruct (loc_is_buy loc).
Qed.

Lemma C10_witness :
  book_inv book_two_sided
  ∧ order_lookup book_two_sided !! 4 = Some (mkLoc 103 3%nat false)
  ∧ price (deref (order_pool book_two_sided) 3%nat) ≠ 99
  ∧ ∃ loc' lvl,
      order_lookup (snd (amend_order 4 99 40 book_two_sided)) !! 4 = Some loc'
      ∧ loc_is_buy loc' = false
      ∧ SideMap.find less 99 (asks (snd (amend_order 4 99 40 book_two_sided)))
        = Some lvl
      ∧ loc_it loc' ∈ orders lvl.
Proof.
  assert (Hinv : book_inv book_two_sided)
    by exact (reachable_inv _ book_two_sided_reachable).
  assert (Hloc : order_lookup book_two_sided !! 4 = Some (mkLoc 103 3%nat false))
    by (vm_compute; reflexivity).
  assert (Hne : price (deref (order_pool book_two_sided) 3%nat) ≠ 99)
    by (vm_compute; discriminate).
  split; [exact Hinv|]. split; [exact Hloc|]. split; [exact Hne|].
  destruct (C10_amend_price_keeps_side book_two_sided 4 99 40 _ Hinv Hloc Hne)
    as (loc' & lvl & H1 & H2 & _ & _ & H5 & H6 & _).
  exists loc', lvl. split; [exact H1|]. split; [exact H2|]. split; [exact H5|exact H6].
Defined.

(** ** C4: an amendment of the quantity only *)

Lemma keys_modify comp f k m : (SideMap.modify comp f k m).*1 = m.*1.
Proof.
  induction m as [|[k' v] m IH]; [done|]. cbn [SideMap.modify].
  destruct (SideMap.equiv_key comp k k'); rewrite !fmap_cons; [done|].
  by rewrite IH.
Qed.

Lemma update_in_place_keys id loc q b buy :
  book_inv b → order_lookup b !! id = Some loc →
  (side_of buy (update_in_place loc q b)).*1 = (side_of buy b).*1.
Proof.
  intros [Hs Hl Hk] Hloc. destruct (Hk _ _ Hloc) as (lvl & Hf & _).
  destruct (decide (buy = loc_is_buy loc)) as [->|Hb].
  - rewrite update_in_place_side.
    rewrite (at_key_found (comp_of (loc_is_buy loc)) _ _ lvl)
      by (by apply side_sorted || done).
    apply keys_modify.
  - replace buy with (negb (loc_is_buy loc))
      by (by destruct buy, (loc_is_buy loc)).
    by rewrite update_in_place_other_side.
Qed.

(** C4.  In a state satisfying the invariants, amending a resting order at its
    current price to a non-zero quantity returns [true] and changes two things
    only: the quantity field of the record of that order, and the aggregate of
    the level that holds it, which becomes [aggregate - old + new] in
    [uint64_t] arithmetic (that very number when it fits 64 bits).  The lookup, every other record of the pool, the
    keys of both side indexes (hence both level counts), the order sequence of
    every level (hence the position of the order in its level) and the
    aggregate of every other level are unchanged. *)
Theorem C4_amend_quantity_in_place
    (b : OrderBook) (id new_price new_quantity : Z) (loc : OrderLocation) :
  book_inv b → order_lookup b !! id = Some loc →
  price (deref (order_pool b) (loc_it loc)) = new_price →
  new_quantity ≠ 0 →
  let o := deref (order_pool b) (loc_it loc) in
  let b' := snd (amend_order id new_price new_quantity b) in
  fst (amend_order id new_price new_quantity b) = true
  ∧ order_lookup b' = order_lookup b
  ∧ order_pool b' !! loc_it loc
    = Some (mkOrder (order_id o) (is_buy o) (price o) new_quantity (timestamp_ns o))
  ∧ length (order_pool b') = length (order_pool b)
  ∧ (∀ p, p ≠ loc_it loc → order_pool b' !! p = order_pool b !! p)
  ∧ (∀ buy, (side_of buy b').*1 = (side_of buy b).*1)
  ∧ (∀ buy, level_count buy b' = level_count buy b)
  ∧ (∀ buy k, level_orders buy k b' = level_orders buy k b)
  ∧ (∀ buy k lvl,
       SideMap.find (comp_of buy) k (side_of buy b) = Some lvl →
       SideMap.find (comp_of buy) k (side_of buy b')
       = Some (mkLevel (orders lvl)
                 (if decide (buy = loc_is_buy loc ∧ loc_price loc = k)
                  then wrap64 (total_quantity lvl - quantity o + new_quantity)
                  else total_quantity lvl)))
  ∧ (∀ lvl,
       SideMap.find (comp_of (loc_is_buy loc)) (loc_price loc)
         (side_of (loc_is_buy loc) b) = Some lvl →
       is_u64 (total_quantity lvl - quantity o + new_quantity) →
       SideMap.find (comp_of (loc_is_buy loc)) (loc_price loc)
         (side_of (loc_is_buy loc) b')
       = Some (mkLevel (orders lvl)
                 (total_quantity lvl - quantity o + new_quantity))).
Proof.
  intros Hinv Hloc Hp Hq o b'.
  destruct (loc_ok_record _ _ _ Hinv Hloc) as (o' & Ho' & Hid & Hb & Hpr).
  assert (o = o') as Ho by (by apply deref_lookup).
  assert (Ha : amend_order id new_price new_quantity b
               = (true, update_in_place loc new_quantity b)).
  { rewrite amend_order_unfold, Hloc. simpl. rewrite Hp, Z.eqb_refl. simpl.
    by destruct (Z.eqb_spec new_quantity 0). }
  subst b'. rewrite Ha. simpl.
  destruct (inv_lookup _ Hinv _ _ Hloc) as (lvl0 & Hf0 & Hit0 & _).
  assert (Hfind : ∀ buy k,
    SideMap.find (comp_of buy) k (side_of buy (update_in_place loc new_quantity b))
    = if decide (buy = loc_is_buy loc ∧ loc_price loc = k)
      then Some (level_update_quantity
                   (set_quantity (order_pool b) (loc_it loc) new_quantity)
                   (loc_it loc) (quantity o) lvl0)
      else SideMap.find (comp_of buy) k (side_of buy b)).
  { intros buy k. apply update_in_place_find; [apply Hinv|done]. }
  assert (Hnew : set_quantity (order_pool b) (loc_it loc) new_quantity !! loc_it loc
                 = Some (mkOrder (order_id o) (is_buy o) (price o) new_quantity
                           (timestamp_ns o))).
  { rewrite Ho. by apply set_quantity_lookup_eq. }
  split_and!.
  - done.
  - apply update_in_place_lookup.
  - by rewrite update_in_place_pool.
  - by rewrite update_in_place_pool, set_quantity_length.
  - intros p Hne. rewrite update_in_place_pool. by apply set_quantity_lookup_ne.
  - intros buy. by eapply update_in_place_keys.
  - intros buy. rewrite !level_count_length.
    rewrite <- (length_fmap fst (side_of buy (update_in_place _ _ _))).
    rewrite (update_in_place_keys id) by done. apply length_fmap.
  - intros buy k. unfold level_orders. rewrite Hfind. case_decide as Hc; [|done].
    destruct Hc as [-> <-]. by rewrite Hf0.
  - intros buy k lvl Hf. rewrite Hfind. case_decide as Hc; [|by destruct lvl].
    destruct Hc as [-> <-]. rewrite Hf0 in Hf. injection Hf as ->.
    unfold level_update_quantity. do 2 f_equal.
    unfold deref at 1. rewrite Hnew. simpl. apply wrap64_add_l.
  - intros lvl Hf Hfit. rewrite Hfind, decide_True by done.
    rewrite Hf0 in Hf. injection Hf as ->.
    unfold level_update_quantity. do 2 f_equal.
    unfold deref at 1. rewrite Hnew. simpl.
    rewrite wrap64_add_l. by apply wrap64_small.
Qed.

Lemma C4_witness :
  book_inv book_three_bids
  ∧ order_lookup book_three_bids !! 2 = Some (mkLoc 100 1%nat true)
  ∧ price (deref (order_pool book_three_bids) 1%nat) = 100
  ∧ 50 ≠ 0
  ∧ fst (amend_order 2 100 50 book_three_bids) = true
  ∧ level_orders true 100 (snd (amend_order 2 100 50 book_three_bids))
    = [0%nat; 1%nat; 2%nat]
  ∧ SideMap.find greater 100 (bids (snd (amend_order 2 100 50 book_three_bids)))
    = Some (mkLevel [0%nat; 1%nat; 2%nat] 90).
Proof.
  assert (Hinv : book_inv book_three_bids)
    by exact (reachable_inv _ book_three_bids_reachable).
  assert (Hloc : order_lookup book_three_bids !! 2 = Some (mkLoc 100 1%nat true))
    by (vm_compute; reflexivity).
  assert (Hp : price (deref (order_pool book_three_bids) 1%nat) = 100)
    by (vm_compute; reflexivity).
  assert (Hq : 50 ≠ 0) by discriminate.
  split; [exact Hinv|]. split; [exact Hloc|]. split; [exact Hp|]. split; [exact Hq|].
  destruct (C4_amend_quantity_in_place book_three_bids 2 100 50 _ Hinv Hloc Hp Hq)
    as (H1 & _ & _ & _ & _ & _ & _ & H8 & H9 & _).
  split; [exact H1|]. split.
  - rewrite (H8 true 100). vm_compute. reflexivity.
  - apply (H9 true 100 (mkLevel [0%nat; 1%nat; 2%nat] 60)). vm_compute. reflexivity.
Defined.

(** ** C9: amending to quantity zero at the same price *)

Lemma sorted_ext comp `{!StrictTotal comp} m1 m2 :
  SideMap.sorted comp m1 → SideMap.sorted comp m2 →
  (∀ k, SideMap.find comp k m1 = SideMap.find comp k m2) → m1 = m2.
Proof.
  revert m2. induction m1 as [|[k1 v1] r1 IH]; intros [|[k2 v2] r2] Hs1 Hs2 Hf.
  - done.
  - specialize (Hf k2). simpl in Hf. by rewrite (equiv_key_refl comp) in Hf.
  - specialize (Hf k1). simpl in Hf. by rewrite (equiv_key_refl comp) in Hf.
  - assert (k1 = k2) as <-.
    { destruct (decide (k1 = k2)) as [|Hne]; [done|]. exfalso.
      pose proof (Hf k1) as H1. pose proof (Hf k2) as H2. simpl in H1, H2.
      rewrite (equiv_key_refl comp) in H1, H2.
      rewrite (equiv_key_ne comp k1 k2) in H1 by done.
      rewrite (equiv_key_ne comp k2 k1) in H2 by done.
      symmetry in H1. apply (find_Some_elem comp) in H1, H2.
      destruct Hs1 as [Ha1 _], Hs2 as [Ha2 _]. rewrite Forall_forall in Ha1, Ha2.
      specialize (Ha1 _ H2). specialize (Ha2 _ H1). simpl in Ha1, Ha2.
      by rewrite (comp_asym comp _ _ Ha1) in Ha2. }
    pose proof (Hf k1) as H1. simpl in H1. rewrite (equiv_key_refl comp) in H1.
    injection H1 as <-. f_equal. apply IH; [apply Hs1|apply Hs2|].
    intros k. destruct (decide (k = k1)) as [->|Hne].
    + destruct (SideMap.find comp k1 r1) eqn:E1.
      { exfalso. apply (sorted_head_notin comp k1 v1 r1 Hs1).
        apply (find_is_Some_keys comp). by eexists. }
      destruct (SideMap.find comp k1 r2) eqn:E2; [|done].
      exfalso. apply (sorted_head_notin comp k1 v1 r2 Hs2).
      apply (find_is_Some_keys comp). by eexists.
    + specialize (Hf k). simpl in Hf.
      by rewrite (equiv_key_ne comp k k1) in Hf.
Qed.

Lemma at_key_ext comp f g k m :
  (∀ v, f v = g v) → SideMap.at_key comp f k m = SideMap.at_key comp g k m.
Proof.
  intros Hfg. induction m as [|[k' v] m IH]; simpl; [by rewrite Hfg|].
  destruct (comp k k'); [by rewrite Hfg|].
  destruct (comp k' k); [by rewrite IH|by rewrite Hfg].
Qed.

Lemma modify_ext comp f g k m :
  (∀ v, f v = g v) → SideMap.modify comp f k m = SideMap.modify comp g k m.
Proof.
  intros Hfg. induction m as [|[k' v] m IH]; simpl; [done|].
  destruct (SideMap.equiv_key comp k k'); [by rewrite Hfg|by rewrite IH].
Qed.

(** The level found under a key after a successful [cancel_order]. *)
Lemma cancel_order_find id b loc lvl :
  sides_sorted b → order_lookup b !! id = Some loc →
  SideMap.find (comp_of (loc_is_buy loc)) (loc_price loc)
    (side_of (loc_is_buy loc) b) = Some lvl →
  ∃ b', cancel_order id b = (true, b')
    ∧ order_pool b' = order_pool b
    ∧ order_lookup b' = delete id (order_lookup b)
    ∧ ∀ buy k,
        SideMap.find (comp_of buy) k (side_of buy b')
        = if decide (buy = loc_is_buy loc ∧ loc_price loc = k)
          then match list_erase (loc_it loc) (orders lvl) with
               | [] => None
               | _ :: _ => Some (level_remove_order (order_pool b) (loc_it loc) lvl)
               end
          else SideMap.find (comp_of buy) k (side_of buy b).
Proof.
  intros Hs Hloc Hf.
  destruct (cancel_order_found _ _ _ _ Hloc Hf)
    as (b' & Hc & Hpool & Hlook & Hside & Hother).
  exists b'. split_and!; [done..|].
  intros buy k. destruct (decide (buy = loc_is_buy loc)) as [->|Hb].
  - rewrite Hside, find_remove_from_side
      by (apply _ || by apply side_sorted || done).
    destruct (decide (loc_price loc = k)).
    + by rewrite decide_True.
    + rewrite decide_False; [done|]. by intros [_ ?].
  - rewrite decide_False by (by intros [? _]).
    replace buy with (negb (loc_is_buy loc))
      by (by destruct buy, (loc_is_buy loc)).
    by rewrite Hother.
Qed.

(** Books with the same levels under every key have the same side indexes. *)
Lemma sides_ext b1 b2 :
  sides_sorted b1 → sides_sorted b2 →
  (∀ buy k, SideMap.find (comp_of buy) k (side_of buy b1)
            = SideMap.find (comp_of buy) k (side_of buy b2)) →
  bids b1 = bids b2 ∧ asks b1 = asks b2.
Proof.
  intros [Hb1 Ha1] [Hb2 Ha2] Hf. split.
  - apply (sorted_ext greater); [done..|]. intros k. apply (Hf true k).
  - apply (sorted_ext less); [done..|]. intros k. apply (Hf false k).
Qed.

(** After [cancel_order] no level holds the node of the removed order. *)
Lemma cancel_order_not_live id b loc :
  book_inv b → order_lookup b !! id = Some loc →
  ¬ live (snd (cancel_order id b)) (loc_it loc).
Proof.
  intros Hinv Hloc. destruct (inv_lookup _ Hinv _ _ Hloc) as (lvl & Hf & Hit & _).
  destruct (cancel_order_find _ _ _ _ (inv_sorted _ Hinv) Hloc Hf)
    as (b' & -> & _ & _ & Hfind).
  simpl. intros (buy & k & lvl' & Hf' & Hin). rewrite Hfind in Hf'.
  case_decide as Hc.
  - destruct (list_erase _ _) eqn:E; [done|]. injection Hf' as <-. simpl in Hin.
    revert Hin. apply list_erase_gone.
    apply (lvl_nodup _ _ _ _ (inv_levels _ Hinv _ _ _ Hf)).
  - apply Hc.
    destruct (node_level_unique _ _ _ _ _ _ _ _
                (inv_levels _ Hinv _ _ _ Hf') (inv_levels _ Hinv _ _ _ Hf) Hin Hit).
    done.
Qed.

(** *** Books that differ in dead records only behave alike *)

Lemma same_book_side b1 b2 buy : same_book b1 b2 → side_of buy b1 = side_of buy b2.
Proof. intros (Hb & Ha & _). by destruct buy. Qed.

Lemma same_book_intro b1 b2 :
  (∀ buy, side_of buy b1 = side_of buy b2) →
  order_lookup b1 = order_lookup b2 →
  length (order_pool b1) = length (order_pool b2) →
  (∀ p, live b1 p → order_pool b1 !! p = order_pool b2 !! p) →
  same_book b1 b2.
Proof. intros Hs ? ? ?. split_and!; [apply (Hs true)|apply (Hs false)|done..]. Qed.

Lemma same_book_refl b : same_book b b.
Proof. by split_and!. Qed.

Lemma loc_live b id loc :
  book_inv b → order_lookup b !! id = Some loc → live b (loc_it loc).
Proof.
  intros Hinv Hloc. destruct (inv_lookup _ Hinv _ _ Hloc) as (lvl & Hf & Hit & _).
  by exists (loc_is_buy loc), (loc_price loc), lvl.
Qed.

Lemma live_lt b p : book_inv b → live b p → (p < length (order_pool b))%nat.
Proof.
  intros Hinv (buy & k & lvl & Hf & Hin).
  eapply level_ok_lt; [by apply (inv_levels _ Hinv _ _ _ Hf)|done].
Qed.

Lemma same_book_add o b1 b2 :
  book_inv b1 → same_book b1 b2 → same_book (add_order o b1) (add_order o b2).
Proof.
  intros Hinv Hsame. pose proof Hsame as (_ & _ & Hlook & Hlen & Hlive).
  apply same_book_intro.
  - intros buy. destruct (decide (buy = is_buy o)) as [->|Hb].
    + rewrite !add_order_side, (same_book_side b1 b2) by done.
      apply at_key_ext. intros v. unfold level_add_order.
      by rewrite Hlen, <- Hlen at 1; rewrite !deref_app_new, Hlen.
    + rewrite !add_order_other_side by done. by apply same_book_side.
  - by rewrite !add_order_lookup, Hlook, Hlen.
  - by rewrite !add_order_pool, !length_app, Hlen.
  - intros p (buy & k & lvl & Hf & Hin). rewrite !add_order_pool.
    rewrite add_order_find in Hf by apply Hinv.
    assert (live b1 p ∨ p = length (order_pool b1)) as [Hp| ->].
    { case_decide as Hc.
      - injection Hf as <-. simpl in Hin.
        apply elem_of_app in Hin as [Hin|Hin].
        + left. destruct (SideMap.find _ _ _) as [lvl0|] eqn:E;
            [|by apply elem_of_nil in Hin].
          by exists buy, k, lvl0.
        + right. by apply list_elem_of_singleton in Hin.
      - left. by exists buy, k, lvl. }
    + pose proof (live_lt _ _ Hinv Hp) as Hlt.
      rewrite !lookup_app_l by lia. by apply Hlive.
    + rewrite list_lookup_middle by done. by rewrite list_lookup_middle.
Qed.

Lemma same_book_cancel id b1 b2 :
  book_inv b1 → same_book b1 b2 →
  fst (cancel_order id b1) = fst (cancel_order id b2)
  ∧ same_book (snd (cancel_order id b1)) (snd (cancel_order id b2)).
Proof.
  intros Hinv Hsame. pose proof Hsame as (_ & _ & Hlook & Hlen & Hlive).
  destruct (order_lookup b1 !! id) as [loc|] eqn:Hloc.
  - pose proof Hloc as Hloc2. rewrite Hlook in Hloc2.
    destruct (inv_lookup _ Hinv _ _ Hloc) as (lvl & Hf & Hit & _).
    pose proof Hf as Hf2. rewrite (same_book_side b1 b2) in Hf2 by done.
    destruct (cancel_order_find _ _ _ _ (inv_sorted _ Hinv) Hloc Hf)
      as (b1' & Hc1 & Hpool1 & Hlook1 & Hfind1).
    destruct (cancel_order_found _ _ _ _ Hloc Hf)
      as (b1'' & Hc1' & _ & _ & Hside1 & Hother1).
    rewrite Hc1 in Hc1'. injection Hc1' as <-.
    destruct (cancel_order_found _ _ _ _ Hloc2 Hf2)
      as (b2' & Hc2 & Hpool2 & Hlook2 & Hside2 & Hother2).
    rewrite Hc1, Hc2. simpl. split; [done|].
    assert (Hd : deref (order_pool b1) (loc_it loc)
                 = deref (order_pool b2) (loc_it loc)).
    { unfold deref. rewrite Hlive; [done|]. by eapply loc_live. }
    apply same_book_intro.
    + intros buy. destruct (decide (buy = loc_is_buy loc)) as [->|Hb].
      * rewrite Hside1, Hside2, (same_book_side b1 b2) by done.
        unfold remove_from_side. simpl.
        destruct (list_erase _ _); [done|].
        apply modify_ext. intros v. unfold level_remove_order. by rewrite Hd.
      * replace buy with (negb (loc_is_buy loc))
          by (by destruct buy, (loc_is_buy loc)).
        rewrite Hother1, Hother2. by apply same_book_side.
    + by rewrite Hlook1, Hlook2, Hlook.
    + by rewrite Hpool1, Hpool2.
    + intros p (buy & k & lvl' & Hf' & Hin). rewrite Hpool1, Hpool2.
      apply Hlive. rewrite Hfind1 in Hf'. case_decide as Hc.
      * destruct (list_erase _ _) eqn:E; [done|]. injection Hf' as <-.
        simpl in Hin. apply list_erase_elem in Hin.
        destruct Hc as [-> <-]. by eexists _, _, lvl.
      * by exists buy, k, lvl'.
  - rewrite (cancel_order_absent _ _ Hloc). rewrite Hlook in Hloc.
    rewrite (cancel_order_absent _ _ Hloc). done.
Qed.

Lemma same_book_update id loc q b1 b2 :
  book_inv b1 → order_lookup b1 !! id = Some loc → same_book b1 b2 →
  same_book (update_in_place loc q b1) (update_in_place loc q b2).
Proof.
  intros Hinv Hloc Hsame. pose proof Hsame as (_ & _ & Hlook & Hlen & Hlive).
  destruct (inv_lookup _ Hinv _ _ Hloc) as (lvl & Hf & Hit & _).
  destruct (loc_ok_record _ _ _ Hinv Hloc) as (o & Ho & _).
  pose proof Ho as Ho2. rewrite Hlive in Ho2 by (by eapply loc_live).
  apply same_book_intro.
  - intros buy. destruct (decide (buy = loc_is_buy loc)) as [->|Hb].
    + rewrite !update_in_place_side, (same_book_side b1 b2) by done.
      apply at_key_ext. intros v. unfold level_update_quantity.
      rewrite (deref_lookup _ _ _ Ho), (deref_lookup _ _ _ Ho2).
      unfold deref.
      by rewrite (set_quantity_lookup_eq _ _ _ _ Ho),
                 (set_quantity_lookup_eq _ _ _ _ Ho2).
    + replace buy with (negb (loc_is_buy loc))
        by (by destruct buy, (loc_is_buy loc)).
      rewrite !update_in_place_other_side. by apply same_book_side.
  - by rewrite !update_in_place_lookup.
  - by rewrite !update_in_place_pool, !set_quantity_length.
  - intros p (buy & k & lvl' & Hf' & Hin). rewrite !update_in_place_pool.
    rewrite (update_in_place_find _ _ _ lvl) in Hf' by (apply Hinv || done).
    assert (live b1 p) as Hp.
    { case_decide as Hc.
      - injection Hf' as <-. simpl in Hin. destruct Hc as [-> <-].
        by eexists _, _, lvl.
      - by exists buy, k, lvl'. }
    destruct (decide (loc_it loc = p)) as [<-|Hne].
    + by rewrite (set_quantity_lookup_eq _ _ _ _ Ho),
                 (set_quantity_lookup_eq _ _ _ _ Ho2).
    + rewrite !set_quantity_lookup_ne by done. by apply Hlive.
Qed.

Lemma same_book_amend id p q b1 b2 :
  book_inv b1 → same_book b1 b2 →
  fst (amend_order id p q b1) = fst (amend_order id p q b2)
  ∧ same_book (snd (amend_order id p q b1)) (snd (amend_order id p q b2)).
Proof.
  intros Hinv Hsame. pose proof Hsame as (_ & _ & Hlook & Hlen & Hlive).
  rewrite !amend_order_unfold, <- Hlook.
  destruct (order_lookup b1 !! id) as [loc|] eqn:Hloc; [|done]. simpl.
  assert (Hd : deref (order_pool b2) (loc_it loc)
               = deref (order_pool b1) (loc_it loc)).
  { unfold deref. rewrite Hlive; [done|]. by eapply loc_live. }
  rewrite Hd. destruct (negb _); simpl.
  - split; [done|]. apply same_book_add; [by apply cancel_order_inv|].
    by apply same_book_cancel.
  - destruct (Z.eqb q 0); simpl.
    + apply same_book_cancel; [by eapply update_in_place_inv|].
      by eapply same_book_update.
    + split; [done|]. by eapply same_book_update.
Qed.

Lemma same_book_step op b1 b2 :
  book_inv b1 → same_book b1 b2 → same_book (step op b1) (step op b2).
Proof.
  intros Hinv Hsame. destruct op; simpl.
  - by apply same_book_add.
  - by apply same_book_cancel.
  - by apply same_book_amend.
Qed.

Theorem same_book_run ops b1 b2 :
  book_inv b1 → same_book b1 b2 → same_book (run ops b1) (run ops b2).
Proof.
  revert b1 b2. induction ops as [|op ops IH]; intros b1 b2 Hinv Hsame; [done|].
  simpl. apply IH; [by apply step_inv|by apply same_book_step].
Qed.

(** Every query answers alike on two such books. *)
Lemma same_book_queries b1 b2 depth bo ao :
  same_book b1 b2 →
  get_snapshot depth b1 bo ao = get_snapshot depth b2 bo ao
  ∧ get_total_orders b1 = get_total_orders b2
  ∧ get_bid_levels b1 = get_bid_levels b2
  ∧ get_ask_levels b1 = get_ask_levels b2.
Proof.
  intros (Hb & Ha & Hl & _).
  unfold get_snapshot, get_total_orders, get_bid_levels, get_ask_levels.
  by rewrite Hb, Ha, Hl.
Qed.

(** C9.  In a state satisfying the invariants, amending a resting order at its
    current price to quantity zero returns what [cancel_order] returns
    ([true]) and leaves the same book: the same bid index, the same ask index
    and the same lookup.  The pool is the one object that records the path
    taken: the record of the removed order, which no level and no lookup entry
    refers to afterwards, holds quantity 0 after the amendment and its old
    quantity after the cancellation.  No later sequence of calls tells the two
    books apart. *)
Theorem C9_amend_to_zero_is_cancel
    (b : OrderBook) (id new_price : Z) (loc : OrderLocation) :
  book_inv b → order_lookup b !! id = Some loc →
  price (deref (order_pool b) (loc_it loc)) = new_price →
  let a := amend_order id new_price 0 b in
  let c := cancel_order id b in
  fst a = fst c
  ∧ fst c = true
  ∧ bids (snd a) = bids (snd c)
  ∧ asks (snd a) = asks (snd c)
  ∧ order_lookup (snd a) = order_lookup (snd c)
  ∧ order_pool (snd c) = order_pool b
  ∧ order_pool (snd a) = set_quantity (order_pool b) (loc_it loc) 0
  ∧ ¬ live (snd c) (loc_it loc)
  ∧ (∀ id' loc', order_lookup (snd c) !! id' = Some loc' → loc_it loc' ≠ loc_it loc)
  ∧ same_book (snd a) (snd c)
  ∧ (∀ ops depth bo ao,
       get_snapshot depth (run ops (snd a)) bo ao
       = get_snapshot depth (run ops (snd c)) bo ao
       ∧ get_total_orders (run ops (snd a)) = get_total_orders (run ops (snd c))
       ∧ get_bid_levels (run ops (snd a)) = get_bid_levels (run ops (snd c))
       ∧ get_ask_levels (run ops (snd a)) = get_ask_levels (run ops (snd c))).
Proof.
  intros Hinv Hloc Hp a c.
  destruct (inv_lookup _ Hinv _ _ Hloc) as (lvl & Hf & Hit & _).
  destruct (loc_ok_record _ _ _ Hinv Hloc) as (o & Ho & _).
  set (b1 := update_in_place loc 0 b).
  assert (Ha : a = cancel_order id b1).
  { subst a. rewrite amend_order_unfold, Hloc. simpl. by rewrite Hp, Z.eqb_refl. }
  pose proof (update_in_place_inv id loc 0 b Hinv Hloc) as Hinv1. fold b1 in Hinv1.
  assert (Hloc1 : order_lookup b1 !! id = Some loc)
    by (subst b1; by rewrite update_in_place_lookup).
  set (pool1 := set_quantity (order_pool b) (loc_it loc) 0).
  set (lvl1 := level_update_quantity pool1 (loc_it loc)
                 (quantity (deref (order_pool b) (loc_it loc))) lvl).
  assert (Hf1 : SideMap.find (comp_of (loc_is_buy loc)) (loc_price loc)
                  (side_of (loc_is_buy loc) b1) = Some lvl1).
  { subst b1. rewrite (update_in_place_find _ _ _ lvl) by (apply Hinv || done).
    by rewrite decide_True. }
  destruct (cancel_order_find _ _ _ _ (inv_sorted _ Hinv) Hloc Hf)
    as (bc & Hc & Hpoolc & Hlookc & Hfindc).
  destruct (cancel_order_find _ _ _ _ (inv_sorted _ Hinv1) Hloc1 Hf1)
    as (ba & Hba & Hpoola & Hlooka & Hfinda).
  pose proof (cancel_order_inv id b Hinv) as Hinvc.
  pose proof (cancel_order_inv id b1 Hinv1) as Hinva.
  pose proof (cancel_order_not_live id b loc Hinv Hloc) as Hdead.
  fold c in Hdead, Hinvc. subst c. rewrite Ha, Hba, Hc in *. simpl in *.
  assert (Hq0 : quantity (deref pool1 (loc_it loc)) = 0).
  { unfold deref, pool1. by rewrite (set_quantity_lookup_eq _ _ _ _ Ho). }
  assert (Hfind : ∀ buy k,
    SideMap.find (comp_of buy) k (side_of buy ba)
    = SideMap.find (comp_of buy) k (side_of buy bc)).
  { intros buy k. rewrite Hfinda, Hfindc. case_decide as Hd.
    - simpl. destruct (list_erase _ _); [done|]. f_equal.
      unfold level_remove_order, lvl1, level_update_quantity. simpl.
      subst b1. rewrite update_in_place_pool. fold pool1. rewrite Hq0.
      f_equal. rewrite Z.add_0_r, Z.sub_0_r.
      unfold wrap64. by rewrite !Zmod_mod.
    - subst b1. rewrite (update_in_place_find _ _ _ lvl) by (apply Hinv || done).
      by rewrite decide_False. }
  destruct (sides_ext ba bc (inv_sorted _ Hinva) (inv_sorted _ Hinvc) Hfind)
    as [Hbids Hasks].
  assert (Hlook : order_lookup ba = order_lookup bc).
  { rewrite Hlooka, Hlookc. subst b1. by rewrite update_in_place_lookup. }
  assert (Hpool : order_pool ba = pool1).
  { rewrite Hpoola. subst b1. by rewrite update_in_place_pool. }
  assert (Hsame : same_book ba bc).
  { split_and!; [done..| |].
    - rewrite Hpool, Hpoolc. apply set_quantity_length.
    - intros p (buy & k & lvl' & Hf' & Hin). rewrite Hpool, Hpoolc.
      apply set_quantity_lookup_ne. intros <-. apply Hdead.
      exists buy, k, lvl'. by rewrite <- Hfind. }
  split_and!; try done.
  - intros id' loc' Hloc' Heq. apply Hdead. rewrite <- Heq.
    by eapply loc_live.
  - intros ops depth bo ao. apply same_book_queries.
    by apply same_book_run.
Qed.

Lemma C9_witness :
  book_inv book_three_bids
  ∧ order_lookup book_three_bids !! 2 = Some (mkLoc 100 1%nat true)
  ∧ price (deref (order_pool book_three_bids) 1%nat) = 100
  ∧ fst (amend_order 2 100 0 book_three_bids) = fst (cancel_order 2 book_three_bids)
  ∧ bids (snd (amend_order 2 100 0 book_three_bids))
    = bids (snd (cancel_order 2 book_three_bids))
  ∧ order_lookup (snd (amend_order 2 100 0 book_three_bids))
    = order_lookup (snd (cancel_order 2 book_three_bids)).
Proof.
  assert (Hinv : book_inv book_three_bids)
    by exact (reachable_inv _ book_three_bids_reachable).
  assert (Hloc : order_lookup book_three_bids !! 2 = Some (mkLoc 100 1%nat true))
    by (vm_compute; reflexivity).
  assert (Hp : price (deref (order_pool book_three_bids) 1%nat) = 100)
    by (vm_compute; reflexivity).
  split; [exact Hinv|]. split; [exact Hloc|]. split; [exact Hp|].
  destruct (C9_amend_to_zero_is_cancel book_three_bids 2 100 _ Hinv Hloc Hp)
    as (H1 & _ & H3 & _ & H5 & _).
  split; [exact H1|]. split; [exact H3|exact H5].
Defined.

(** ** C8: a second add with an identity that is already resting *)

Lemma level_orders_elem p buy k b :
  p ∈ level_orders buy k b ↔
  ∃ lvl, SideMap.find (comp_of buy) k (side_of buy b) = Some lvl ∧ p ∈ orders lvl.
Proof.
  unfold level_orders. destruct (SideMap.find _ _ _) as [lvl|]; split.
  - intros Hp. by exists lvl.
  - by intros (? & [= <-] & ?).
  - by intros ?%elem_of_nil.
  - by intros (? & [=] & _).
Qed.

Lemma orphan_add o' p buy k o b :
  book_inv b → orphan p buy k o b → orphan p buy k o (add_order o' b).
Proof.
  intros Hinv (Hin & Ho & Hloc).
  pose proof (lookup_lt_Some _ _ _ Ho) as Hlt. split_and!.
  - apply level_orders_elem in Hin as (lvl & Hf & Hin).
    apply level_orders_elem. rewrite add_order_find, Hf by apply Hinv.
    case_decide; eexists; (split; [done|]); [|done].
    simpl. apply elem_of_app. by left.
  - rewrite add_order_pool. by rewrite lookup_app_l.
  - intros id loc. rewrite add_order_lookup.
    destruct (decide (order_id o' = id)) as [<-|Hne].
    + rewrite lookup_insert_eq. intros [= <-]. simpl. lia.
    + rewrite lookup_insert_ne by done. apply Hloc.
Qed.

Lemma orphan_cancel id p buy k o b :
  book_inv b → orphan p buy k o b → orphan p buy k o (snd (cancel_order id b)).
Proof.
  intros Hinv (Hin & Ho & Hnone).
  destruct (order_lookup b !! id) as [loc|] eqn:Hloc;
    [|by rewrite cancel_order_absent].
  destruct (inv_lookup _ Hinv _ _ Hloc) as (lvl & Hf & Hit & _).
  destruct (cancel_order_find _ _ _ _ (inv_sorted _ Hinv) Hloc Hf)
    as (b' & -> & Hpool & Hlook & Hfind).
  simpl. split_and!.
  - apply level_orders_elem in Hin as (lvl' & Hf' & Hin).
    apply level_orders_elem. rewrite Hfind. case_decide as Hc.
    + destruct Hc as [-> <-]. rewrite Hf in Hf'. injection Hf' as <-.
      pose proof (list_erase_keeps (loc_it loc) _ _ Hin
                    (not_eq_sym (Hnone _ _ Hloc))) as Hk.
      destruct (list_erase _ _) eqn:E; [by apply elem_of_nil in Hk|].
      eexists. split; [done|]. simpl. by rewrite E.
    + by exists lvl'.
  - by rewrite Hpool.
  - intros id' loc'. rewrite Hlook. intros [_ ?]%lookup_delete_Some. eauto.
Qed.

Lemma orphan_update id loc q p buy k o b :
  book_inv b → order_lookup b !! id = Some loc →
  orphan p buy k o b → orphan p buy k o (update_in_place loc q b).
Proof.
  intros Hinv Hloc (Hin & Ho & Hnone).
  destruct (inv_lookup _ Hinv _ _ Hloc) as (lvl & Hf & Hit & _).
  split_and!.
  - apply level_orders_elem in Hin as (lvl' & Hf' & Hin).
    apply level_orders_elem.
    rewrite (update_in_place_find _ _ _ lvl) by (apply Hinv || done).
    case_decide as Hc.
    + destruct Hc as [-> <-]. rewrite Hf in Hf'. injection Hf' as <-.
      eexists. split; [done|]. done.
    + by exists lvl'.
  - rewrite update_in_place_pool, set_quantity_lookup_ne; [done|]. eauto.
  - intros id' loc'. rewrite update_in_place_lookup. apply Hnone.
Qed.

Lemma orphan_step op p buy k o b :
  book_inv b → orphan p buy k o b → orphan p buy k o (step op b).
Proof.
  intros Hinv Horph. destruct op as [o'|id|id np q]; simpl.
  - by apply orphan_add.
  - by apply orphan_cancel.
  - rewrite amend_order_unfold.
    destruct (order_lookup b !! id) as [loc|] eqn:Hloc; [|done]. simpl.
    destruct (negb _); simpl.
    + apply orphan_add; [by apply cancel_order_inv|by apply orphan_cancel].
    + destruct (Z.eqb q 0); simpl.
      * apply orphan_cancel; [by eapply update_in_place_inv|].
        by eapply orphan_update.
      * by eapply orphan_update.
Qed.

(** An orphan stays where it is, as it is, whatever calls follow. *)
Lemma orphan_run ops p buy k o b :
  book_inv b → orphan p buy k o b → orphan p buy k o (run ops b).
Proof.
  revert b. induction ops as [|op ops IH]; intros b Hinv Horph; [done|].
  simpl. apply IH; [by apply step_inv|by apply orphan_step].
Qed.

Lemma live_in_records b p : live b p → p ∈ resting_records b.
Proof.
  intros (buy & k & lvl & Hf & Hin). apply (find_Some_elem (comp_of buy)) in Hf.
  unfold resting_records. apply elem_of_app.
  assert (∀ m : list (Z * PriceLevelData),
            (k, lvl) ∈ m → p ∈ mjoin ((λ e, orders e.2) <$> m)) as Hm.
  { intros m Hm. apply list_elem_of_join. exists (orders lvl). split; [done|].
    apply list_elem_of_fmap. by exists (k, lvl). }
  destruct buy; [left|right]; by apply Hm.
Qed.

Lemma lookup_nodes_NoDup b :
  book_inv b → NoDup ((λ e, loc_it e.2) <$> map_to_list (order_lookup b)).
Proof.
  intros Hinv. apply NoDup_fmap_2_strong; [|apply NoDup_map_to_list].
  intros [id loc] [id' loc'] Hx%elem_of_map_to_list Hy%elem_of_map_to_list Heq.
  simpl in Heq. destruct (decide (id = id')) as [<-|Hne].
  - rewrite Hx in Hy. by injection Hy as <-.
  - by destruct (loc_ok_it_ne _ _ _ _ _ (inv_lookup _ Hinv _ _ Hx)
                   (inv_lookup _ Hinv _ _ Hy) Hne).
Qed.

(** With an orphan in the book, the levels hold more order records than the
    lookup holds identities. *)
Lemma orphan_more_records p buy k o b :
  book_inv b → orphan p buy k o b →
  (get_total_orders b < length (resting_records b))%nat.
Proof.
  intros Hinv (Hin & _ & Hnone). unfold get_total_orders.
  rewrite <- length_map_to_list.
  rewrite <- (length_fmap (λ e, loc_it e.2) (map_to_list (order_lookup b))).
  change (length (p :: ((λ e, loc_it e.2) <$> map_to_list (order_lookup b)))
          ≤ length (resting_records b))%nat.
  apply submseteq_length, NoDup_submseteq.
  - constructor; [|by apply lookup_nodes_NoDup].
    intros ([id loc] & -> & Hx%elem_of_map_to_list)%list_elem_of_fmap.
    by apply (Hnone _ _ Hx).
  - intros x [->|Hx]%elem_of_cons.
    + apply live_in_records. apply level_orders_elem in Hin as (lvl & ? & ?).
      by exists buy, k, lvl.
    + apply list_elem_of_fmap in Hx as ([id loc] & -> & Hx%elem_of_map_to_list).
      apply live_in_records. by eapply loc_live.
Qed.

Lemma lookup_size_pos id loc (m : gmap Z OrderLocation) :
  m !! id = Some loc → (0 < size m)%nat.
Proof.
  intros Hm. destruct (size m) eqn:E; [|lia].
  apply map_size_empty_inv in E. subst. by rewrite lookup_empty in Hm.
Qed.

Lemma current_price_Some id b loc :
  order_lookup b !! id = Some loc →
  current_price id b = Some (price (deref (order_pool b) (loc_it loc))).
Proof. intros H. unfold current_price. by rewrite H. Qed.

(** How each call moves [get_total_orders], against the counters. *)
Lemma tally_step_balance op b t :
  book_inv b →
  Z.of_nat (get_total_orders (step op b))
  - tally_balance (tally_step zero_amend_same_price op b t)
  = Z.of_nat (get_total_orders b) - tally_balance t.
Proof.
  intros Hinv. unfold get_total_orders, tally_balance.
  destruct op as [o|id|id p q]; simpl.
  - rewrite add_order_lookup, map_size_insert.
    destruct (order_lookup b !! order_id o) as [loc|] eqn:Hloc.
    + rewrite bool_decide_true by (by eexists). simpl. lia.
    + rewrite bool_decide_false by (by intros [? ?]). simpl. lia.
  - destruct (order_lookup b !! id) as [loc|] eqn:Hloc.
    + destruct (cancel_order_effect _ _ _ Hinv Hloc)
        as (lvl & l1 & l2 & b' & _ & _ & -> & Hl & _).
      simpl. rewrite Hl, map_size_delete, Hloc.
      pose proof (lookup_size_pos _ _ _ Hloc). lia.
    + rewrite (cancel_order_absent _ _ Hloc). simpl. lia.
  - unfold zero_amend_same_price. rewrite amend_order_unfold.
    destruct (order_lookup b !! id) as [loc|] eqn:Hloc; [|simpl; lia].
    rewrite (current_price_Some _ _ _ Hloc). simpl.
    pose proof (lookup_size_pos _ _ _ Hloc) as Hpos.
    destruct (Z.eqb_spec (price (deref (order_pool b) (loc_it loc))) p) as [Hp|Hp];
      simpl.
    + pose proof (update_in_place_inv id loc q b Hinv Hloc) as Hinv'.
      assert (Hloc' : order_lookup (update_in_place loc q b) !! id = Some loc)
        by (by rewrite update_in_place_lookup).
      destruct (Z.eqb q 0); simpl.
      * destruct (cancel_order_effect _ _ _ Hinv' Hloc')
          as (lvl & l1 & l2 & b' & _ & _ & -> & Hl & _).
        simpl. rewrite bool_decide_true by congruence.
        rewrite Hl, update_in_place_lookup, map_size_delete, Hloc. lia.
      * rewrite update_in_place_lookup. lia.
    + rewrite bool_decide_false by congruence. rewrite andb_false_r.
      rewrite add_order_lookup. simpl.
      destruct (cancel_order_effect _ _ _ Hinv Hloc)
        as (lvl & l1 & l2 & b' & _ & _ & -> & Hl & _).
      cbn [snd]. rewrite Hl, insert_delete_eq, map_size_insert, Hloc.
      unfold Datatypes.id. lia.
Qed.

Lemma tally_run_balance ops b t :
  book_inv b →
  Z.of_nat (get_total_orders (run ops b))
  - tally_balance (tally zero_amend_same_price ops b t)
  = Z.of_nat (get_total_orders b) - tally_balance t.
Proof.
  revert b t. induction ops as [|op ops IH]; intros b t Hinv; [done|].
  simpl. rewrite IH by (by apply step_inv). by apply tally_step_balance.
Qed.

Lemma add_order_keeps_node o p buy k b :
  sides_sorted b → p ∈ level_orders buy k b →
  p ∈ level_orders buy k (add_order o b).
Proof.
  intros Hs (lvl & Hf & Hin)%level_orders_elem.
  apply level_orders_elem. rewrite add_order_find, Hf by done.
  case_decide; eexists; (split; [done|]); [|done].
  simpl. apply elem_of_app. by left.
Qed.

(** C8, as amended.  [add_order] checks nothing: when the identity of the new
    order is already in the lookup, the new order is appended to the sequence
    of the level at its price on its side, and the lookup entry of the identity
    is overwritten and designates the new node.  The earlier order stays in its
    level, counted in the aggregate of that level, and no lookup entry
    designates it: whatever calls follow, it stays in that level with an
    unchanged record.  [get_total_orders] is the number of identities in the
    lookup; it does not grow with such an add and is then smaller than the
    number of order records that occupy levels.  Along any sequence of calls
    from the empty book it equals adds, minus successful cancels, minus
    successful zero-quantity amends at an unchanged price, minus adds that
    overwrote an identity (an amendment that changes the price keeps the
    identity in the lookup whatever the new quantity). *)
Theorem C8_duplicate_add_and_total_orders
    (b : OrderBook) (o : Order) (loc0 : OrderLocation) :
  book_inv b → order_lookup b !! order_id o = Some loc0 →
  let b' := add_order o b in
  let new := length (order_pool b) in
  let p0 := loc_it loc0 in
  level_orders (is_buy o) (price o) b'
  = level_orders (is_buy o) (price o) b ++ [new]
  ∧ order_pool b' !! new = Some o
  ∧ order_lookup b'
    = <[order_id o := mkLoc (price o) new (is_buy o)]> (order_lookup b)
  ∧ order_lookup b' !! order_id o = Some (mkLoc (price o) new (is_buy o))
  ∧ new ≠ p0
  ∧ (∃ lvl,
       SideMap.find (comp_of (loc_is_buy loc0)) (loc_price loc0)
         (side_of (loc_is_buy loc0) b') = Some lvl
       ∧ p0 ∈ orders lvl
       ∧ total_quantity lvl = wrap64 (sum_quantities (order_pool b') (orders lvl)))
  ∧ order_pool b' !! p0 = order_pool b !! p0
  ∧ (∀ ops,
       p0 ∈ level_orders (loc_is_buy loc0) (loc_price loc0) (run ops b')
       ∧ order_pool (run ops b') !! p0 = order_pool b !! p0
       ∧ ∀ id loc, order_lookup (run ops b') !! id = Some loc → loc_it loc ≠ p0)
  ∧ get_total_orders b' = get_total_orders b
  ∧ (∀ s : OrderBook, get_total_orders s = size (dom (order_lookup s)))
  ∧ (get_total_orders b' < length (resting_records b'))%nat
  ∧ (∀ ops,
       Z.of_nat (get_total_orders (run ops empty_book))
       = tally_balance
           (tally zero_amend_same_price ops empty_book (mkTally 0 0 0 0))).
Proof.
  intros Hinv Hloc0 b' new p0.
  pose proof (add_order_inv o b Hinv) as Hinv'. fold b' in Hinv'.
  destruct (inv_lookup _ Hinv _ _ Hloc0) as (lvl0 & Hf0 & Hit0 & Hid0).
  destruct (loc_ok_record _ _ _ Hinv Hloc0) as (o0 & Ho0 & _).
  pose proof (lookup_lt_Some _ _ _ Ho0) as Hlt.
  destruct (add_order_effect o b (inv_sorted _ Hinv))
    as (Hl & Hn & lvl & Hf & Hord & _).
  assert (Hin0 : p0 ∈ level_orders (loc_is_buy loc0) (loc_price loc0) b').
  { apply add_order_keeps_node; [apply Hinv|].
    apply level_orders_elem. by exists lvl0. }
  assert (Hpool0 : order_pool b' !! p0 = order_pool b !! p0).
  { subst b'. rewrite add_order_pool. by apply lookup_app_l. }
  assert (Horph : orphan p0 (loc_is_buy loc0) (loc_price loc0) o0 b').
  { split_and!; [done|by rewrite Hpool0|].
    intros id loc. subst b'. rewrite add_order_lookup.
    destruct (decide (order_id o = id)) as [<-|Hne].
    - rewrite lookup_insert_eq. intros [= <-]. simpl. subst p0. lia.
    - rewrite lookup_insert_ne by done. intros Hloc.
      by apply (loc_ok_it_ne b id (order_id o) loc loc0);
        [apply Hinv|apply Hinv|]. }
  split_and!.
  - unfold level_orders at 1. unfold b'. by rewrite Hf.
  - done.
  - apply add_order_lookup.
  - done.
  - subst new p0. lia.
  - apply level_orders_elem in Hin0 as (lvl' & Hf' & Hin').
    exists lvl'. split_and!; [done..|].
    apply (lvl_total _ _ _ _ (inv_levels _ Hinv' _ _ _ Hf')).
  - done.
  - intros ops.
    destruct (orphan_run ops _ _ _ _ _ Hinv' Horph) as (H1 & H2 & H3).
    split_and!; [done| |done]. by rewrite H2.
  - unfold get_total_orders. subst b'. rewrite add_order_lookup.
    apply map_size_insert_Some. by eexists.
  - intros s. unfold get_total_orders. by rewrite size_dom.
  - by eapply orphan_more_records.
  - intros ops.
    pose proof (tally_run_balance ops empty_book (mkTally 0 0 0 0) empty_book_inv)
      as H.
    change (tally_balance (mkTally 0 0 0 0)) with 0 in H.
    change (get_total_orders empty_book) with 0%nat in H. lia.
Qed.

Lemma book_one_bid_reachable : reachable book_one_bid.
Proof.
  eexists. split; [|reflexivity].
  repeat constructor; unfold is_u64; simpl; lia.
Qed.

Lemma C8_witness :
  book_inv book_one_bid
  ∧ order_lookup book_one_bid !! 1 = Some (mkLoc 100 0%nat true)
  ∧ level_orders true 100 (add_order (mkOrder 1 true 100 20 2000) book_one_bid)
    = [0%nat; 1%nat]
  ∧ order_lookup (add_order (mkOrder 1 true 100 20 2000) book_one_bid) !! 1
    = Some (mkLoc 100 1%nat true)
  ∧ (get_total_orders (add_order (mkOrder 1 true 100 20 2000) book_one_bid)
     < length (resting_records (add_order (mkOrder 1 true 100 20 2000) book_one_bid)))%nat.
Proof.
  assert (Hinv : book_inv book_one_bid)
    by exact (reachable_inv _ book_one_bid_reachable).
  assert (Hloc : order_lookup book_one_bid !! 1 = Some (mkLoc 100 0%nat true))
    by (vm_compute; reflexivity).
  split; [exact Hinv|]. split; [exact Hloc|].
  destruct (C8_duplicate_add_and_total_orders book_one_bid
              (mkOrder 1 true 100 20 2000) _ Hinv Hloc)
    as (H1 & _ & _ & H4 & _ & _ & _ & _ & _ & _ & H11 & _).
  split; [exact H1|]. split; [exact H4|exact H11].
Defined.

(** C8 as stated fails on its count: an add followed by an amendment to
    another price with quantity zero, which succeeds, leaves the identity in
    the lookup (the order rests with quantity 0), so the total is 1 while adds
    minus successful cancels minus zero-quantity amends minus overwritten
    duplicates is 0. *)
Lemma C8_counterexample :
  Forall op_ok zero_reprice_calls
  ∧ amend_order 1 101 0 book_one_bid
    = (true, run zero_reprice_calls empty_book)
  ∧ tally zero_amend_any_price zero_reprice_calls empty_book (mkTally 0 0 0 0)
    = mkTally 1 0 1 0
  ∧ get_total_orders (run zero_reprice_calls empty_book) = 1%nat
  ∧ SideMap.find greater 101 (bids (run zero_reprice_calls empty_book))
    = Some (mkLevel [1%nat] 0)
  ∧ Z.of_nat (get_total_orders (run zero_reprice_calls empty_book))
    ≠ tally_balance
        (tally zero_amend_any_price zero_reprice_calls empty_book (mkTally 0 0 0 0)).
Proof.
  split_and!.
  - repeat constructor; unfold is_u64; simpl; lia.
  - vm_compute. reflexivity.
  - vm_compute. reflexivity.
  - vm_compute. reflexivity.
  - vm_compute. reflexivity.
  - vm_compute. discriminate.
Qed.

(** * The scenarios of the test suite, run on the model *)

Example test_add_multiple_orders_same_price :
  get_total_orders book_three_bids = 3%nat
  ∧ get_bid_levels book_three_bids = 1%nat
  ∧ snapshot_of 5 book_three_bids = (Returned, ([mkPriceLevel 100 60], [])).
Proof. vm_compute. done. Qed.

Example test_fifo_ordering :
  snapshot_of 5 (run [Cancel 1] book_three_bids)
  = (Returned, ([mkPriceLevel 100 50], []))
  ∧ snapshot_of 5 (run [Cancel 1; Cancel 2] book_three_bids)
    = (Returned, ([mkPriceLevel 100 30], []))
  ∧ level_orders true 100 (run [Cancel 2] book_three_bids) = [0%nat; 2%nat].
Proof. vm_compute. done. Qed.

Example test_cancel_removes_price_level :
  get_bid_levels book_one_bid = 1%nat
  ∧ cancel_order 1 book_one_bid = (true, mkBook [] [] ∅ [mkOrder 1 true 100 10 1000])
  ∧ cancel_order 999 book_one_bid = (false, book_one_bid).
Proof. vm_compute. done. Qed.

Example test_amend_order_quantity :
  fst (amend_order 1 100 50 book_one_bid) = true
  ∧ snapshot_of 5 (snd (amend_order 1 100 50 book_one_bid))
    = (Returned, ([mkPriceLevel 100 50], []))
  ∧ get_bid_levels (snd (amend_order 1 100 50 book_one_bid)) = 1%nat.
Proof. vm_compute. done. Qed.

Example test_amend_order_price :
  fst (amend_order 1 101 10 book_one_bid) = true
  ∧ snapshot_of 5 (snd (amend_order 1 101 10 book_one_bid))
    = (Returned, ([mkPriceLevel 101 10], []))
  ∧ get_bid_levels (snd (amend_order 1 101 10 book_one_bid)) = 1%nat.
Proof. vm_compute. done. Qed.

Example test_amend_non_existent_order :
  amend_order 999 100 10 empty_book = (false, empty_book).
Proof. vm_compute. done. Qed.

Example test_snapshot_ordering :
  snapshot_of 5 book_two_sided
  = (Returned,
     ([mkPriceLevel 102 20; mkPriceLevel 101 30; mkPriceLevel 100 10],
      [mkPriceLevel 103 40; mkPriceLevel 104 60; mkPriceLevel 105 50])).
Proof. vm_compute. done. Qed.

Example test_snapshot_depth_limit :
  let b := run ((λ i, Add (mkOrder i true (100 + i) 10 (1000 + i)))
                  <$> [0; 1; 2; 3; 4; 5; 6; 7; 8; 9]) empty_book in
  fst (snapshot_of 5 b) = Returned
  ∧ length (snapshot_of 5 b).2.1 = 5%nat
  ∧ length (snapshot_of 5 b).2.2 = 0%nat
  ∧ pl_price <$> (snapshot_of 5 b).2.1 = [109; 108; 107; 106; 105].
Proof. vm_compute. done. Qed.

(** * The memory pool *)

Section BlockPoolFacts.
Import BlockPool.
Context {T : Type}.
Variables BlockSize sizeof_T : Z.
Hypothesis Hsz : 0 < sizeof_T ≤ BlockSize.
Hypothesis Hfit : BlockSize + sizeof_T < 2 ^ 64.

Local Abbreviation per := (per_block BlockSize sizeof_T).
Local Abbreviation Pool := (@Pool T).

Lemma per_block_le (k : nat) :
  (k ≤ per)%nat ↔ Z.of_nat k * sizeof_T ≤ BlockSize.
Proof.
  unfold per_block. split.
  - intros Hk. assert (Z.of_nat k ≤ BlockSize / sizeof_T) as Hle.
    { assert (0 ≤ BlockSize / sizeof_T) by (apply Z.div_pos; lia). lia. }
    pose proof (Z.mul_div_le BlockSize sizeof_T ltac:(lia)). nia.
  - intros Hk. assert (Z.of_nat k ≤ BlockSize / sizeof_T); [|lia].
    apply Z.div_le_lower_bound; lia.
Qed.

Lemma per_block_pos : (1 ≤ per)%nat.
Proof. apply per_block_le. lia. Qed.

Lemma bump_exact (off : Z) :
  0 ≤ off ≤ BlockSize → wrap64 (off + sizeof_T) = off + sizeof_T.
Proof. intros H. apply wrap64_small. unfold is_u64. lia. Qed.

Lemma wf_create : wf BlockSize (create : Pool).
Proof. exists 0%nat. simpl. split_and!; [done|lia|lia|lia]. Qed.

Lemma wf_allocate_block (p : Pool) : wf BlockSize (allocate_block p).
Proof.
  exists (length (all_blocks p)). simpl. split_and!; [done| |lia|lia].
  destruct (current_block p); rewrite ?length_alter, length_app; simpl; lia.
Qed.

Lemma wf_reset (p : Pool) : wf BlockSize p → wf BlockSize (reset p).
Proof.
  intros (c & Hc & Hlt & Hoff). exists 0%nat. unfold reset. simpl.
  destruct (all_blocks p); simpl in *; [lia|]. split_and!; [done|lia|lia|lia].
Qed.

(** What one [allocate] does to a well-formed pool. *)
Lemma allocate_wf (v : T) (p : Pool) :
  wf BlockSize p →
  ∃ c off p',
    allocate BlockSize sizeof_T v p = Some ((c, off), p')
    ∧ (c < length (all_blocks p'))%nat
    ∧ 0 ≤ off ∧ off + sizeof_T ≤ BlockSize
    ∧ wf BlockSize p'
    ∧ read p' (c, off) = Some v
    ∧ (∀ a, a ≠ (c, off) → read p' a = read p a)
    ∧ (length (all_blocks p) ≤ length (all_blocks p'))%nat.
Proof.
  intros (c & Hc & Hlt & Hoff). unfold allocate.
  rewrite (bump_exact _ Hoff).
  destruct (Z.ltb_spec BlockSize (offset p + sizeof_T)) as [Hfull|Hroom].
  - set (n := length (all_blocks p)). set (p1 := allocate_block p).
    assert (Hcur : current_block p1 = Some n) by done.
    assert (Hoff1 : offset p1 = 0) by done.
    assert (Hlen : length (all_blocks p1) = S n).
    { unfold p1. simpl. rewrite Hc, length_alter, length_app. simpl. lia. }
    assert (Hnew : all_blocks p1 !! n = Some (mkBlock ∅ None)).
    { unfold p1. simpl. rewrite Hc, list_lookup_alter_ne by (unfold n; lia).
      by apply list_lookup_middle. }
    assert (Hold : ∀ i, i ≠ n →
              data <$> all_blocks p1 !! i = data <$> all_blocks p !! i).
    { intros i Hi. unfold p1. simpl. rewrite Hc.
      destruct (decide (i < n)%nat) as [Hin|Hin].
      - destruct (decide (c = i)) as [->|Hci].
        + rewrite list_lookup_alter_eq, lookup_app_l by done.
          by destruct (all_blocks p !! i).
        + by rewrite list_lookup_alter_ne, lookup_app_l by done.
      - rewrite list_lookup_alter_ne by lia.
        rewrite !lookup_ge_None_2; [done|unfold n in *; lia|].
        rewrite length_app. simpl. unfold n in *. lia. }
    clearbody p1. rewrite Hcur, Hoff1.
    eexists n, 0, _. split; [reflexivity|]. simpl.
    unfold construct_at. rewrite !length_alter, Hlen.
    split_and!; [lia|lia|lia| | | |unfold n; lia].
    + exists n. simpl. rewrite length_alter, Hlen, bump_exact by lia.
      split_and!; [done|lia|lia|lia].
    + unfold read. simpl. rewrite list_lookup_alter_eq, Hnew. simpl.
      apply lookup_insert_eq.
    + intros [i o] Hne. unfold read. simpl.
      destruct (decide (i = n)) as [->|Hi].
      * rewrite list_lookup_alter_eq, Hnew. simpl.
        rewrite lookup_insert_ne by congruence.
        rewrite lookup_empty, lookup_ge_None_2; [done|unfold n; lia].
      * rewrite list_lookup_alter_ne by done.
        specialize (Hold i Hi).
        destruct (all_blocks p1 !! i) as [b1|], (all_blocks p !! i) as [b2|];
          simpl in *; [|done..]. injection Hold as Hd. by rewrite Hd.
  - rewrite Hc. eexists c, (offset p), _. split; [reflexivity|]. simpl.
    unfold construct_at. rewrite !length_alter.
    destruct (lookup_lt_is_Some_2 _ _ Hlt) as [blk Hblk].
    split_and!; [done|lia|lia| | | |done].
    + exists c. simpl. rewrite length_alter, bump_exact by done.
      split_and!; [done|done|lia|lia].
    + unfold read. simpl. rewrite list_lookup_alter_eq, Hblk. simpl.
      apply lookup_insert_eq.
    + intros [i o] Hne. unfold read. simpl.
      destruct (decide (c = i)) as [->|Hi].
      * rewrite list_lookup_alter_eq, Hblk. simpl.
        apply lookup_insert_ne. congruence.
      * by rewrite list_lookup_alter_ne.
Qed.

Lemma allocate_cases (v : T) (p : Pool) c :
  current_block p = Some c → 0 ≤ offset p ≤ BlockSize →
  ∃ p',
    (offset p + sizeof_T ≤ BlockSize
     ∧ allocate BlockSize sizeof_T v p = Some ((c, offset p), p')
     ∧ current_block p' = Some c
     ∧ offset p' = offset p + sizeof_T
     ∧ length (all_blocks p') = length (all_blocks p))
    ∨ (BlockSize < offset p + sizeof_T
       ∧ allocate BlockSize sizeof_T v p
         = Some ((length (all_blocks p), 0), p')
       ∧ current_block p' = Some (length (all_blocks p))
       ∧ offset p' = sizeof_T
       ∧ length (all_blocks p') = S (length (all_blocks p))).
Proof.
  intros Hc Hoff. unfold allocate. rewrite (bump_exact _ Hoff).
  destruct (Z.ltb_spec BlockSize (offset p + sizeof_T)) as [Hfull|Hroom].
  - eexists. right. split; [done|]. split; [reflexivity|]. simpl.
    unfold construct_at. rewrite Hc, !length_alter, length_app. simpl.
    rewrite bump_exact by lia. split_and!; [done|lia|lia].
  - rewrite Hc. eexists. left. split; [done|]. split; [reflexivity|]. simpl.
    unfold construct_at. rewrite length_alter, bump_exact by done. done.
Qed.

Lemma at_count_wf L n (p : Pool) :
  (1 ≤ L)%nat → at_count BlockSize sizeof_T L n p → wf BlockSize p.
Proof.
  intros HL (c & k & Hc & Hoff & Hk & Hcase). exists c.
  apply per_block_le in Hk. split_and!; [done| |lia|lia].
  destruct Hcase as [(-> & -> & _)|(_ & -> & _)]; lia.
Qed.

Lemma at_count_length L n (p : Pool) :
  at_count BlockSize sizeof_T L n p →
  length (all_blocks p) = (L + (n - 1) / per)%nat.
Proof.
  pose proof per_block_pos as Hper.
  intros (c & k & Hc & Hoff & Hk & [(-> & -> & ->)|(HL & -> & Hk1 & ->)]).
  - rewrite Nat.div_small by lia. lia.
  - rewrite <- (Nat.div_unique (per + (c - L) * per + k - 1) per
                  (S (c - L)) (k - 1)) by nia. lia.
Qed.

(** The address returned by the allocation number [n]. *)
Lemma at_count_allocate L n (v : T) (p : Pool) :
  (1 ≤ L)%nat → at_count BlockSize sizeof_T L n p →
  ∃ p', allocate BlockSize sizeof_T v p
        = Some (address_of BlockSize sizeof_T L n, p')
        ∧ at_count BlockSize sizeof_T L (S n) p'.
Proof.
  intros HL Hat. pose proof per_block_pos as Hper.
  destruct Hat as (c & k & Hc & Hoff & Hk & Hcase).
  assert (Hbound : 0 ≤ offset p ≤ BlockSize).
  { apply per_block_le in Hk. lia. }
  assert (Hnext : offset p + sizeof_T = Z.of_nat (S k) * sizeof_T) by lia.
  destruct (allocate_cases v p c Hc Hbound)
    as (p' & [(Hroom & Ha & Hc' & Hoff' & Hlen')|(Hfull & Ha & Hc' & Hoff' & Hlen')]);
    exists p'; rewrite Ha.
  - assert (Hk' : (S k ≤ per)%nat) by (apply per_block_le; lia).
    destruct Hcase as [(-> & HlenL & ->)|(HLc & Hlen & Hk1 & ->)].
    + split.
      * unfold address_of. destruct (Nat.ltb_spec k per); [|lia].
        by rewrite Hoff.
      * exists 0%nat, (S k). split_and!; [done|lia|done|].
        left. split_and!; [done|lia|done].
    + split.
      * unfold address_of.
        destruct (Nat.ltb_spec (per + (c - L) * per + k) per); [nia|].
        rewrite <- (Nat.div_unique (per + (c - L) * per + k) per
                      (S (c - L)) k) by nia.
        rewrite <- (Nat.mod_unique (per + (c - L) * per + k) per
                      (S (c - L)) k) by nia.
        rewrite Hoff. repeat f_equal. lia.
      * exists c, (S k). split_and!; [done|lia|done|].
        right. split_and!; [done|lia|lia|nia].
  - assert (k = per) as ->.
    { destruct (decide (S k ≤ per)%nat) as [Hle|Hgt]; [|lia].
      apply per_block_le in Hle. lia. }
    destruct Hcase as [(-> & HlenL & ->)|(HLc & Hlen & Hk1 & ->)].
    + split.
      * unfold address_of. destruct (Nat.ltb_spec per per); [lia|].
        rewrite Nat.div_same, Nat.Div0.mod_same by lia.
        rewrite HlenL. repeat f_equal; lia.
      * exists L, 1%nat. split_and!; [by rewrite Hc', HlenL|lia|lia|].
        right. split_and!; [lia|lia|lia|lia].
    + split.
      * unfold address_of.
        destruct (Nat.ltb_spec (per + (c - L) * per + per) per); [nia|].
        rewrite <- (Nat.div_unique (per + (c - L) * per + per) per
                      (S (S (c - L))) 0) by nia.
        rewrite <- (Nat.mod_unique (per + (c - L) * per + per) per
                      (S (S (c - L))) 0) by nia.
        rewrite Hlen. repeat f_equal; lia.
      * exists (S c), 1%nat. split_and!; [by rewrite Hc', Hlen|lia|lia|].
        right. split_and!; [lia|lia|lia|nia].
Qed.

Lemma at_count_reset (p : Pool) :
  wf BlockSize p →
  at_count BlockSize sizeof_T (length (all_blocks p)) 0 (reset p).
Proof.
  intros (c & Hc & Hlt & Hoff). exists 0%nat, 0%nat. unfold reset. simpl.
  destruct (all_blocks p) eqn:E; simpl in *; [lia|].
  split_and!; [done|lia|lia|]. left. done.
Qed.

Lemma at_count_create : at_count BlockSize sizeof_T 1 0 (create : Pool).
Proof.
  exists 0%nat, 0%nat. simpl. split_and!; [done|lia|lia|]. left. done.
Qed.

(** The addresses of a run of allocations, and the objects behind them. *)
Lemma allocate_all_at_count L n (vs : list T) (p : Pool) :
  (1 ≤ L)%nat → at_count BlockSize sizeof_T L n p →
  ∃ p', allocate_all BlockSize sizeof_T vs p
        = Some (address_of BlockSize sizeof_T L <$> seq n (length vs), p')
        ∧ at_count BlockSize sizeof_T L (n + length vs) p'
        ∧ (∀ a, (∀ i, (n ≤ i < n + length vs)%nat →
                   a ≠ address_of BlockSize sizeof_T L i) →
                read p' a = read p a).
Proof.
  intros HL. revert n p. induction vs as [|v vs IH]; intros n p Hat.
  - exists p. simpl. rewrite Nat.add_0_r. done.
  - destruct (at_count_allocate L n v p HL Hat) as (p1 & Ha & Hat1).
    destruct (allocate_wf v p (at_count_wf _ _ _ HL Hat))
      as (c & off & p1' & Ha' & _ & _ & _ & _ & _ & Hframe & _).
    rewrite Ha in Ha'. injection Ha' as Haddr <-.
    destruct (IH (S n) p1 Hat1) as (p2 & Hall & Hat2 & Hframe2).
    exists p2. simpl. rewrite Ha, Hall. split_and!.
    + done.
    + by replace (n + S (length vs))%nat with (S n + length vs)%nat by lia.
    + intros a Hne. rewrite Hframe2 by (intros i Hi; apply Hne; lia).
      apply Hframe. rewrite <- Haddr. apply Hne. lia.
Qed.

Lemma address_of_bounds L i :
  0 ≤ (address_of BlockSize sizeof_T L i).2
  ∧ (address_of BlockSize sizeof_T L i).2 + sizeof_T ≤ BlockSize.
Proof.
  pose proof per_block_pos as Hper. unfold address_of.
  destruct (Nat.ltb_spec i per) as [Hlt|Hge]; simpl.
  - assert (S i ≤ per)%nat as Hle%per_block_le by lia. lia.
  - pose proof (Nat.mod_upper_bound i per ltac:(lia)) as Hm.
    assert (S (i mod per) ≤ per)%nat as Hle%per_block_le by lia. lia.
Qed.

Lemma address_of_disjoint L i j :
  (1 ≤ L)%nat → i ≠ j →
  disjoint sizeof_T (address_of BlockSize sizeof_T L i)
                    (address_of BlockSize sizeof_T L j).
Proof.
  intros HL Hij. pose proof per_block_pos as Hper. unfold address_of, disjoint.
  assert (Hoffs : ∀ a b : nat, a ≠ b →
            Z.of_nat a * sizeof_T + sizeof_T ≤ Z.of_nat b * sizeof_T
            ∨ Z.of_nat b * sizeof_T + sizeof_T ≤ Z.of_nat a * sizeof_T).
  { intros a b Hab. destruct (decide (a < b)%nat); [left|right]; nia. }
  assert (Hdiv : ∀ a, (per ≤ a)%nat → (1 ≤ a / per)%nat).
  { intros a Ha. apply Nat.div_le_lower_bound; lia. }
  destruct (Nat.ltb_spec i per) as [Hi|Hi], (Nat.ltb_spec j per) as [Hj|Hj];
    simpl.
  - right. by apply Hoffs.
  - left. specialize (Hdiv j Hj). lia.
  - left. specialize (Hdiv i Hi). lia.
  - destruct (decide (i / per = j / per)%nat) as [Heq|Hne].
    + right. apply Hoffs. intros Hm. apply Hij.
      rewrite (Nat.div_mod_eq i per), (Nat.div_mod_eq j per). by rewrite Heq, Hm.
    + left. pose proof (Hdiv i Hi). pose proof (Hdiv j Hj). lia.
Qed.

Lemma address_of_inj L i j :
  (1 ≤ L)%nat → address_of BlockSize sizeof_T L i = address_of BlockSize sizeof_T L j →
  i = j.
Proof.
  intros HL Heq. destruct (decide (i = j)) as [|Hne]; [done|].
  destruct (address_of_disjoint L i j HL Hne) as [H|[H|H]];
    rewrite Heq in H; [done|lia|lia].
Qed.

(** The objects allocated in a run are found behind their addresses. *)
Lemma allocate_all_contents L n (vs : list T) (p : Pool) :
  (1 ≤ L)%nat → at_count BlockSize sizeof_T L n p →
  ∃ p', allocate_all BlockSize sizeof_T vs p
        = Some (address_of BlockSize sizeof_T L <$> seq n (length vs), p')
        ∧ at_count BlockSize sizeof_T L (n + length vs) p'
        ∧ ∀ i v, vs !! i = Some v →
            read p' (address_of BlockSize sizeof_T L (n + i)) = Some v.
Proof.
  intros HL. revert n p. induction vs as [|v vs IH]; intros n p Hat.
  - exists p. simpl. rewrite Nat.add_0_r. done.
  - destruct (at_count_allocate L n v p HL Hat) as (p1 & Ha & Hat1).
    destruct (allocate_wf v p (at_count_wf _ _ _ HL Hat))
      as (c & off & p1' & Ha' & _ & _ & _ & _ & Hread & _).
    rewrite Ha in Ha'. injection Ha' as Haddr <-.
    destruct (allocate_all_at_count L (S n) vs p1 HL Hat1)
      as (p2 & Hall & Hat2 & Hframe).
    destruct (IH (S n) p1 Hat1) as (p2' & Hall' & _ & Hreads).
    rewrite Hall in Hall'. injection Hall' as <-.
    exists p2. simpl. rewrite Ha, Hall. split_and!.
    + done.
    + by replace (n + S (length vs))%nat with (S n + length vs)%nat by lia.
    + intros [|i] w Hw; simpl in Hw.
      * injection Hw as <-. rewrite Nat.add_0_r, Hframe; [by rewrite Haddr|].
        intros i Hi Heq%address_of_inj; [lia|done].
      * replace (n + S i)%nat with (S n + i)%nat by lia. by apply Hreads.
Qed.

(** X1.  On a well-formed pool (the constructor, [allocate_block], [reset] and
    [allocate] all leave one) [allocate] never dereferences a null block: it
    returns an address whose block exists and whose object lies wholly inside
    the block, constructs the value there, leaves every other address as it
    was, and never gives a block back. *)
Theorem X1_allocate_stays_in_block (p : Pool) (v : T) :
  wf BlockSize p →
  wf BlockSize (create : Pool)
  ∧ wf BlockSize (allocate_block p)
  ∧ wf BlockSize (reset p)
  ∧ ∃ c off p',
      allocate BlockSize sizeof_T v p = Some ((c, off), p')
      ∧ (c < length (all_blocks p'))%nat
      ∧ 0 ≤ off ∧ off + sizeof_T ≤ BlockSize
      ∧ wf BlockSize p'
      ∧ read p' (c, off) = Some v
      ∧ (∀ a, a ≠ (c, off) → read p' a = read p a)
      ∧ (length (all_blocks p) ≤ length (all_blocks p'))%nat.
Proof.
  intros Hwf. split_and!;
    [apply wf_create|apply wf_allocate_block|by apply wf_reset|by apply allocate_wf].
Qed.

(** X2.  From a new pool, the allocation number [i] (from 0) is placed in the
    block [i / per_block] at the offset [(i mod per_block) * sizeof(T)], and
    after [n] allocations the pool owns [1 + (n - 1) / per_block] blocks. *)
Theorem X2_new_pool_addresses (vs : list T) :
  ∃ p',
    allocate_all BlockSize sizeof_T vs create
    = Some ((λ i, ((i / per)%nat, Z.of_nat (i mod per) * sizeof_T))
              <$> seq 0 (length vs), p')
    ∧ length (all_blocks p') = (1 + (length vs - 1) / per)%nat.
Proof.
  pose proof per_block_pos as Hper.
  destruct (allocate_all_contents 1 0 vs create ltac:(lia) at_count_create)
    as (p' & Hall & Hat & _).
  exists p'. split; [|by apply at_count_length in Hat].
  rewrite Hall. do 2 f_equal. apply list_fmap_ext. intros _ i _.
  unfold address_of. destruct (Nat.ltb_spec i per) as [Hlt|Hge].
  - by rewrite Nat.div_small, Nat.mod_small.
  - f_equal. assert (1 ≤ i / per)%nat by (apply Nat.div_le_lower_bound; lia). lia.
Qed.

(** X3.  The objects allocated from a new pool never overlap: two different
    allocations are in different blocks or at least [sizeof(T)] bytes apart. *)
Theorem X3_new_pool_no_overlap (vs : list T) addrs p' i j a1 a2 :
  allocate_all BlockSize sizeof_T vs create = Some (addrs, p') →
  addrs !! i = Some a1 → addrs !! j = Some a2 → i ≠ j →
  disjoint sizeof_T a1 a2.
Proof.
  intros Hall H1 H2 Hij.
  destruct (allocate_all_contents 1 0 vs create ltac:(lia) at_count_create)
    as (p2 & Hall' & _). rewrite Hall in Hall'. injection Hall' as -> _.
  apply list_lookup_fmap_Some in H1 as (i' & -> & Hi).
  apply list_lookup_fmap_Some in H2 as (j' & -> & Hj).
  apply lookup_seq in Hi as [-> _]. apply lookup_seq in Hj as [-> _].
  apply address_of_disjoint; lia.
Qed.

(** X4.  Every object allocated from a new pool is still found, unchanged,
    behind the address that [allocate] returned for it, whatever was allocated
    after it. *)
Theorem X4_new_pool_keeps_objects (vs : list T) addrs p' i v :
  allocate_all BlockSize sizeof_T vs create = Some (addrs, p') →
  vs !! i = Some v →
  ∃ a, addrs !! i = Some a ∧ read p' a = Some v.
Proof.
  intros Hall Hv.
  destruct (allocate_all_contents 1 0 vs create ltac:(lia) at_count_create)
    as (p2 & Hall' & _ & Hreads). rewrite Hall in Hall'.
  injection Hall' as -> ->.
  exists (address_of BlockSize sizeof_T 1 i). split; [|by apply (Hreads i v)].
  apply list_lookup_fmap_Some_2, lookup_seq.
  split; [done|]. by eapply lookup_lt_Some.
Qed.

(** X5.  [reset] keeps the blocks and rewinds to the first one only.  The next
    [per_block] allocations reuse the first block from offset 0, so the first
    of them overwrites whatever object was at the start of that block; the
    allocation after those is placed at the start of a newly appended block,
    even when the pool already owned later blocks. *)
Theorem X5_reset_reuses_first_block_only (p : Pool) (vs : list T) :
  wf BlockSize p →
  let L := length (all_blocks p) in
  all_blocks (reset p) = all_blocks p
  ∧ ∃ p',
      allocate_all BlockSize sizeof_T vs (reset p)
      = Some (address_of BlockSize sizeof_T L <$> seq 0 (length vs), p')
      ∧ length (all_blocks p') = (L + (length vs - 1) / per)%nat
      ∧ (∀ i, (i < per)%nat →
           address_of BlockSize sizeof_T L i = (0%nat, Z.of_nat i * sizeof_T))
      ∧ address_of BlockSize sizeof_T L per = (L, 0)
      ∧ (∀ i v, vs !! i = Some v →
           read p' (address_of BlockSize sizeof_T L i) = Some v).
Proof.
  intros Hwf L. pose proof per_block_pos as Hper. split; [done|].
  assert (1 ≤ L)%nat as HL.
  { destruct Hwf as (c & _ & Hlt & _). unfold L. lia. }
  destruct (allocate_all_contents L 0 vs (reset p) HL (at_count_reset p Hwf))
    as (p' & Hall & Hat & Hreads).
  exists p'. split_and!.
  - done.
  - by apply at_count_length in Hat.
  - intros i Hi. unfold address_of. by destruct (Nat.ltb_spec i per); [|lia].
  - unfold address_of. destruct (Nat.ltb_spec per per); [lia|].
    rewrite Nat.div_same, Nat.Div0.mod_same by lia. f_equal; lia.
  - intros i v Hv. by apply (Hreads i v).
Qed.
End BlockPoolFacts.

(** * Further properties of the book *)

Lemma find_level_count comp `{!StrictTotal comp} f k m :
  SideMap.sorted comp m →
  length (SideMap.at_key comp f k m)
  = match SideMap.find comp k m with
    | Some _ => length m
    | None => S (length m)
    end.
Proof.
  intros Hs. destruct (SideMap.find comp k m) as [v|] eqn:Hf.
  - rewrite (at_key_found comp f k v m Hs Hf). apply (length_modify comp).
  - by apply (length_at_key_fresh comp).
Qed.

(** X6.  [add_order] on any book with well-formed maps: the new record goes to
    the end of the pool, its node to the tail of the level at its price on its
    side (created when the price is new, which raises the level count of that
    side by one), the aggregate of that level grows by the quantity in
    [uint64_t] arithmetic, the lookup maps the identity to the new node, and
    [get_total_orders] grows by one exactly when the identity was not resting.
    Every other level and the whole opposite side are untouched, also when the
    new price crosses the opposite side: nothing is ever matched. *)
Theorem X6_add_order_effect (o : Order) (b : OrderBook) :
  sides_sorted b →
  let b' := add_order o b in
  let new := length (order_pool b) in
  order_pool b' = order_pool b ++ [o]
  ∧ order_lookup b' = <[order_id o := mkLoc (price o) new (is_buy o)]> (order_lookup b)
  ∧ get_total_orders b'
    = match order_lookup b !! order_id o with
      | Some _ => get_total_orders b
      | None => S (get_total_orders b)
      end
  ∧ level_orders (is_buy o) (price o) b'
    = level_orders (is_buy o) (price o) b ++ [new]
  ∧ (total_quantity <$>
       SideMap.find (comp_of (is_buy o)) (price o) (side_of (is_buy o) b'))
    = Some (wrap64
              (default 0 (total_quantity <$>
                            SideMap.find (comp_of (is_buy o)) (price o)
                              (side_of (is_buy o) b))
               + quantity o))
  ∧ (∀ k, k ≠ price o →
       SideMap.find (comp_of (is_buy o)) k (side_of (is_buy o) b')
       = SideMap.find (comp_of (is_buy o)) k (side_of (is_buy o) b))
  ∧ side_of (negb (is_buy o)) b' = side_of (negb (is_buy o)) b
  ∧ level_count (is_buy o) b'
    = match SideMap.find (comp_of (is_buy o)) (price o) (side_of (is_buy o) b) with
      | Some _ => level_count (is_buy o) b
      | None => S (level_count (is_buy o) b)
      end
  ∧ sides_sorted b'.
Proof.
  intros Hs b' new. subst b'.
  pose proof (side_sorted b (is_buy o) Hs) as Hso.
  split_and!.
  - apply add_order_pool.
  - apply add_order_lookup.
  - unfold get_total_orders. rewrite add_order_lookup, map_size_insert.
    by destruct (order_lookup b !! order_id o).
  - unfold level_orders. rewrite add_order_find, decide_True by done.
    by destruct (SideMap.find _ _ _).
  - rewrite add_order_find, decide_True by done. simpl.
    rewrite deref_app_new. by destruct (SideMap.find _ _ _).
  - intros k Hk. rewrite add_order_find by done.
    rewrite decide_False; [done|]. by intros [_ ?].
  - apply add_order_other_side. by destruct (is_buy o).
  - rewrite !level_count_length, add_order_side.
    by apply (find_level_count (comp_of (is_buy o))).
  - apply sides_sorted_intro. intros buy.
    destruct (decide (buy = is_buy o)) as [->|Hb].
    + rewrite add_order_side. apply sorted_at_key; [apply _|done].
    + rewrite add_order_other_side by done. by apply side_sorted.
Qed.

Lemma X6_witness :
  sides_sorted book_two_sided
  ∧ level_orders true 104 (add_order (mkOrder 7 true 104 5 7000) book_two_sided)
    = [6%nat]
  ∧ asks (add_order (mkOrder 7 true 104 5 7000) book_two_sided)
    = asks book_two_sided
  ∧ get_bid_levels (add_order (mkOrder 7 true 104 5 7000) book_two_sided) = 4%nat.
Proof.
  assert (Hs : sides_sorted book_two_sided).
  { split; vm_compute; repeat constructor. }
  destruct (X6_add_order_effect (mkOrder 7 true 104 5 7000) book_two_sided Hs)
    as (_ & _ & _ & H4 & _ & _ & H7 & H8 & _).
  split; [exact Hs|]. split; [exact H4|]. split; [exact H7|]. exact H8.
Defined.

Lemma list_erase_snoc_fresh it l : it ∉ l → list_erase it (l ++ [it]) = l.
Proof.
  induction l as [|x l IH]; simpl.
  - intros _. by rewrite Nat.eqb_refl.
  - intros [Hne Hnot]%not_elem_of_cons.
    destruct (Nat.eqb_spec x it); [congruence|]. f_equal. by apply IH.
Qed.

(** X7.  Adding an order and cancelling its identity at once gives back both
    side indexes exactly (sequences, aggregates and level counts); the pool
    keeps the record.  The lookup loses the identity: it is as before when the
    identity was new, but when the identity was already resting its earlier
    entry is gone too, although the earlier order still occupies its level. *)
Theorem X7_add_then_cancel (o : Order) (b : OrderBook) :
  book_inv b →
  let b2 := snd (cancel_order (order_id o) (add_order o b)) in
  fst (cancel_order (order_id o) (add_order o b)) = true
  ∧ bids b2 = bids b
  ∧ asks b2 = asks b
  ∧ order_lookup b2 = delete (order_id o) (order_lookup b)
  ∧ (order_lookup b !! order_id o = None → order_lookup b2 = order_lookup b)
  ∧ order_pool b2 = order_pool b ++ [o].
Proof.
  intros Hinv b2. subst b2.
  pose proof (add_order_inv o b Hinv) as Hinv1.
  set (b1 := add_order o b) in *.
  set (new := length (order_pool b)).
  assert (Hloc : order_lookup b1 !! order_id o
                 = Some (mkLoc (price o) new (is_buy o))).
  { unfold b1. rewrite add_order_lookup. apply lookup_insert_eq. }
  set (lvl0 := default empty_level
                 (SideMap.find (comp_of (is_buy o)) (price o)
                    (side_of (is_buy o) b))).
  assert (Hf1 : SideMap.find (comp_of (is_buy o)) (price o)
                  (side_of (is_buy o) b1)
                = Some (level_add_order (order_pool b ++ [o]) new lvl0)).
  { unfold b1. rewrite add_order_find, decide_True by (apply Hinv || done). done. }
  destruct (cancel_order_find _ _ _ _ (inv_sorted _ Hinv1) Hloc Hf1)
    as (b2 & Hc & Hpool & Hlook & Hfind).
  rewrite Hc. simpl.
  assert (Hfresh : new ∉ orders lvl0).
  { unfold lvl0. destruct (SideMap.find _ _ _) as [l|] eqn:E; simpl.
    - intros Hin. pose proof (level_ok_lt _ _ _ _ _ (inv_levels _ Hinv _ _ _ E) Hin).
      unfold new in *. lia.
    - apply not_elem_of_nil. }
  assert (Hsame : ∀ buy k,
    SideMap.find (comp_of buy) k (side_of buy b2)
    = SideMap.find (comp_of buy) k (side_of buy b)).
  { intros buy k. rewrite Hfind. simpl. case_decide as Hd.
    - destruct Hd as [-> <-]. rewrite list_erase_snoc_fresh by done.
      assert (Hback : level_remove_order (order_pool b1) new
                        (level_add_order (order_pool b ++ [o]) new lvl0)
                      = mkLevel (orders lvl0) (wrap64 (total_quantity lvl0))).
      { unfold level_remove_order, level_add_order. simpl.
        rewrite list_erase_snoc_fresh by done.
        unfold b1. rewrite add_order_pool, deref_app_new. f_equal.
        rewrite wrap64_sub_l. f_equal. lia. }
      rewrite Hback. clear Hback. unfold lvl0 in *.
      destruct (SideMap.find _ _ _) as [l|] eqn:E; simpl; [|done].
      pose proof (inv_levels _ Hinv _ _ _ E) as [Hne _ Htot _].
      destruct l as [ol tl]. simpl in *.
      destruct ol; [done|]. f_equal. f_equal.
      rewrite Htot. unfold wrap64. apply Zmod_mod.
    - unfold b1. rewrite add_order_find by apply Hinv.
      rewrite decide_False; [done|]. intros [? ?]. by apply Hd. }
  destruct (sides_ext b2 b) as [Hb Ha].
  { pose proof (cancel_order_inv (order_id o) b1 Hinv1) as H.
    rewrite Hc in H. apply H. }
  { apply Hinv. }
  { done. }
  split_and!; [done..| | |].
  - rewrite Hlook. unfold b1. rewrite add_order_lookup. apply delete_insert_eq.
  - intros Hnone. rewrite Hlook. unfold b1.
    rewrite add_order_lookup, delete_insert_eq. by apply delete_id.
  - rewrite Hpool. unfold b1. apply add_order_pool.
Qed.

Lemma X7_witness :
  book_inv book_two_sided
  ∧ bids (snd (cancel_order 7 (add_order (mkOrder 7 true 101 5 7000) book_two_sided)))
    = bids book_two_sided
  ∧ order_lookup
      (snd (cancel_order 2 (add_order (mkOrder 2 true 101 5 7000) book_two_sided)))
    = delete 2 (order_lookup book_two_sided).
Proof.
  assert (Hinv : book_inv book_two_sided)
    by exact (reachable_inv _ book_two_sided_reachable).
  split; [exact Hinv|]. split.
  - exact (proj1 (proj2 (X7_add_then_cancel (mkOrder 7 true 101 5 7000) _ Hinv))).
  - exact (proj1 (proj2 (proj2 (proj2
      (X7_add_then_cancel (mkOrder 2 true 101 5 7000) _ Hinv))))).
Defined.

(** X8.  A cancellation cannot be repeated: in any state, cancelling the same
    identity a second time returns [false] and changes nothing, and after a
    successful cancellation an amendment of that identity returns [false] and
    changes nothing, even if an earlier order with that identity still
    occupies a level. *)
Theorem X8_cancel_not_repeatable (b : OrderBook) (id : Z) :
  let b' := snd (cancel_order id b) in
  cancel_order id b' = (false, b')
  ∧ (fst (cancel_order id b) = true →
     order_lookup b' !! id = None
     ∧ ∀ new_price new_quantity,
         amend_order id new_price new_quantity b' = (false, b')).
Proof.
  intros b'.
  assert (Hcases : (fst (cancel_order id b) = true ∧ order_lookup b' !! id = None)
                   ∨ (fst (cancel_order id b) = false ∧ b' = b)).
  { subst b'. unfold cancel_order.
    destruct (order_lookup b !! id) as [loc|] eqn:Hloc; [|by right].
    destruct (loc_is_buy loc); destruct (SideMap.find _ _ _); simpl;
      try (by right); left; (split; [done|apply lookup_delete_eq]). }
  destruct Hcases as [[Ht Hnone]|[Hf Heq]].
  - split; [by apply cancel_order_absent|].
    intros _. split; [done|]. intros np nq. by apply amend_order_absent.
  - split; [|by rewrite Hf]. rewrite Heq.
    destruct (cancel_order id b) as [r b0] eqn:E. simpl in *. by subst.
Qed.

Lemma X8_witness :
  fst (cancel_order 2 book_three_bids) = true
  ∧ cancel_order 2 (snd (cancel_order 2 book_three_bids))
    = (false, snd (cancel_order 2 book_three_bids))
  ∧ amend_order 2 100 5 (snd (cancel_order 2 book_three_bids))
    = (false, snd (cancel_order 2 book_three_bids)).
Proof.
  assert (H : fst (cancel_order 2 book_three_bids) = true)
    by (vm_compute; reflexivity).
  destruct (X8_cancel_not_repeatable book_three_bids 2) as (H1 & H2).
  split; [exact H|]. split; [exact H1|]. exact (proj2 (H2 H) 100 5).
Defined.

Lemma amend_order_pool id p q b :
  order_pool (snd (amend_order id p q b))
  = match order_lookup b !! id with
    | None => order_pool b
    | Some loc =>
        let o := deref (order_pool b) (loc_it loc) in
        if Z.eqb (price o) p then set_quantity (order_pool b) (loc_it loc) q
        else order_pool b ++ [mkOrder id (is_buy o) p q (timestamp_ns o)]
    end.
Proof.
  rewrite amend_order_unfold.
  destruct (order_lookup b !! id) as [loc|]; [|done]. simpl.
  destruct (Z.eqb _ p); simpl.
  - destruct (Z.eqb q 0); simpl;
      by rewrite ?cancel_order_pool, update_in_place_pool.
  - by rewrite add_order_pool, cancel_order_pool.
Qed.

(** X9.  The pool only grows: each call takes [allocations] records from it
    (one for an add, one for an amendment that changes the price of a resting
    order, none for a cancel, a quantity-only amendment or a call on an unknown
    identity), and no call gives one back; a cancel leaves the pool exactly as
    it is. *)
Theorem X9_pool_only_grows (op : Op) (ops : list Op) (b : OrderBook) :
  length (order_pool (step op b))
  = (length (order_pool b) + allocations op b)%nat
  ∧ (length (order_pool b) ≤ length (order_pool (run ops b)))%nat
  ∧ (∀ id, order_pool (snd (cancel_order id b)) = order_pool b).
Proof.
  assert (Hstep : ∀ op b, length (order_pool (step op b))
                          = (length (order_pool b) + allocations op b)%nat).
  { clear. intros [o|id|id p q] b; simpl.
    - rewrite add_order_pool, length_app. simpl. lia.
    - rewrite cancel_order_pool. lia.
    - rewrite amend_order_pool. unfold current_price.
      destruct (order_lookup b !! id) as [loc|]; simpl; [|lia].
      destruct (Z.eqb _ p).
      + rewrite set_quantity_length. lia.
      + rewrite length_app. simpl. lia. }
  split_and!.
  - apply Hstep.
  - revert b. induction ops as [|op' ops IH]; intros b; simpl; [lia|].
    etrans; [|apply IH]. rewrite Hstep. lia.
  - intros id. apply cancel_order_pool.
Qed.

Lemma step_record op b p o :
  order_pool b !! p = Some o →
  order_pool (step op b) !! p = Some o
  ∨ ∃ id q loc,
      op = Amend id (price o) q
      ∧ order_lookup b !! id = Some loc ∧ loc_it loc = p
      ∧ order_pool (step op b) !! p
        = Some (mkOrder (order_id o) (is_buy o) (price o) q (timestamp_ns o)).
Proof.
  intros Ho. pose proof (lookup_lt_Some _ _ _ Ho) as Hlt.
  destruct op as [o'|id|id np q]; simpl.
  - left. by rewrite add_order_pool, lookup_app_l.
  - left. by rewrite cancel_order_pool.
  - rewrite amend_order_pool.
    destruct (order_lookup b !! id) as [loc|] eqn:Hloc; [|by left]. simpl.
    destruct (Z.eqb_spec (price (deref (order_pool b) (loc_it loc))) np)
      as [Hp|Hp].
    + destruct (decide (loc_it loc = p)) as [Hit|Hit].
      * right. rewrite Hit in *. rewrite (deref_lookup _ _ _ Ho) in Hp.
        exists id, q, loc. rewrite Hp. split_and!; [done..|].
        rewrite <- Hp. by apply set_quantity_lookup_eq.
      * left. by rewrite set_quantity_lookup_ne.
    + left. by rewrite lookup_app_l.
Qed.

(** X10.  A record of the pool keeps its identity, side, price and timestamp
    for ever, whatever calls follow, also after its order was cancelled.  One
    call alone writes to an existing record: an amendment at the unchanged
    price of the identity whose lookup entry designates that record, and it
    writes the quantity. *)
Theorem X10_records_are_stable (op : Op) (ops : list Op) (b : OrderBook)
    (p : nat) (o : Order) :
  order_pool b !! p = Some o →
  (∃ o', order_pool (run ops b) !! p = Some o' ∧ same_but_quantity o o')
  ∧ (order_pool (step op b) !! p = Some o
     ∨ ∃ id q loc,
         op = Amend id (price o) q
         ∧ order_lookup b !! id = Some loc ∧ loc_it loc = p
         ∧ order_pool (step op b) !! p
           = Some (mkOrder (order_id o) (is_buy o) (price o) q (timestamp_ns o))).
Proof.
  intros Ho. split; [|by apply step_record].
  clear op. revert b o Ho. induction ops as [|op ops IH]; intros b o Ho; simpl.
  - exists o. by split.
  - destruct (step_record op b p o Ho) as [H|(id & q & loc & _ & _ & _ & H)].
    + by apply IH.
    + destruct (IH _ _ H) as (o' & Ho' & H1 & H2 & H3 & H4).
      exists o'. split; [done|]. by split_and!.
Qed.

Lemma X10_witness :
  order_pool book_three_bids !! 1%nat = Some (mkOrder 2 true 100 20 2000)
  ∧ ∃ o', order_pool (run [Amend 2 100 7; Cancel 2; Add (mkOrder 2 false 90 1 1)]
                        book_three_bids) !! 1%nat = Some o'
          ∧ same_but_quantity (mkOrder 2 true 100 20 2000) o'.
Proof.
  assert (H : order_pool book_three_bids !! 1%nat = Some (mkOrder 2 true 100 20 2000))
    by (vm_compute; reflexivity).
  split; [exact H|].
  exact (proj1 (X10_records_are_stable (Cancel 0)
                  [Amend 2 100 7; Cancel 2; Add (mkOrder 2 false 90 1 1)]
                  book_three_bids 1%nat _ H)).
Defined.

Lemma sorted_head_first comp m k v k' v' :
  SideMap.sorted comp ((k, v) :: m) → (k', v') ∈ (k, v) :: m →
  k' = k ∨ comp k k' = true.
Proof.
  intros [Hall _] [[= -> ->]|Hin]%elem_of_cons; [by left|right].
  rewrite Forall_forall in Hall. apply (Hall _ Hin).
Qed.

(** X11.  Top of book.  For a depth of at least one and at most [max_size()],
    written to two different vectors, [get_snapshot] returns whenever the heap
    grants storage for [depth] entries, and whenever it returns, the first
    bid entry is the level with the highest price of the whole bid index and
    the first ask entry the level with the lowest price of the whole ask
    index; a side without levels gives no entry. *)
Theorem X11_snapshot_top_of_book (b : OrderBook) (depth : Z)
    (bids_out asks_out : nat) (h : Heap) :
  sides_sorted b → 0 < depth ≤ vector_max_size → bids_out ≠ asks_out →
  let r := get_snapshot depth b bids_out asks_out h in
  ((∀ k, grants h k depth = true) → fst r = Returned)
  ∧ (fst r = Returned →
     match v_elems (vectors (snd r) bids_out) with
     | [] => bids b = []
     | e :: _ =>
         (∃ lvl, (pl_price e, lvl) ∈ bids b
                 ∧ pl_total_quantity e = total_quantity lvl)
         ∧ ∀ k lvl, (k, lvl) ∈ bids b → k ≤ pl_price e
     end
     ∧ match v_elems (vectors (snd r) asks_out) with
       | [] => asks b = []
       | e :: _ =>
           (∃ lvl, (pl_price e, lvl) ∈ asks b
                   ∧ pl_total_quantity e = total_quantity lvl)
           ∧ ∀ k lvl, (k, lvl) ∈ asks b → pl_price e ≤ k
       end).
Proof.
  intros [Hb Ha] Hd Hne.
  assert (Hmax := vector_max_size_value).
  destruct (get_snapshot_distinct depth b bids_out asks_out h)
    as (o & h' & Hrun & Hcase & _ & Hret); [lia|done|].
  rewrite Hrun. simpl. split.
  { intros Hall. apply Hret; [lia|done]. }
  intros ->. destruct Hcase as (_ & -> & ->).
  destruct (Z.to_nat depth) as [|d] eqn:Ed; [lia|]. split.
  - destruct (bids b) as [|[k v] m] eqn:E; simpl; [done|]. split.
    + exists v. split; [apply list_elem_of_here|done].
    + intros k' v' Hin.
      destruct (sorted_head_first greater m k v k' v' Hb Hin) as [->|H];
        [lia|unfold greater in H; lia].
  - destruct (asks b) as [|[k v] m] eqn:E; simpl; [done|]. split.
    + exists v. split; [apply list_elem_of_here|done].
    + intros k' v' Hin.
      destruct (sorted_head_first less m k v k' v' Ha Hin) as [->|H];
        [lia|unfold less in H; lia].
Qed.

Lemma X11_witness :
  sides_sorted book_two_sided ∧ 0 < 1 ≤ vector_max_size
  ∧ snapshot_of 1 book_two_sided
    = (Returned, ([mkPriceLevel 102 20], [mkPriceLevel 103 40]))
  ∧ (∀ k lvl, (k, lvl) ∈ bids book_two_sided → k ≤ 102)
  ∧ (∀ k lvl, (k, lvl) ∈ asks book_two_sided → 103 ≤ k).
Proof.
  assert (Hs : sides_sorted book_two_sided).
  { split; vm_compute; repeat constructor. }
  assert (Hd : 0 < 1 ≤ vector_max_size).
  { split; [reflexivity|vm_compute; discriminate]. }
  assert (Hne : 0%nat ≠ 1%nat) by discriminate.
  pose proof (X11_snapshot_top_of_book book_two_sided 1 0%nat 1%nat
                two_empty_vectors Hs Hd Hne) as [Hret Hres].
  destruct (Hres (Hret (λ _, eq_refl))) as [H1 H2].
  split; [exact Hs|]. split; [exact Hd|]. split; [vm_compute; reflexivity|].
  split; [exact (proj2 H1)|exact (proj2 H2)].
Defined.

(** Depth 0 asks the heap for nothing and cannot throw: both vectors are
    left empty, the same vector passed twice included. *)
Lemma get_snapshot_zero b bids_out asks_out h :
  0 ≤ v_capacity (vectors h bids_out) → 0 ≤ v_capacity (vectors h asks_out) →
  ∃ h',
    get_snapshot 0 b bids_out asks_out h = (Returned, h')
    ∧ v_elems (vectors h' bids_out) = []
    ∧ v_elems (vectors h' asks_out) = []
    ∧ served h' = served h.
Proof.
  intros Hcb Hca. unfold get_snapshot. rewrite !and_then_unfold.
  unfold vector_clear, set_vector. simpl.
  set (h0 := mkHeap _ _ _).
  assert (H0 : ∀ r, r = bids_out ∨ r = asks_out →
                 v_elems (vectors h0 r) = [] ∧ 0 ≤ v_capacity (vectors h0 r)).
  { intros r Hr. subst h0. simpl.
    destruct (decide (r = asks_out)) as [->|Hra].
    - rewrite fn_lookup_insert. simpl. split; [done|].
      destruct (decide (bids_out = asks_out)) as [->|Hne].
      + by rewrite fn_lookup_insert.
      + by rewrite fn_lookup_insert_ne.
    - destruct Hr as [->| ->]; [|done].
      by rewrite fn_lookup_insert_ne, fn_lookup_insert. }
  assert (Hs : served h0 = served h) by done.
  clearbody h0.
  assert (Hres : ∀ r, r = bids_out ∨ r = asks_out →
                   vector_reserve r 0 h0 = (Returned, h0)).
  { intros r Hr. unfold vector_reserve, skip.
    destruct (Z.ltb_spec vector_max_size 0) as [Hbad|_];
      [rewrite vector_max_size_value in Hbad; lia|].
    destruct (Z.ltb_spec (v_capacity (vectors h0 r)) 0) as [Hneg|_]; [|done].
    destruct (H0 r Hr). lia. }
  assert (Hloop : ∀ side out, snapshot_loop 0 0 side out h0 = (Returned, h0)).
  { by intros [|[k lvl] side] out. }
  rewrite !Hres, !Hloop by auto. exists h0.
  split_and!; [done| | |done]; apply H0; auto.
Qed.

(** X12.  The depth is a soft cap.  Depth 0 cannot throw and leaves both
    vectors empty.  For depths up to [max_size()] and two different vectors,
    whatever the vectors held before and whenever the calls return: a deeper
    snapshot only extends a shallower one (the shallower is a prefix of the
    deeper, side by side), and a depth that reaches the number of levels of
    both sides gives every level.  Such a call returns whenever the heap
    grants storage for the depth. *)
Theorem X12_snapshot_depth_soft_cap (b : OrderBook) (d d' : Z)
    (bids_out asks_out : nat) (h h' : Heap) :
  0 ≤ d ≤ d' → d' ≤ vector_max_size → bids_out ≠ asks_out →
  let r := get_snapshot d b bids_out asks_out h in
  let r' := get_snapshot d' b bids_out asks_out h' in
  (0 ≤ v_capacity (vectors h bids_out) → 0 ≤ v_capacity (vectors h asks_out) →
   let r0 := get_snapshot 0 b bids_out asks_out h in
   fst r0 = Returned
   ∧ v_elems (vectors (snd r0) bids_out) = []
   ∧ v_elems (vectors (snd r0) asks_out) = [])
  ∧ ((∀ k, grants h k d = true) → fst r = Returned)
  ∧ (fst r = Returned → fst r' = Returned →
     v_elems (vectors (snd r) bids_out)
       `prefix_of` v_elems (vectors (snd r') bids_out)
     ∧ v_elems (vectors (snd r) asks_out)
         `prefix_of` v_elems (vectors (snd r') asks_out))
  ∧ (fst r = Returned →
     Z.of_nat (get_bid_levels b) ≤ d → Z.of_nat (get_ask_levels b) ≤ d →
     v_elems (vectors (snd r) bids_out) = level_view <$> bids b
     ∧ v_elems (vectors (snd r) asks_out) = level_view <$> asks b).
Proof.
  intros Hd Hd' Hne.
  assert (Hmax := vector_max_size_value).
  destruct (get_snapshot_distinct d b bids_out asks_out h)
    as (o1 & h1 & Hrun1 & Hcase1 & _ & Hret1); [lia|done|].
  destruct (get_snapshot_distinct d' b bids_out asks_out h')
    as (o2 & h2 & Hrun2 & Hcase2 & _ & _); [lia|done|].
  rewrite Hrun1, Hrun2. simpl.
  assert (Hpre : ∀ m : list (Z * PriceLevelData),
            (level_view <$> take (Z.to_nat d) m)
              `prefix_of` (level_view <$> take (Z.to_nat d') m)).
  { intros m. exists (level_view <$> drop (Z.to_nat d) (take (Z.to_nat d') m)).
    rewrite <- fmap_app. f_equal.
    rewrite <- (take_drop (Z.to_nat d) (take (Z.to_nat d') m)) at 1. f_equal.
    rewrite take_take. f_equal. lia. }
  split_and!.
  - intros Hcb Hca.
    destruct (get_snapshot_zero b bids_out asks_out h Hcb Hca)
      as (h0 & -> & ? & ? & _). done.
  - intros Hall. apply Hret1; [lia|done].
  - intros -> ->. destruct Hcase1 as (_ & -> & ->), Hcase2 as (_ & -> & ->).
    split; apply Hpre.
  - intros -> H1 H2. destruct Hcase1 as (_ & -> & ->).
    unfold get_bid_levels, get_ask_levels in *.
    rewrite !take_ge by lia. done.
Qed.

Lemma X12_witness :
  0 ≤ 2 ≤ 5 ∧ 5 ≤ vector_max_size
  ∧ (snapshot_of 2 book_two_sided).2.1 `prefix_of` (snapshot_of 5 book_two_sided).2.1
  ∧ (snapshot_of 2 book_two_sided).2.2 `prefix_of` (snapshot_of 5 book_two_sided).2.2
  ∧ snapshot_of 0 book_two_sided = (Returned, ([], [])).
Proof.
  assert (H : 0 ≤ 2 ≤ 5) by lia.
  assert (H' : 5 ≤ vector_max_size) by (vm_compute; discriminate).
  assert (Hne : 0%nat ≠ 1%nat) by discriminate.
  pose proof (X12_snapshot_depth_soft_cap book_two_sided 2 5 0%nat 1%nat
                two_empty_vectors two_empty_vectors H H' Hne)
    as (_ & _ & Hpre & _).
  destruct Hpre as [H2 H3]; [vm_compute; reflexivity..|].
  split; [exact H|]. split; [exact H'|]. split; [exact H2|].
  split; [exact H3|vm_compute; reflexivity].
Defined.

(** X13.  A call touches one side only.  In a state satisfying the
    invariants, an add leaves the side opposite to the order exactly as it
    is, a cancel or an amend of a resting identity leaves the side opposite to
    that identity exactly as it is, and a cancel or an amend of an unknown
    identity leaves the whole book as it is. *)
Theorem X13_calls_touch_one_side (op : Op) (b : OrderBook) :
  book_inv b →
  match op_side op b with
  | Some buy => side_of (negb buy) (step op b) = side_of (negb buy) b
  | None => step op b = b
  end.
Proof.
  intros Hinv. destruct op as [o|id|id p q]; simpl.
  - apply add_order_other_side. by destruct (is_buy o).
  - destruct (order_lookup b !! id) as [loc|] eqn:Hloc; simpl.
    + destruct (cancel_order_effect _ _ _ Hinv Hloc)
        as (lvl & l1 & l2 & b' & _ & _ & -> & _ & _ & Hother & _). done.
    + by rewrite cancel_order_absent.
  - destruct (order_lookup b !! id) as [loc|] eqn:Hloc; simpl;
      [|by rewrite amend_order_absent].
    destruct (loc_ok_record _ _ _ Hinv Hloc) as (o & Ho & _ & Hb & _).
    rewrite amend_order_unfold, Hloc. simpl. rewrite (deref_lookup _ _ _ Ho).
    destruct (cancel_order_effect _ _ _ Hinv Hloc)
      as (lvl & l1 & l2 & b' & _ & _ & Hc & _ & _ & Hother & _).
    destruct (negb (Z.eqb _ _)); cbn [snd].
    + rewrite add_order_other_side by (simpl; rewrite Hb; by destruct (loc_is_buy loc)).
      by rewrite Hc.
    + pose proof (update_in_place_inv id loc q b Hinv Hloc) as Hinv'.
      assert (Hloc' : order_lookup (update_in_place loc q b) !! id = Some loc)
        by (by rewrite update_in_place_lookup).
      destruct (Z.eqb q 0); cbn [snd].
      * destruct (cancel_order_effect _ _ _ Hinv' Hloc')
          as (lvl' & l1' & l2' & b'' & _ & _ & -> & _ & _ & Hother' & _).
        cbn [snd]. rewrite Hother'. apply update_in_place_other_side.
      * apply update_in_place_other_side.
Qed.

Lemma X13_witness :
  book_inv book_two_sided
  ∧ asks (step (Add (mkOrder 9 true 200 1 1)) book_two_sided)
    = asks book_two_sided
  ∧ bids (step (Amend 5 90 1) book_two_sided) = bids book_two_sided
  ∧ step (Cancel 999) book_two_sided = book_two_sided.
Proof.
  assert (Hinv : book_inv book_two_sided)
    by exact (reachable_inv _ book_two_sided_reachable).
  split; [exact Hinv|]. split_and!.
  - exact (X13_calls_touch_one_side (Add (mkOrder 9 true 200 1 1)) _ Hinv).
  - exact (X13_calls_touch_one_side (Amend 5 90 1) _ Hinv).
  - exact (X13_calls_touch_one_side (Cancel 999) _ Hinv).
Defined.

(** ** Timestamps play no part *)

Lemma book_ext b1 b2 :
  (∀ buy, side_of buy b1 = side_of buy b2) →
  order_lookup b1 = order_lookup b2 → order_pool b1 = order_pool b2 → b1 = b2.
Proof.
  intros Hs Hl Hp. pose proof (Hs true) as Hb. pose proof (Hs false) as Ha.
  destruct b1, b2; simpl in *. by subst.
Qed.

Lemma deref_forget pool p :
  deref (forget_timestamp <$> pool) p = forget_timestamp (deref pool p).
Proof. unfold deref. rewrite list_lookup_fmap. by destruct (pool !! p). Qed.

Lemma set_quantity_forget pool p q :
  set_quantity (forget_timestamp <$> pool) p q
  = forget_timestamp <$> set_quantity pool p q.
Proof.
  unfold set_quantity. rewrite deref_forget, list_fmap_insert. done.
Qed.

Lemma forget_side buy b : side_of buy (forget_timestamps b) = side_of buy b.
Proof. by destruct buy. Qed.

Lemma forget_add o b :
  forget_timestamps (add_order o b)
  = add_order (forget_timestamp o) (forget_timestamps b).
Proof.
  apply book_ext.
  - intros buy. rewrite forget_side.
    destruct (decide (buy = is_buy o)) as [->|Hb].
    + pose proof (add_order_side (forget_timestamp o) (forget_timestamps b)) as H.
      change (is_buy (forget_timestamp o)) with (is_buy o) in H.
      change (price (forget_timestamp o)) with (price o) in H.
      rewrite add_order_side, H, forget_side. apply at_key_ext. intros v.
      assert (Hd : deref ((forget_timestamp <$> order_pool b) ++ [forget_timestamp o])
                     (length (order_pool b)) = forget_timestamp o).
      { rewrite <- (length_fmap forget_timestamp (order_pool b)).
        apply deref_app_new. }
      unfold level_add_order. simpl. by rewrite length_fmap, deref_app_new, Hd.
    + rewrite add_order_other_side by done.
      rewrite (add_order_other_side (forget_timestamp o)) by done.
      by rewrite forget_side.
  - simpl. rewrite !add_order_lookup. simpl. by rewrite length_fmap.
  - simpl. rewrite !add_order_pool. simpl. by rewrite fmap_app.
Qed.

Lemma forget_cancel id b :
  cancel_order id (forget_timestamps b)
  = (fst (cancel_order id b), forget_timestamps (snd (cancel_order id b))).
Proof.
  unfold cancel_order. simpl.
  destruct (order_lookup b !! id) as [loc|]; [|done].
  assert (Hrm : ∀ comp lvl side,
    remove_from_side comp (forget_timestamp <$> order_pool b) loc lvl side
    = remove_from_side comp (order_pool b) loc lvl side).
  { intros comp lvl side. unfold remove_from_side. simpl.
    destruct (list_erase _ _); [done|]. apply modify_ext. intros v.
    unfold level_remove_order. by rewrite deref_forget. }
  destruct (loc_is_buy loc); destruct (SideMap.find _ _ _); simpl; try done;
    by rewrite Hrm.
Qed.

Lemma forget_update loc q b :
  update_in_place loc q (forget_timestamps b)
  = forget_timestamps (update_in_place loc q b).
Proof.
  assert (Hf : ∀ v,
    level_update_quantity
      (set_quantity (forget_timestamp <$> order_pool b) (loc_it loc) q)
      (loc_it loc)
      (quantity (deref (forget_timestamp <$> order_pool b) (loc_it loc))) v
    = level_update_quantity (set_quantity (order_pool b) (loc_it loc) q)
        (loc_it loc) (quantity (deref (order_pool b) (loc_it loc))) v).
  { intros v. unfold level_update_quantity.
    by rewrite set_quantity_forget, !deref_forget. }
  unfold update_in_place, forget_timestamps. simpl.
  destruct (loc_is_buy loc); simpl; f_equal;
    first [by apply at_key_ext | apply set_quantity_forget].
Qed.

Lemma forget_amend id p q b :
  amend_order id p q (forget_timestamps b)
  = (fst (amend_order id p q b), forget_timestamps (snd (amend_order id p q b))).
Proof.
  rewrite !amend_order_unfold. simpl.
  destruct (order_lookup b !! id) as [loc|]; [|done]. simpl.
  rewrite deref_forget. simpl.
  destruct (negb (Z.eqb _ _)); simpl.
  - rewrite forget_cancel. simpl. by rewrite forget_add.
  - destruct (Z.eqb q 0); simpl.
    + by rewrite forget_update, forget_cancel.
    + by rewrite forget_update.
Qed.

Lemma forget_step op b :
  step (forget_op_timestamp op) (forget_timestamps b)
  = forget_timestamps (step op b).
Proof.
  destruct op; simpl.
  - by rewrite forget_add.
  - by rewrite forget_cancel.
  - by rewrite forget_amend.
Qed.

Lemma forget_run ops b :
  run (forget_op_timestamp <$> ops) (forget_timestamps b)
  = forget_timestamps (run ops b).
Proof.
  revert b. induction ops as [|op ops IH]; intros b; simpl; [done|].
  by rewrite forget_step, IH.
Qed.

(** X14.  The timestamp of an order plays no part in the book.  Two sequences
    of calls from the empty book that differ in the timestamps of the added
    orders only build the same bid index, the same ask index and the same
    lookup, give the same snapshots and counts, and the same results for any
    further cancel or amend; their pools differ in the timestamp fields
    only. *)
Theorem X14_timestamps_play_no_part (ops1 ops2 : list Op) :
  forget_op_timestamp <$> ops1 = forget_op_timestamp <$> ops2 →
  let b1 := run ops1 empty_book in
  let b2 := run ops2 empty_book in
  bids b1 = bids b2
  ∧ asks b1 = asks b2
  ∧ order_lookup b1 = order_lookup b2
  ∧ forget_timestamp <$> order_pool b1 = forget_timestamp <$> order_pool b2
  ∧ (∀ depth bo ao, get_snapshot depth b1 bo ao = get_snapshot depth b2 bo ao)
  ∧ get_total_orders b1 = get_total_orders b2
  ∧ (∀ id, fst (cancel_order id b1) = fst (cancel_order id b2))
  ∧ (∀ id p q, fst (amend_order id p q b1) = fst (amend_order id p q b2)).
Proof.
  intros Hops b1 b2.
  assert (Heq : forget_timestamps b1 = forget_timestamps b2).
  { unfold b1, b2. rewrite <- !forget_run. by rewrite Hops. }
  assert (Hb : bids b1 = bids b2) by (by injection Heq).
  assert (Ha : asks b1 = asks b2) by (by injection Heq).
  assert (Hl : order_lookup b1 = order_lookup b2) by (by injection Heq).
  split_and!; [done|done|done|by injection Heq| | | |].
  - intros depth bo ao. unfold get_snapshot. by rewrite Hb, Ha.
  - unfold get_total_orders. by rewrite Hl.
  - intros id.
    pose proof (forget_cancel id b1) as H1. rewrite Heq, forget_cancel in H1.
    by injection H1.
  - intros id p q.
    pose proof (forget_amend id p q b1) as H1. rewrite Heq, forget_amend in H1.
    by injection H1.
Qed.

Lemma X14_witness :
  forget_op_timestamp <$> [Add (mkOrder 1 true 100 10 5); Add (mkOrder 2 true 100 20 1);
                           Amend 1 101 10]
  = forget_op_timestamp <$> [Add (mkOrder 1 true 100 10 7); Add (mkOrder 2 true 100 20 9);
                             Amend 1 101 10]
  ∧ bids (run [Add (mkOrder 1 true 100 10 5); Add (mkOrder 2 true 100 20 1);
               Amend 1 101 10] empty_book)
    = bids (run [Add (mkOrder 1 true 100 10 7); Add (mkOrder 2 true 100 20 9);
                 Amend 1 101 10] empty_book).
Proof.
  assert (H : forget_op_timestamp <$>
                [Add (mkOrder 1 true 100 10 5); Add (mkOrder 2 true 100 20 1);
                 Amend 1 101 10]
              = forget_op_timestamp <$>
                  [Add (mkOrder 1 true 100 10 7); Add (mkOrder 2 true 100 20 9);
                   Amend 1 101 10]) by reflexivity.
  split; [exact H|].
  exact (proj1 (X14_timestamps_play_no_part _ _ H)).
Defined.

(** ** Order records against identities *)

Lemma records_by_side buy b :
  length (resting_records b)
  = (length (mjoin ((λ e, orders e.2) <$> side_of buy b))
     + length (mjoin ((λ e, orders e.2) <$> side_of (negb buy) b)))%nat.
Proof. unfold resting_records. rewrite length_app. destruct buy; simpl; lia. Qed.

Lemma records_cons (k : Z) (v : PriceLevelData) (m : list (Z * PriceLevelData)) :
  length (mjoin ((λ e, orders e.2) <$> (k, v) :: m))
  = (length (orders v) + length (mjoin ((λ e, orders e.2) <$> m)))%nat.
Proof. rewrite fmap_cons. simpl. apply length_app. Qed.

Lemma records_at_key comp f k m d :
  (∀ v, length (orders (f v)) = (length (orders v) + d)%nat) →
  length (mjoin ((λ e, orders e.2) <$> SideMap.at_key comp f k m))
  = (length (mjoin ((λ e, orders e.2) <$> m)) + d)%nat.
Proof.
  intros Hf. induction m as [|[k' v] m IH]; cbn [SideMap.at_key].
  - rewrite records_cons, Hf. simpl. lia.
  - destruct (comp k k').
    + rewrite !records_cons, Hf. simpl. lia.
    + destruct (comp k' k); rewrite !records_cons, ?IH, ?Hf; lia.
Qed.

Lemma records_modify comp f k m lvl :
  SideMap.find comp k m = Some lvl →
  (length (mjoin ((λ e, orders e.2) <$> SideMap.modify comp f k m))
   + length (orders lvl))%nat
  = (length (mjoin ((λ e, orders e.2) <$> m)) + length (orders (f lvl)))%nat.
Proof.
  induction m as [|[k' v] m IH]; cbn [SideMap.modify SideMap.find]; [done|].
  destruct (SideMap.equiv_key comp k k').
  - intros [= ->]. rewrite !records_cons. lia.
  - intros Hf. rewrite !records_cons. specialize (IH Hf). lia.
Qed.

Lemma records_erase comp k m lvl :
  SideMap.find comp k m = Some lvl →
  (length (mjoin ((λ e, orders e.2) <$> SideMap.erase comp k m))
   + length (orders lvl))%nat
  = length (mjoin ((λ e, orders e.2) <$> m)).
Proof.
  induction m as [|[k' v] m IH]; cbn [SideMap.erase SideMap.find]; [done|].
  destruct (SideMap.equiv_key comp k k').
  - intros [= ->]. rewrite !records_cons. lia.
  - intros Hf. rewrite !records_cons. specialize (IH Hf). lia.
Qed.

Lemma list_erase_length it l :
  it ∈ l → S (length (list_erase it l)) = length l.
Proof.
  intros (l1 & l2 & -> & _ & ->)%list_erase_split.
  rewrite !length_app. simpl. lia.
Qed.

Lemma records_remove_from_side comp pool loc lvl side :
  SideMap.find comp (loc_price loc) side = Some lvl →
  loc_it loc ∈ orders lvl →
  S (length (mjoin ((λ e, orders e.2) <$> remove_from_side comp pool loc lvl side)))
  = length (mjoin ((λ e, orders e.2) <$> side)).
Proof.
  intros Hf Hit. pose proof (list_erase_length _ _ Hit) as Hlen.
  unfold remove_from_side. simpl.
  destruct (list_erase (loc_it loc) (orders lvl)) eqn:E.
  - pose proof (records_erase comp _ _ _ Hf). simpl in Hlen. lia.
  - pose proof (records_modify comp (level_remove_order pool (loc_it loc)) _ _ _ Hf)
      as H. simpl in H. rewrite E in H. rewrite <- Hlen in H. simpl in H. lia.
Qed.

Lemma records_add o b :
  length (resting_records (add_order o b)) = S (length (resting_records b)).
Proof.
  rewrite !(records_by_side (is_buy o)), add_order_side.
  rewrite add_order_other_side by (by destruct (is_buy o)).
  rewrite (records_at_key _ _ _ _ 1); [lia|].
  intros v. simpl. by rewrite length_app.
Qed.

Lemma records_cancel id b loc :
  book_inv b → order_lookup b !! id = Some loc →
  S (length (resting_records (snd (cancel_order id b))))
  = length (resting_records b).
Proof.
  intros Hinv Hloc. destruct (inv_lookup _ Hinv _ _ Hloc) as (lvl & Hf & Hit & _).
  destruct (cancel_order_found _ _ _ _ Hloc Hf)
    as (b' & -> & _ & _ & Hside & Hother). simpl.
  rewrite !(records_by_side (loc_is_buy loc)), Hside, Hother.
  rewrite <- (records_remove_from_side _ (order_pool b) loc lvl _ Hf Hit). lia.
Qed.

Lemma records_update loc q b :
  length (resting_records (update_in_place loc q b))
  = length (resting_records b).
Proof.
  rewrite !(records_by_side (loc_is_buy loc)), update_in_place_side,
    update_in_place_other_side.
  rewrite (records_at_key _ _ _ _ 0); [lia|]. intros v. simpl. lia.
Qed.

Lemma records_step_balance op b t :
  book_inv b →
  Z.of_nat (length (resting_records (step op b)))
  - tally_balance (tally_step zero_amend_same_price op b t)
  - Z.of_nat (overwritten_duplicates (tally_step zero_amend_same_price op b t))
  = Z.of_nat (length (resting_records b)) - tally_balance t
    - Z.of_nat (overwritten_duplicates t).
Proof.
  intros Hinv. unfold tally_balance. destruct op as [o|id|id p q]; simpl.
  - rewrite records_add. destruct (bool_decide _); simpl; lia.
  - destruct (order_lookup b !! id) as [loc|] eqn:Hloc.
    + pose proof (records_cancel _ _ _ Hinv Hloc) as Hrec.
      destruct (cancel_order_effect _ _ _ Hinv Hloc)
        as (lvl & l1 & l2 & b' & _ & _ & Hc & _).
      rewrite Hc in *. simpl in *. lia.
    + rewrite (cancel_order_absent _ _ Hloc). simpl. lia.
  - unfold zero_amend_same_price. rewrite amend_order_unfold.
    destruct (order_lookup b !! id) as [loc|] eqn:Hloc; [|simpl; lia].
    rewrite (current_price_Some _ _ _ Hloc). cbn [fst snd].
    destruct (Z.eqb_spec (price (deref (order_pool b) (loc_it loc))) p) as [Hp|Hp];
      cbn [negb fst snd].
    + pose proof (update_in_place_inv id loc q b Hinv Hloc) as Hinv'.
      assert (Hloc' : order_lookup (update_in_place loc q b) !! id = Some loc)
        by (by rewrite update_in_place_lookup).
      destruct (Z.eqb q 0); cbn [fst snd andb].
      * pose proof (records_cancel _ _ _ Hinv' Hloc') as Hrec.
        rewrite records_update in Hrec.
        destruct (cancel_order_effect _ _ _ Hinv' Hloc')
          as (lvl & l1 & l2 & b' & _ & _ & Hc & _).
        rewrite Hc in *. cbn [fst snd andb] in *.
        rewrite bool_decide_true by congruence. simpl. lia.
      * rewrite records_update. lia.
    + rewrite bool_decide_false by congruence. rewrite andb_false_r.
      rewrite records_add. pose proof (records_cancel _ _ _ Hinv Hloc). simpl. lia.
Qed.

Lemma records_run_balance ops b t :
  book_inv b →
  Z.of_nat (length (resting_records (run ops b)))
  - tally_balance (tally zero_amend_same_price ops b t)
  - Z.of_nat (overwritten_duplicates (tally zero_amend_same_price ops b t))
  = Z.of_nat (length (resting_records b)) - tally_balance t
    - Z.of_nat (overwritten_duplicates t).
Proof.
  revert b t. induction ops as [|op ops IH]; intros b t Hinv; [done|].
  simpl. rewrite IH by (by apply step_inv). by apply records_step_balance.
Qed.

(** X15.  An overwritten identity leaks one order record for good: after any
    sequence of calls from the empty book, the levels hold as many order
    records as the lookup holds identities, plus one for every add that
    reused an identity then in the lookup. *)
Theorem X15_records_exceed_identities_by_duplicates (ops : list Op) :
  length (resting_records (run ops empty_book))
  = (get_total_orders (run ops empty_book)
     + overwritten_duplicates
         (tally zero_amend_same_price ops empty_book (mkTally 0 0 0 0)))%nat.
Proof.
  pose proof (records_run_balance ops empty_book (mkTally 0 0 0 0) empty_book_inv)
    as Hr.
  pose proof (tally_run_balance ops empty_book (mkTally 0 0 0 0) empty_book_inv)
    as Ht.
  change (tally_balance (mkTally 0 0 0 0)) with 0 in *.
  change (get_total_orders empty_book) with 0%nat in Ht.
  change (length (resting_records empty_book)) with 0%nat in Hr.
  simpl in Hr. lia.
Qed.

(** ** The pool of the book: 8192-byte blocks of 40-byte orders *)

Lemma order_size_fits : 0 < sizeof_Order ≤ order_block_size.
Proof. unfold sizeof_Order, order_block_size. lia. Qed.

Lemma order_block_no_wrap : order_block_size + sizeof_Order < 2 ^ 64.
Proof. unfold sizeof_Order, order_block_size. lia. Qed.

Example orders_per_block :
  BlockPool.per_block order_block_size sizeof_Order = 204%nat.
Proof. reflexivity. Qed.

Lemma X1_witness :
  0 < sizeof_Order ≤ order_block_size
  ∧ order_block_size + sizeof_Order < 2 ^ 64
  ∧ BlockPool.wf order_block_size (BlockPool.create : @BlockPool.Pool Order)
  ∧ ∃ c off p',
      BlockPool.allocate order_block_size sizeof_Order (mkOrder 1 true 100 10 0)
        BlockPool.create = Some ((c, off), p')
      ∧ off + sizeof_Order ≤ order_block_size
      ∧ BlockPool.read p' (c, off) = Some (mkOrder 1 true 100 10 0).
Proof.
  assert (Hwf : BlockPool.wf order_block_size
                  (BlockPool.create : @BlockPool.Pool Order)).
  { exists 0%nat. vm_compute. split_and!; [reflexivity|lia|discriminate|discriminate]. }
  split; [exact order_size_fits|]. split; [exact order_block_no_wrap|].
  split; [exact Hwf|].
  destruct (X1_allocate_stays_in_block order_block_size sizeof_Order
              order_size_fits order_block_no_wrap BlockPool.create
              (mkOrder 1 true 100 10 0) Hwf)
    as (_ & _ & _ & c & off & p' & Ha & _ & _ & Hfit & _ & Hread & _).
  exists c, off, p'. split; [exact Ha|]. split; [exact Hfit|exact Hread].
Defined.

Lemma X2_witness :
  0 < sizeof_Order ≤ order_block_size
  ∧ order_block_size + sizeof_Order < 2 ^ 64
  ∧ ∃ p',
      BlockPool.allocate_all order_block_size sizeof_Order order_burst
        BlockPool.create
      = Some ((λ i, ((i / 204)%nat, Z.of_nat (i mod 204) * sizeof_Order))
                <$> seq 0 205, p')
      ∧ length (BlockPool.all_blocks p') = 2%nat.
Proof.
  split; [exact order_size_fits|]. split; [exact order_block_no_wrap|].
  exact (X2_new_pool_addresses order_block_size sizeof_Order
           order_size_fits order_block_no_wrap order_burst).
Defined.

Lemma order_burst_addresses :
  ∃ p',
    BlockPool.allocate_all order_block_size sizeof_Order order_burst
      BlockPool.create
    = Some (BlockPool.address_of order_block_size sizeof_Order 1
              <$> seq 0 205, p').
Proof.
  destruct (allocate_all_contents order_block_size sizeof_Order
              order_size_fits order_block_no_wrap 1 0 order_burst
              BlockPool.create ltac:(lia)
              (at_count_create order_block_size sizeof_Order))
    as (p' & Hall & _).
  by exists p'.
Qed.

Lemma X3_witness :
  0 < sizeof_Order ≤ order_block_size
  ∧ order_block_size + sizeof_Order < 2 ^ 64
  ∧ ∃ addrs p',
      BlockPool.allocate_all order_block_size sizeof_Order order_burst
        BlockPool.create = Some (addrs, p')
      ∧ addrs !! 203%nat = Some (0%nat, 8120)
      ∧ addrs !! 204%nat = Some (1%nat, 0)
      ∧ 203%nat ≠ 204%nat
      ∧ BlockPool.disjoint sizeof_Order (0%nat, 8120) (1%nat, 0).
Proof.
  split; [exact order_size_fits|]. split; [exact order_block_no_wrap|].
  destruct order_burst_addresses as (p' & Hall).
  assert (H1 : (BlockPool.address_of order_block_size sizeof_Order 1
                  <$> seq 0 205) !! 203%nat = Some (0%nat, 8120))
    by (vm_compute; reflexivity).
  assert (H2 : (BlockPool.address_of order_block_size sizeof_Order 1
                  <$> seq 0 205) !! 204%nat = Some (1%nat, 0))
    by (vm_compute; reflexivity).
  assert (Hne : 203%nat ≠ 204%nat) by discriminate.
  eexists _, p'. split; [exact Hall|]. split; [exact H1|]. split; [exact H2|].
  split; [exact Hne|].
  exact (X3_new_pool_no_overlap order_block_size sizeof_Order
           order_size_fits order_block_no_wrap order_burst _ p'
           203%nat 204%nat _ _ Hall H1 H2 Hne).
Defined.

Lemma X4_witness :
  0 < sizeof_Order ≤ order_block_size
  ∧ order_block_size + sizeof_Order < 2 ^ 64
  ∧ order_burst !! 3%nat = Some (mkOrder 3 true 100 10 0)
  ∧ ∃ addrs p' a,
      BlockPool.allocate_all order_block_size sizeof_Order order_burst
        BlockPool.create = Some (addrs, p')
      ∧ addrs !! 3%nat = Some a
      ∧ BlockPool.read p' a = Some (mkOrder 3 true 100 10 0).
Proof.
  split; [exact order_size_fits|]. split; [exact order_block_no_wrap|].
  assert (Hv : order_burst !! 3%nat = Some (mkOrder 3 true 100 10 0))
    by (vm_compute; reflexivity).
  split; [exact Hv|].
  destruct order_burst_addresses as (p' & Hall).
  destruct (X4_new_pool_keeps_objects order_block_size sizeof_Order
              order_size_fits order_block_no_wrap order_burst _ p'
              3%nat _ Hall Hv) as (a & Ha & Hread).
  eexists _, p', a. split; [exact Hall|]. split; [exact Ha|exact Hread].
Defined.

Lemma X5_witness :
  0 < sizeof_Order ≤ order_block_size
  ∧ order_block_size + sizeof_Order < 2 ^ 64
  ∧ BlockPool.wf order_block_size
      (BlockPool.allocate_block (BlockPool.create : @BlockPool.Pool Order))
  ∧ ∃ p',
      BlockPool.allocate_all order_block_size sizeof_Order order_burst
        (BlockPool.reset (BlockPool.allocate_block BlockPool.create))
      = Some (BlockPool.address_of order_block_size sizeof_Order 2
                <$> seq 0 205, p')
      ∧ length (BlockPool.all_blocks p') = 3%nat
      ∧ BlockPool.address_of order_block_size sizeof_Order 2 204 = (2%nat, 0).
Proof.
  split; [exact order_size_fits|]. split; [exact order_block_no_wrap|].
  assert (Hwf : BlockPool.wf order_block_size
                  (BlockPool.allocate_block
                     (BlockPool.create : @BlockPool.Pool Order))).
  { exists 1%nat. vm_compute. split_and!; [reflexivity|lia|discriminate|discriminate]. }
  split; [exact Hwf|].
  destruct (X5_reset_reuses_first_block_only order_block_size sizeof_Order
              order_size_fits order_block_no_wrap
              (BlockPool.allocate_block BlockPool.create) order_burst Hwf)
    as (_ & p' & Hall & Hlen & _ & Hper & _).
  exists p'. split; [exact Hall|]. split; [exact Hlen|exact Hper].
Defined.

(** X16.  An amendment that changes the price never removes the order,
    whatever the new quantity, zero included: in a state satisfying the
    invariants the identity stays in the lookup, [get_total_orders] is
    unchanged, the new record carries the new quantity, and the level at the
    new price holds the new node, so that level exists afterwards even when
    the quantity is zero. *)
Theorem X16_reprice_never_removes
    (b : OrderBook) (id new_price new_quantity : Z) (loc : OrderLocation) :
  book_inv b → order_lookup b !! id = Some loc →
  price (deref (order_pool b) (loc_it loc)) ≠ new_price →
  let b' := snd (amend_order id new_price new_quantity b) in
  let new := length (order_pool b) in
  fst (amend_order id new_price new_quantity b) = true
  ∧ order_lookup b' !! id = Some (mkLoc new_price new (loc_is_buy loc))
  ∧ get_total_orders b' = get_total_orders b
  ∧ quantity (deref (order_pool b') new) = new_quantity
  ∧ new ∈ level_orders (loc_is_buy loc) new_price b'
  ∧ new_price ∈ (side_of (loc_is_buy loc) b').*1.
Proof.
  intros Hinv Hloc Hne b' new.
  destruct (loc_ok_record _ _ _ Hinv Hloc) as (o & Ho & _ & Hb & _).
  rewrite (deref_lookup _ _ _ Ho) in Hne.
  destruct (cancel_order_effect _ _ _ Hinv Hloc)
    as (lvl & l1 & l2 & b1 & _ & _ & Hc & Hlook & Hpool & _).
  pose proof (cancel_order_inv id b Hinv) as Hinv1.
  rewrite Hc in Hinv1. simpl in Hinv1.
  set (new_order := mkOrder id (loc_is_buy loc) new_price new_quantity
                      (timestamp_ns o)).
  assert (Ha : amend_order id new_price new_quantity b
               = (true, add_order new_order b1)).
  { rewrite amend_order_unfold, Hloc. simpl. rewrite (deref_lookup _ _ _ Ho).
    destruct (Z.eqb_spec (price o) new_price) as [?|_]; [done|]. simpl.
    by rewrite Hc, Hb. }
  subst b'. rewrite Ha. simpl.
  destruct (add_order_effect new_order b1 (inv_sorted _ Hinv1))
    as (Hl & Hn & lvl' & Hf & Hord & _).
  simpl in Hl, Hn, Hf, Hord. rewrite Hpool in *. fold new in Hl, Hn, Hord.
  assert (Hin : new ∈ level_orders (loc_is_buy loc) new_price
                        (add_order new_order b1)).
  { apply level_orders_elem. exists lvl'. split; [done|].
    rewrite Hord. apply elem_of_app. right. apply list_elem_of_here. }
  split_and!; [done|done| | |done|].
  - unfold get_total_orders. rewrite add_order_lookup, Hlook. simpl.
    rewrite insert_delete_eq. apply map_size_insert_Some. by eexists.
  - by rewrite (deref_lookup _ _ _ Hn).
  - apply (find_is_Some_keys (comp_of (loc_is_buy loc))). by eexists.
Qed.

Lemma X16_witness :
  book_inv book_one_bid
  ∧ order_lookup book_one_bid !! 1 = Some (mkLoc 100 0%nat true)
  ∧ price (deref (order_pool book_one_bid) 0%nat) ≠ 101
  ∧ get_total_orders (snd (amend_order 1 101 0 book_one_bid))
    = get_total_orders book_one_bid
  ∧ 101 ∈ (bids (snd (amend_order 1 101 0 book_one_bid))).*1.
Proof.
  assert (Hinv : book_inv book_one_bid)
    by exact (reachable_inv _ book_one_bid_reachable).
  assert (Hloc : order_lookup book_one_bid !! 1 = Some (mkLoc 100 0%nat true))
    by (vm_compute; reflexivity).
  assert (Hne : price (deref (order_pool book_one_bid) 0%nat) ≠ 101)
    by (vm_compute; discriminate).
  split; [exact Hinv|]. split; [exact Hloc|]. split; [exact Hne|].
  destruct (X16_reprice_never_removes book_one_bid 1 101 0 _ Hinv Hloc Hne)
    as (_ & _ & H3 & _ & _ & H6).
  split; [exact H3|exact H6].
Defined.
(** [emplace_back] below [max_size()] elements on a heap that grants every
    request returns, reallocating or not. *)
Lemma emplace_back_granted r x h :
  (∀ k n, grants h k n = true) → v_size (vectors h r) < vector_max_size →
  ∃ h', vector_emplace_back r x h = (Returned, h').
Proof.
  intros Hall Hsize. unfold vector_emplace_back, and_then, new_array, set_vector.
  destruct (negb _); [by eexists|].
  destruct (Z.ltb_spec (vector_max_size - v_size (vectors h r)) 1); [lia|].
  rewrite Hall. by eexists.
Qed.

Lemma snapshot_loop_granted side depth count out h :
  (∀ k n, grants h k n = true) → 0 ≤ count → depth < 2 ^ 64 →
  v_size (vectors h out) + Z.of_nat (length side) ≤ vector_max_size →
  ∃ h', snapshot_loop depth count side out h = (Returned, h').
Proof.
  revert count h. induction side as [|[k lvl] side IH];
    intros count h Hall Hc Hd Hsize; simpl; [by eexists|].
  destruct (Z.leb_spec depth count) as [Hle|Hlt]; [by eexists|].
  rewrite and_then_unfold. simpl in Hsize.
  destruct (emplace_back_granted out (mkPriceLevel k (total_quantity lvl)) h)
    as (h1 & Hpush); [done|lia|].
  rewrite Hpush.
  apply emplace_back_returned in Hpush as (Hel & _ & Hg).
  assert (Hw : wrap64 (count + 1) = count + 1).
  { unfold wrap64. apply Z.mod_small. lia. }
  rewrite Hw. apply IH; [by rewrite Hg|lia|done|].
  unfold v_size in *. rewrite Hel, length_app. simpl. lia.
Qed.

(** X17.  The same vector passed for both outputs.  Nothing in
    [get_snapshot] tells the two references apart, so the asks are appended
    to the bids: whenever the call returns, the vector holds the views of the
    first [depth] bid levels followed by those of the first [depth] ask
    levels, up to twice [depth] entries, and no other vector has changed.  The
    second loop may then outgrow the reserved storage and reallocate; on a
    heap that grants every request the call returns, provided the levels of
    the book together do not exceed [max_size()]. *)
Theorem X17_snapshot_same_vector (b : OrderBook) (depth : Z) (out : nat)
    (h : Heap) :
  0 ≤ depth ≤ vector_max_size →
  let r := get_snapshot depth b out out h in
  ((∀ k n, grants h k n = true) →
   Z.of_nat (get_bid_levels b + get_ask_levels b) ≤ vector_max_size →
   fst r = Returned)
  ∧ (fst r = Returned →
     v_elems (vectors (snd r) out)
     = (level_view <$> take (Z.to_nat depth) (bids b))
       ++ (level_view <$> take (Z.to_nat depth) (asks b))
     ∧ ∀ r', r' ≠ out → vectors (snd r) r' = vectors h r').
Proof.
  intros Hd. assert (Hmax := vector_max_size_value).
  unfold get_snapshot. rewrite !and_then_unfold.
  unfold vector_clear, set_vector. simpl.
  set (h0 := mkHeap _ _ _).
  assert (H0e : v_elems (vectors h0 out) = []).
  { subst h0. simpl. by rewrite fn_lookup_insert. }
  assert (H0f : ∀ r', r' ≠ out → vectors h0 r' = vectors h r').
  { intros r' Hr'. subst h0. simpl. by rewrite !fn_lookup_insert_ne. }
  assert (H0g : grants h0 = grants h) by done.
  clearbody h0.
  destruct (reserve_cases out depth h0)
    as (o1 & h1 & -> & H1e & H1f & H1g & _ & H1r).
  destruct (reserve_cases out depth h1)
    as (o2 & h2 & Hrun2 & H2e & H2f & H2g & _ & H2r).
  split.
  - intros Hall Hlev. unfold get_bid_levels, get_ask_levels in Hlev.
    rewrite H1r; [|lia|intros k; by rewrite H0g].
    rewrite Hrun2, H2r; [|lia|intros k; by rewrite H1g, H0g].
    destruct (snapshot_loop_granted (bids b) depth 0 out h2)
      as (h3 & Hrun3); [intros k n; by rewrite H2g, H1g, H0g|lia|lia| |].
    { unfold v_size. rewrite H2e, H1e, H0e. simpl. lia. }
    rewrite Hrun3.
    apply snapshot_loop_returned in Hrun3 as (H3e & _ & H3g); [|lia..].
    destruct (snapshot_loop_granted (asks b) depth 0 out h3)
      as (h4 & ->); [intros k n; by rewrite H3g, H2g, H1g, H0g|lia|lia| |done].
    unfold v_size. rewrite H3e, H2e, H1e, H0e. simpl.
    rewrite length_fmap, length_take. lia.
  - destruct o1 as [|e1]; [|done]. rewrite Hrun2.
    destruct o2 as [|e2]; [|done].
    destruct (snapshot_loop depth 0 (bids b) out h2) as [[|e3] h3] eqn:Hrun3;
      [|done].
    destruct (snapshot_loop depth 0 (asks b) out h3) as [[|e4] h4] eqn:Hrun4;
      [|done].
    intros _. simpl.
    apply snapshot_loop_returned in Hrun3 as (H3e & H3f & _); [|lia..].
    apply snapshot_loop_returned in Hrun4 as (H4e & H4f & _); [|lia..].
    split.
    + rewrite H4e, H3e, H2e, H1e, H0e, Z.sub_0_r. done.
    + intros r' Hr'. rewrite H4f, H3f, H2f, H1f by done. by apply H0f.
Qed.

Lemma X17_witness :
  0 ≤ 2 ≤ vector_max_size
  ∧ fst (get_snapshot 2 book_two_sided 0%nat 0%nat two_empty_vectors) = Returned
  ∧ v_elems (vectors (snd (get_snapshot 2 book_two_sided 0%nat 0%nat
                             two_empty_vectors)) 0%nat)
    = [mkPriceLevel 102 20; mkPriceLevel 101 30;
       mkPriceLevel 103 40; mkPriceLevel 104 60].
Proof.
  assert (Hd : 0 ≤ 2 ≤ vector_max_size) by (vm_compute; split; discriminate).
  pose proof (X17_snapshot_same_vector book_two_sided 2 0%nat two_empty_vectors
                Hd) as [Hret Hres].
  assert (Hr : fst (get_snapshot 2 book_two_sided 0%nat 0%nat two_empty_vectors)
               = Returned).
  { apply Hret; [done|vm_compute; discriminate]. }
  split; [exact Hd|]. split; [exact Hr|].
  exact (eq_trans (proj1 (Hres Hr)) eq_refl).
Defined.
